(** * GPU runtime tessellation: resolution calculator, LOD evaluator and
      patch partitioner

    A shallow embedding of the CPU-side logic of the GPURuntimeTessellation
    plugin (GPUTessellationMeshBuilder.cpp, GPUTessellationComponent.cpp,
    GPUTessellationSceneProxy.cpp) together with the properties stated for it.

    Conventions.
    - [int32] values are integers of [Z]; every arithmetic operation of the
      source that can leave the 32-bit range is written with [Int32.wrap].
    - [float] values are IEEE-754 binary32 numbers, taken from the
      executable specification [SpecFloat] of the standard library
      (precision 24, emax 128), so rounding is the one of the hardware.
    - [TArray] is a list; indexing out of range is a failed range check,
      modelled by [None] in the [option] monad. *)

From Stdlib Require Import ZArith Zpower Lia Bool.
From Stdlib Require Import Floats.SpecFloat.
From stdpp Require Import base option list.

Local Open Scope Z_scope.

(* ================================================================== *)
(** ** 32-bit signed integers *)

Module Int32.

Definition MIN : Z := -2147483648.
Definition MAX : Z := 2147483647.

(** Two's complement reduction into [MIN, MAX]. *)
Definition wrap (z : Z) : Z := (z + 2147483648) mod 4294967296 - 2147483648.

Definition add (a b : Z) : Z := wrap (a + b).
Definition sub (a b : Z) : Z := wrap (a - b).
Definition mul (a b : Z) : Z := wrap (a * b).
Definition neg (a : Z) : Z := wrap (- a).

(** C++ integer division truncates toward zero. *)
Definition div (a b : Z) : Z := wrap (Z.quot a b).

Definition InRange (z : Z) : Prop := MIN <= z <= MAX.
Definition in_range (z : Z) : bool := (MIN <=? z) && (z <=? MAX).

End Int32.

(* ================================================================== *)
(** ** Single-precision floats *)

Module F32.

Definition prec : Z := 24.
Definition emax : Z := 128.

Definition float : Type := spec_float.

Definition add : float -> float -> float := SFadd prec emax.
Definition sub : float -> float -> float := SFsub prec emax.
Definition mul : float -> float -> float := SFmul prec emax.
Definition div : float -> float -> float := SFdiv prec emax.
Definition sqrt : float -> float := SFsqrt prec emax.
Definition abs : float -> float := SFabs.

(** The comparison operators of C++; every comparison with a NaN is
    false. *)
Definition ltb (x y : float) : bool := SFltb x y.
Definition leb (x y : float) : bool := SFleb x y.
Definition gtb (x y : float) : bool := SFltb y x.
Definition geb (x y : float) : bool := SFleb y x.

Definition is_nan (x : float) : bool :=
  match x with S754_nan => true | _ => false end.

(** [(float)I] for an integer [I], rounded to nearest even. *)
Definition of_int (z : Z) : float := binary_normalize prec emax z 0 false.

(** [m * 2^e], rounded to nearest even; used for literals. *)
Definition lit (m e : Z) : float := binary_normalize prec emax m e false.

Definition zero : float := S754_zero false.
Definition one : float := of_int 1.
Definition half : float := lit 1 (-1).

(** The integer part of a finite float (rounded toward zero). *)
Definition trunc (x : float) : option Z :=
  match x with
  | S754_zero _ => Some 0
  | S754_finite s m e =>
      let q := match e with
               | Zneg p => Z.quot (Zpos m) (Z.pow_pos 2 p)
               | _ => Zpos m * 2 ^ e
               end in
      Some (if s then - q else q)
  | _ => None
  end.

(** [(int32)F]: truncation; a NaN, an infinity or a value outside the
    32-bit range converts to the "integer indefinite" value 0x80000000,
    as the conversion instruction of x86 does. *)
Definition to_int32 (x : float) : Z :=
  match trunc x with
  | Some z => if Int32.in_range z then z else Int32.MIN
  | None => Int32.MIN
  end.

End F32.

Abbreviation float := F32.float.

(* ================================================================== *)
(** ** The engine's math helpers (FMath)

    The plugin calls these helpers of the host engine; they are written
    here as the engine's generic implementation defines them. *)

Module FMath.

Definition Max (a b : Z) : Z := if a <? b then b else a.
Definition Min (a b : Z) : Z := if b <? a then b else a.

(** [Clamp(X, Min, Max) = Max(Min(X, Max), Min)]. *)
Definition Clamp (x lo hi : Z) : Z := Max (Min x hi) lo.

Definition Abs (a : Z) : Z := if 0 <=? a then a else Int32.neg a.

(** [(Dividend + Divisor - 1) / Divisor]. *)
Definition DivideAndRoundUp (dividend divisor : Z) : Z :=
  Int32.div (Int32.sub (Int32.add dividend divisor) 1) divisor.

Definition TruncToInt (F : float) : Z := F32.to_int32 F.

(** [int32 I = TruncToInt(F); I -= ((float)I > F); return I;] *)
Definition FloorToInt (F : float) : Z :=
  let I := TruncToInt F in
  Int32.sub I (if F32.gtb (F32.of_int I) F then 1 else 0).

(** [FloorToInt(F + 0.5f)] *)
Definition RoundToInt (F : float) : Z := FloorToInt (F32.add F F32.half).

Definition MaxF (a b : float) : float := if F32.ltb a b then b else a.
Definition MinF (a b : float) : float := if F32.ltb b a then b else a.
Definition ClampF (x lo hi : float) : float := MaxF (MinF x hi) lo.
Definition Max3F (a b c : float) : float := MaxF (MaxF a b) c.

(** [A + Alpha * (B - A)] *)
Definition Lerp (A B Alpha : float) : float :=
  F32.add A (F32.mul Alpha (F32.sub B A)).

Definition Square (a : float) : float := F32.mul a a.

(** [UE_SMALL_NUMBER = 1.e-8f], the binary32 number nearest to 10^-8. *)
Definition SMALL_NUMBER : float := S754_finite false 11258999 (-50).

(** [FInterpTo(Current, Target, DeltaTime, InterpSpeed)]: jump to the
    target when the speed is not positive or the distance is tiny,
    otherwise move by [Dist * Clamp(DeltaTime * InterpSpeed, 0, 1)]. *)
Definition FInterpTo (Current Target DeltaTime InterpSpeed : float) : float :=
  if F32.leb InterpSpeed F32.zero then Target
  else
    let Dist := F32.sub Target Current in
    if F32.ltb (Square Dist) SMALL_NUMBER then Target
    else
      let DeltaMove :=
        F32.mul Dist (ClampF (F32.mul DeltaTime InterpSpeed) F32.zero F32.one) in
      F32.add Current DeltaMove.

End FMath.

(* ================================================================== *)
(** ** Resolution calculator (FGPUTessellationMeshBuilder) *)

Record FIntPoint : Type := mkIntPoint { PX : Z; PY : Z }.

Definition ThreadGroupSize : Z := 8.
Definition MaxResolution : Z := 1024.
Definition MaxSegments : Z := MaxResolution - 1.

(** [FGPUTessellationMeshBuilder::CalculateResolution]. *)
Definition CalculateResolution (TessellationFactor : float) : FIntPoint :=
  let DesiredSegments :=
    FMath.Max 1 (Int32.mul (FMath.RoundToInt TessellationFactor) 4) in
  let DesiredSegments := FMath.Clamp DesiredSegments ThreadGroupSize MaxSegments in
  let Segments :=
    Int32.mul (FMath.DivideAndRoundUp DesiredSegments ThreadGroupSize) ThreadGroupSize in
  let Segments := FMath.Clamp Segments ThreadGroupSize MaxSegments in
  let Resolution := FMath.Min (Int32.add Segments 1) MaxResolution in
  mkIntPoint Resolution Resolution.


(* ================================================================== *)
(** ** Arrays and loops *)

Module TArray.

Definition Num {A} (arr : list A) : Z := Z.of_nat (length arr).

Definition IsValidIndex {A} (arr : list A) (i : Z) : bool :=
  (0 <=? i) && (i <? Num arr).

(** [arr[i]], a failed range check when [i] is out of range. *)
Definition get {A} (arr : list A) (i : Z) : option A :=
  if IsValidIndex arr i then arr !! Z.to_nat i else None.

(** [arr[i] = x]. *)
Definition set {A} (arr : list A) (i : Z) (x : A) : option (list A) :=
  if IsValidIndex arr i then Some (<[Z.to_nat i := x]> arr) else None.

(** [arr.SetNum(n)]: truncates, or pads with default-constructed
    elements; a negative size is refused. *)
Definition SetNum {A} (dflt : A) (arr : list A) (n : Z) : option (list A) :=
  if n <? 0 then None
  else Some (take (Z.to_nat n) arr ++ replicate (Z.to_nat n - length arr) dflt).

End TArray.

(** [for (int32 i = 0; i < n; ++i) body], threading the state [s] and
    stopping at the first failure. *)
Definition for_range {St : Type} (n : Z) (body : Z -> St -> option St) (s : St)
  : option St :=
  foldl (fun acc i => acc ≫= body (Z.of_nat i)) (Some s) (seq 0 (Z.to_nat n)).

(* ================================================================== *)
(** ** Data model (GPUTessellationComponent.h) *)

Inductive EGPUTessellationNormalMethod : Type :=
| NormalMethod_Disabled
| NormalMethod_FiniteDifference
| NormalMethod_GeometryBased
| NormalMethod_Hybrid
| NormalMethod_FromNormalMap.

Inductive EGPUTessellationLODMode : Type :=
| LODMode_Disabled
| LODMode_DistanceBased
| LODMode_DistanceBasedDiscrete
| LODMode_DistanceBasedPatches
| LODMode_DensityTexture.

Definition LODMode_eqb (a b : EGPUTessellationLODMode) : bool :=
  match a, b with
  | LODMode_Disabled, LODMode_Disabled
  | LODMode_DistanceBased, LODMode_DistanceBased
  | LODMode_DistanceBasedDiscrete, LODMode_DistanceBasedDiscrete
  | LODMode_DistanceBasedPatches, LODMode_DistanceBasedPatches
  | LODMode_DensityTexture, LODMode_DensityTexture => true
  | _, _ => false
  end.

(** [enum class EGPUTessellationPatchLevel : uint8].  A value of the
    enumeration is identified with its underlying integer, which the casts
    [static_cast<int32>] and [static_cast<EGPUTessellationPatchLevel>] of
    the source preserve; an integer that is none of the six enumerators is
    an unrecognized level. *)
Definition EGPUTessellationPatchLevel : Type := Z.
Definition Patch_4 : EGPUTessellationPatchLevel := 0.
Definition Patch_8 : EGPUTessellationPatchLevel := 1.
Definition Patch_16 : EGPUTessellationPatchLevel := 2.
Definition Patch_32 : EGPUTessellationPatchLevel := 3.
Definition Patch_64 : EGPUTessellationPatchLevel := 4.
Definition Patch_128 : EGPUTessellationPatchLevel := 5.

Record FVector2f : Type := mkVector2f { V2X : float; V2Y : float }.

Record FIntVector4 : Type := mkIntVector4 { IX : Z; IY : Z; IZ : Z; IW : Z }.

Record FGPUTessellationSettings : Type := mkSettings {
  TessellationFactor : Z;
  PlaneSizeX : float;
  PlaneSizeY : float;
  DisplacementIntensity : float;
  DisplacementOffset : float;
  LODMode : EGPUTessellationLODMode;
  bUseDistanceToBounds : bool;
  DiscreteLODLevels : list EGPUTessellationPatchLevel;
  DiscreteLODDistances : list float;
  PatchCountX : Z;
  PatchCountY : Z;
  PatchLevels : list EGPUTessellationPatchLevel;
  PatchDistances : list float;
  bEnablePatchCulling : bool;
  MaxTessellationFactor : Z;
  MinTessellationFactor : Z;
  MinTessellationDistance : float;
  MaxTessellationDistance : float;
  LODTransitionSpeed : float;
  LODHysteresis : Z;
  NormalCalculationMethod : EGPUTessellationNormalMethod;
  UVOffset : FVector2f;
  UVScale : FVector2f
}.

(** [PatchSettings = Settings; PatchSettings.UVOffset = ...;
    PatchSettings.UVScale = ...]. *)
Definition WithPatchUV (S : FGPUTessellationSettings) (Offset Scale : FVector2f)
  : FGPUTessellationSettings :=
  mkSettings (TessellationFactor S) (PlaneSizeX S) (PlaneSizeY S)
    (DisplacementIntensity S) (DisplacementOffset S) (LODMode S)
    (bUseDistanceToBounds S) (DiscreteLODLevels S) (DiscreteLODDistances S)
    (PatchCountX S) (PatchCountY S) (PatchLevels S) (PatchDistances S)
    (bEnablePatchCulling S) (MaxTessellationFactor S) (MinTessellationFactor S)
    (MinTessellationDistance S) (MaxTessellationDistance S)
    (LODTransitionSpeed S) (LODHysteresis S) (NormalCalculationMethod S)
    Offset Scale.

(** [EffectiveSettings = Settings; EffectiveSettings.TessellationFactor = F]
    (the scene proxy's private copy). *)
Definition WithTessellationFactor (S : FGPUTessellationSettings) (F : Z)
  : FGPUTessellationSettings :=
  mkSettings F (PlaneSizeX S) (PlaneSizeY S)
    (DisplacementIntensity S) (DisplacementOffset S) (LODMode S)
    (bUseDistanceToBounds S) (DiscreteLODLevels S) (DiscreteLODDistances S)
    (PatchCountX S) (PatchCountY S) (PatchLevels S) (PatchDistances S)
    (bEnablePatchCulling S) (MaxTessellationFactor S) (MinTessellationFactor S)
    (MinTessellationDistance S) (MaxTessellationDistance S)
    (LODTransitionSpeed S) (LODHysteresis S) (NormalCalculationMethod S)
    (UVOffset S) (UVScale S).

(* ================================================================== *)
(** ** Patch level selection (FGPUTessellationMeshBuilder) *)

(** [FGPUTessellationMeshBuilder::ConvertPatchLevelToTessellation]. *)
Definition ConvertPatchLevelToTessellation (Level : EGPUTessellationPatchLevel) : Z :=
  match Level with
  | 0 => 4
  | 1 => 8
  | 2 => 16
  | 3 => 32
  | 4 => 64
  | 5 => 128
  | _ => 16
  end.

(** The search loop of [CalculatePatchTessellationLevel]:
    [for (i = 0; i < PatchDistances.Num(); ++i)
       if (DistanceToCamera <= PatchDistances[i])
         { if (i < PatchLevels.Num()) TargetLevel = PatchLevels[i]; break; }]
    [Distances] is the part of the array not yet visited, [i] its index. *)
Fixpoint FindPatchLevel (DistanceToCamera : float) (Distances : list float)
    (Levels : list EGPUTessellationPatchLevel) (i : nat) (TargetLevel : Z) : Z :=
  match Distances with
  | [] => TargetLevel
  | d :: rest =>
      if F32.leb DistanceToCamera d then
        match Levels !! i with
        | Some l => l
        | None => TargetLevel
        end
      else FindPatchLevel DistanceToCamera rest Levels (S i) TargetLevel
  end.

(** [FGPUTessellationMeshBuilder::CalculatePatchTessellationLevel]. *)
Definition CalculatePatchTessellationLevel (DistanceToCamera : float)
    (Settings : FGPUTessellationSettings) : Z :=
  match PatchLevels Settings with
  | [] => 16
  | Level0 :: _ =>
      let TargetLevel := Level0 in
      match last (PatchDistances Settings) with
      | None => ConvertPatchLevelToTessellation Level0
      | Some LastDistance =>
          let TargetLevel :=
            FindPatchLevel DistanceToCamera (PatchDistances Settings)
              (PatchLevels Settings) 0 TargetLevel in
          let TargetLevel :=
            if F32.gtb DistanceToCamera LastDistance then
              (* no wrap: [Num()] is never negative *)
              let LastIndex :=
                FMath.Min (TArray.Num (PatchDistances Settings))
                          (TArray.Num (PatchLevels Settings)) - 1 in
              if (0 <=? LastIndex) && (LastIndex <? TArray.Num (PatchLevels Settings))
              then default TargetLevel (PatchLevels Settings !! Z.to_nat LastIndex)
              else TargetLevel
            else TargetLevel in
          ConvertPatchLevelToTessellation TargetLevel
      end
  end.

(* ================================================================== *)
(** ** The engine's geometry, as the plugin consumes it

    Vectors, matrices, boxes and frusta belong to the host engine.  The
    plugin only builds vectors from components, adds and transforms them,
    and asks for distances, box extents and frustum tests. *)

Class EngineGeometry : Type := {
  FVector : Type;
  FMatrix : Type;
  FBox : Type;
  (** [FVector(X, Y, Z)] *)
  MakeVector : float -> float -> float -> FVector;
  VX : FVector -> float;
  VY : FVector -> float;
  VZ : FVector -> float;
  ZeroVector : FVector;
  (** [A + B] *)
  VAdd : FVector -> FVector -> FVector;
  (** [M.TransformPosition(V)] and [T.InverseTransformPosition(V)] *)
  TransformPosition : FMatrix -> FVector -> FVector;
  InverseTransformPosition : FMatrix -> FVector -> FVector;
  (** [FBox(Points)] and [Box.GetExtent()] *)
  BoxFromPoints : list FVector -> FBox;
  GetExtent : FBox -> FVector;
  (** [FVector::Dist(A, B)], converted to [float] *)
  Dist : FVector -> FVector -> float
}.

(** The passes recorded in the render graph: the four compute dispatches,
    and the two passes that store the buffers when the graph executes,
    "CreateGPUBufferSRVs" of the single mesh and "CreatePatchBufferSRVs"
    of a patch. *)
Inductive RDGPass : Type :=
| Pass_VertexGeneration (Resolution : FIntPoint)
    (PatchUVOffset PatchUVScale : FVector2f) (GroupCountX GroupCountY : Z)
| Pass_Displacement (GroupCountX : Z)
| Pass_NormalCalculation (GroupCountX : Z)
| Pass_IndexGeneration (Resolution : FIntPoint)
    (EdgeCollapseFactors : FIntVector4) (GroupCountX GroupCountY : Z)
| Pass_CreateGPUBufferSRVs
| Pass_CreatePatchBufferSRVs.

Definition FRDGBuilder : Type := list RDGPass.

(** A buffer of the graph: [CreateStructuredDesc(BytesPerElement, NumElements)]. *)
Record FRDGBuffer : Type := mkRDGBuffer { BytesPerElement : Z; NumElements : Z }.

(** [FGPUTessellationBuffers]: the GPU-resident buffer set of one mesh or
    one patch ([None] is a null reference). *)
Record FGPUTessellationBuffers : Type := mkBuffers {
  PositionBuffer : option FRDGBuffer;
  NormalBuffer : option FRDGBuffer;
  UVBuffer : option FRDGBuffer;
  IndexBufferRHI : option FRDGBuffer;
  VertexCount : Z;
  IndexCount : Z;
  BufferResolutionX : Z;
  BufferResolutionY : Z
}.

(** Modelled from the spec: [FGPUTessellationBuffers] with its constructor
    and [Reset] is declared in GPUTessellationMeshBuilder.h, which is not
    among the sources; a fresh or reset buffer set holds no buffer and zero
    counts. *)
Definition Buffers_Empty : FGPUTessellationBuffers :=
  mkBuffers None None None None 0 0 0 0.

Definition Buffers_Reset (_ : FGPUTessellationBuffers) : FGPUTessellationBuffers :=
  Buffers_Empty.

(** Modelled from the spec: [FGPUTessellationBuffers::IsValid] is declared
    in GPUTessellationMeshBuilder.h, which is not among the sources; "a
    buffer set is valid iff all four sub-buffers are non-null and counts
    are positive". *)
Definition Buffers_IsValid (B : FGPUTessellationBuffers) : bool :=
  bool_decide (is_Some (PositionBuffer B))
  && bool_decide (is_Some (NormalBuffer B))
  && bool_decide (is_Some (UVBuffer B))
  && bool_decide (is_Some (IndexBufferRHI B))
  && (0 <? VertexCount B) && (0 <? IndexCount B).

Section MeshBuilder.

Context `{Geometry : EngineGeometry}.

(** A view frustum, through the one query the plugin makes:
    [Frustum.IntersectBox(Origin, Extent)]. *)
Definition FConvexVolume : Type := FVector -> FVector -> bool.

Record FGPUTessellationPatchInfo : Type := mkPatchInfo {
  PatchOffset : FVector2f;
  PatchSize : FVector2f;
  PatchIndexX : Z;
  PatchIndexY : Z;
  WorldCenter : FVector;
  WorldBounds : FBox;
  TessellationLevel : Z;
  ResolutionX : Z;
  ResolutionY : Z;
  bVisible : bool;
  EdgeCollapseFactors : FIntVector4
}.

Definition SetEdgeCollapseFactors (P : FGPUTessellationPatchInfo)
    (F : FIntVector4) : FGPUTessellationPatchInfo :=
  mkPatchInfo (PatchOffset P) (PatchSize P) (PatchIndexX P) (PatchIndexY P)
    (WorldCenter P) (WorldBounds P) (TessellationLevel P)
    (ResolutionX P) (ResolutionY P) (bVisible P) F.

(** [FGPUTessellationPatchBuffers]. *)
Record FGPUTessellationPatchBuffers : Type := mkPatchBuffers {
  PatchBuffers : list FGPUTessellationBuffers;
  PatchInfo : list FGPUTessellationPatchInfo;
  PatchBuffersCountX : Z;
  PatchBuffersCountY : Z
}.

(** The default-constructed [FGPUTessellationPatchInfo] that [SetNum]
    appends; the structure is declared in GPUTessellationMeshBuilder.h,
    which is not among the sources. *)
Variable DefaultPatchInfo : FGPUTessellationPatchInfo.

(** *** CalculatePatchInfo *)

(** The position of patch [(X, Y)] in the local space of the plane. *)
Definition PatchLocalCenter (Settings : FGPUTessellationSettings)
    (PatchCountX PatchCountY X Y : Z) : FVector :=
  let PatchUVSizeX := F32.div F32.one (F32.of_int PatchCountX) in
  let PatchUVSizeY := F32.div F32.one (F32.of_int PatchCountY) in
  let PatchLocalSizeX := F32.div (PlaneSizeX Settings) (F32.of_int PatchCountX) in
  let PatchLocalSizeY := F32.div (PlaneSizeY Settings) (F32.of_int PatchCountY) in
  let OffsetX := F32.mul (F32.of_int X) PatchUVSizeX in
  let OffsetY := F32.mul (F32.of_int Y) PatchUVSizeY in
  let LocalMinX := F32.mul (F32.sub OffsetX F32.half) (PlaneSizeX Settings) in
  let LocalMinY := F32.mul (F32.sub OffsetY F32.half) (PlaneSizeY Settings) in
  let LocalCenterX := F32.add LocalMinX (F32.mul PatchLocalSizeX F32.half) in
  let LocalCenterY := F32.add LocalMinY (F32.mul PatchLocalSizeY F32.half) in
  let LocalCenterZ :=
    F32.add (DisplacementOffset Settings)
            (F32.mul (DisplacementIntensity Settings) F32.half) in
  MakeVector LocalCenterX LocalCenterY LocalCenterZ.

(** The body of the double loop of [CalculatePatchInfo] for patch
    [(X, Y)]: every field but [EdgeCollapseFactors] is written. *)
Definition CalculatePatchInfo_patch (Settings : FGPUTessellationSettings)
    (LocalToWorld : FMatrix) (CameraPosition : FVector)
    (ViewFrustum : option FConvexVolume) (PatchCountX PatchCountY X Y : Z)
    (Patch : FGPUTessellationPatchInfo) : FGPUTessellationPatchInfo :=
  let PatchUVSizeX := F32.div F32.one (F32.of_int PatchCountX) in
  let PatchUVSizeY := F32.div F32.one (F32.of_int PatchCountY) in
  let PatchLocalSizeX := F32.div (PlaneSizeX Settings) (F32.of_int PatchCountX) in
  let PatchLocalSizeY := F32.div (PlaneSizeY Settings) (F32.of_int PatchCountY) in
  let Offset :=
    mkVector2f (F32.mul (F32.of_int X) PatchUVSizeX)
               (F32.mul (F32.of_int Y) PatchUVSizeY) in
  let Size := mkVector2f PatchUVSizeX PatchUVSizeY in
  let LocalCenter := PatchLocalCenter Settings PatchCountX PatchCountY X Y in
  let Center := TransformPosition LocalToWorld LocalCenter in
  let MaxDisplacementUp :=
    F32.add (DisplacementIntensity Settings)
            (FMath.MaxF F32.zero (DisplacementOffset Settings)) in
  let MaxDisplacementDown :=
    F32.abs (FMath.MinF F32.zero (DisplacementOffset Settings)) in
  let TotalDisplacementRange := F32.add MaxDisplacementUp MaxDisplacementDown in
  let HX := F32.mul PatchLocalSizeX F32.half in
  let HY := F32.mul PatchLocalSizeY F32.half in
  let HZ := F32.mul TotalDisplacementRange F32.half in
  let Corner (sx sy sz : bool) :=
    TransformPosition LocalToWorld
      (VAdd LocalCenter
         (MakeVector (if sx then HX else SFopp HX)
                     (if sy then HY else SFopp HY)
                     (if sz then HZ else SFopp HZ))) in
  let Corners :=
    [ Corner false false false; Corner false false true;
      Corner false true false;  Corner false true true;
      Corner true false false;  Corner true false true;
      Corner true true false;   Corner true true true ] in
  let Bounds := BoxFromPoints Corners in
  let Distance := Dist Center CameraPosition in
  let Level := CalculatePatchTessellationLevel Distance Settings in
  let PatchResolution := CalculateResolution (F32.of_int Level) in
  let Visible :=
    match ViewFrustum with
    | Some Frustum =>
        if bEnablePatchCulling Settings
        then Frustum Center (GetExtent Bounds)
        else true
    | None => true
    end in
  mkPatchInfo Offset Size X Y Center Bounds Level
    (PX PatchResolution) (PY PatchResolution) Visible
    (EdgeCollapseFactors Patch).

(** [FGPUTessellationMeshBuilder::CalculatePatchInfo]. *)
Definition CalculatePatchInfo (Settings : FGPUTessellationSettings)
    (LocalToWorld : FMatrix) (CameraPosition : FVector)
    (ViewFrustum : option FConvexVolume) (PatchCountX PatchCountY : Z)
    (OutPatchInfo : list FGPUTessellationPatchInfo)
  : option (list FGPUTessellationPatchInfo) :=
  let TotalPatches := Int32.mul PatchCountX PatchCountY in
  OutPatchInfo ← TArray.SetNum DefaultPatchInfo OutPatchInfo TotalPatches;
  for_range PatchCountY (fun Y =>
    for_range PatchCountX (fun X OutPatchInfo =>
      let PatchIndex := Int32.add (Int32.mul Y PatchCountX) X in
      Patch ← TArray.get OutPatchInfo PatchIndex;
      TArray.set OutPatchInfo PatchIndex
        (CalculatePatchInfo_patch Settings LocalToWorld CameraPosition
           ViewFrustum PatchCountX PatchCountY X Y Patch)))
    OutPatchInfo.

(** *** ComputePatchEdgeTransitions *)

(** The lambda [GetPatch]: a null pointer outside the grid. *)
Definition GetPatch (PatchCountX PatchCountY : Z)
    (PatchInfo : list FGPUTessellationPatchInfo) (X Y : Z)
  : option (option FGPUTessellationPatchInfo) :=
  if (X <? 0) || (PatchCountX <=? X) || (Y <? 0) || (PatchCountY <=? Y)
  then Some None
  else
    P ← TArray.get PatchInfo (Int32.add (Int32.mul Y PatchCountX) X);
    Some (Some P).

(** The lambda [ComputeFactor], for the patch [Patch] it captures. *)
Definition ComputeFactor (Patch : FGPUTessellationPatchInfo)
    (Neighbor : option FGPUTessellationPatchInfo) (bVerticalEdge : bool) : Z :=
  match Neighbor with
  | None => 1
  | Some Neighbor =>
      if (ResolutionX Patch <=? 0) || (ResolutionY Patch <=? 0)
         || (ResolutionX Neighbor <=? 0) || (ResolutionY Neighbor <=? 0)
      then 1
      else if TessellationLevel Patch <=? TessellationLevel Neighbor
      then 1
      else
        let MySegments :=
          if bVerticalEdge
          then FMath.Max 1 (Int32.sub (ResolutionY Patch) 1)
          else FMath.Max 1 (Int32.sub (ResolutionX Patch) 1) in
        let NeighborSegments :=
          if bVerticalEdge
          then FMath.Max 1 (Int32.sub (ResolutionY Neighbor) 1)
          else FMath.Max 1 (Int32.sub (ResolutionX Neighbor) 1) in
        if (NeighborSegments <=? 0) || (MySegments <=? NeighborSegments)
        then 1
        else
          let Factor := FMath.Max 1 (Int32.div MySegments NeighborSegments) in
          FMath.Clamp Factor 1 64
  end.

(** One assignment [Patch.EdgeCollapseFactors.<component> = ComputeFactor(
    GetPatch(NX, NY), bVerticalEdge)] through the reference [Patch] into
    the array. *)
Definition AssignEdgeFactor (PatchCountX PatchCountY : Z) (PatchIndex : Z)
    (NX NY : Z) (bVerticalEdge : bool)
    (Store : FIntVector4 -> Z -> FIntVector4)
    (PatchInfo : list FGPUTessellationPatchInfo)
  : option (list FGPUTessellationPatchInfo) :=
  Neighbor ← GetPatch PatchCountX PatchCountY PatchInfo NX NY;
  Patch ← TArray.get PatchInfo PatchIndex;
  TArray.set PatchInfo PatchIndex
    (SetEdgeCollapseFactors Patch
       (Store (EdgeCollapseFactors Patch)
              (ComputeFactor Patch Neighbor bVerticalEdge))).

Definition StoreX (V : FIntVector4) (z : Z) := mkIntVector4 z (IY V) (IZ V) (IW V).
Definition StoreY (V : FIntVector4) (z : Z) := mkIntVector4 (IX V) z (IZ V) (IW V).
Definition StoreZ (V : FIntVector4) (z : Z) := mkIntVector4 (IX V) (IY V) z (IW V).
Definition StoreW (V : FIntVector4) (z : Z) := mkIntVector4 (IX V) (IY V) (IZ V) z.

(** The body of the double loop for patch [(X, Y)]. *)
Definition ComputePatchEdgeTransitions_patch (PatchCountX PatchCountY X Y : Z)
    (PatchInfo : list FGPUTessellationPatchInfo)
  : option (list FGPUTessellationPatchInfo) :=
  let PatchIndex := Int32.add (Int32.mul Y PatchCountX) X in
  Patch ← TArray.get PatchInfo PatchIndex;
  PatchInfo ← TArray.set PatchInfo PatchIndex
                (SetEdgeCollapseFactors Patch (mkIntVector4 1 1 1 1));
  PatchInfo ← AssignEdgeFactor PatchCountX PatchCountY PatchIndex
                (X - 1) Y true StoreX PatchInfo;
  PatchInfo ← AssignEdgeFactor PatchCountX PatchCountY PatchIndex
                (X + 1) Y true StoreY PatchInfo;
  PatchInfo ← AssignEdgeFactor PatchCountX PatchCountY PatchIndex
                X (Y - 1) false StoreZ PatchInfo;
  AssignEdgeFactor PatchCountX PatchCountY PatchIndex
    X (Y + 1) false StoreW PatchInfo.

(** [FGPUTessellationMeshBuilder::ComputePatchEdgeTransitions]. *)
Definition ComputePatchEdgeTransitions (PatchCountX PatchCountY : Z)
    (PatchInfo : list FGPUTessellationPatchInfo)
  : option (list FGPUTessellationPatchInfo) :=
  let ExpectedCount := Int32.mul PatchCountX PatchCountY in
  if (PatchCountX <=? 0) || (PatchCountY <=? 0)
     || negb (TArray.Num PatchInfo =? ExpectedCount)
  then Some PatchInfo
  else
    for_range PatchCountY (fun Y =>
      for_range PatchCountX (fun X =>
        ComputePatchEdgeTransitions_patch PatchCountX PatchCountY X Y))
      PatchInfo.

(** *** Compute dispatches *)

(** [DispatchVertexGeneration]: creates the three vertex streams and
    records the pass. *)
Definition DispatchVertexGeneration (GraphBuilder : FRDGBuilder)
    (Settings : FGPUTessellationSettings) (Resolution : FIntPoint)
  : FRDGBuilder * (FRDGBuffer * FRDGBuffer * FRDGBuffer) :=
  let VertexCount := Int32.mul (PX Resolution) (PY Resolution) in
  (GraphBuilder ++
     [Pass_VertexGeneration Resolution (UVOffset Settings) (UVScale Settings)
        (FMath.DivideAndRoundUp (PX Resolution) 8)
        (FMath.DivideAndRoundUp (PY Resolution) 8)],
   (mkRDGBuffer 12 VertexCount, mkRDGBuffer 12 VertexCount,
    mkRDGBuffer 8 VertexCount)).

Definition DispatchDisplacement (GraphBuilder : FRDGBuilder)
    (Resolution : FIntPoint) : FRDGBuilder :=
  let VertexCount := Int32.mul (PX Resolution) (PY Resolution) in
  GraphBuilder ++ [Pass_Displacement (FMath.DivideAndRoundUp VertexCount 64)].

Definition DispatchNormalCalculation (GraphBuilder : FRDGBuilder)
    (Resolution : FIntPoint) : FRDGBuilder :=
  let VertexCount := Int32.mul (PX Resolution) (PY Resolution) in
  GraphBuilder ++ [Pass_NormalCalculation (FMath.DivideAndRoundUp VertexCount 64)].

Definition DispatchIndexGeneration (GraphBuilder : FRDGBuilder)
    (Resolution : FIntPoint) (Factors : FIntVector4)
  : FRDGBuilder * FRDGBuffer :=
  let IndexCount :=
    Int32.mul (Int32.mul (Int32.sub (PX Resolution) 1)
                         (Int32.sub (PY Resolution) 1)) 6 in
  (GraphBuilder ++
     [Pass_IndexGeneration Resolution Factors
        (FMath.DivideAndRoundUp (Int32.sub (PX Resolution) 1) 8)
        (FMath.DivideAndRoundUp (Int32.sub (PY Resolution) 1) 8)],
   mkRDGBuffer 4 IndexCount).

(** *** GenerateSinglePatch *)

(** The test on the UV window of a patch. *)
Definition InvalidUVParameters (P : FGPUTessellationPatchInfo) : bool :=
  F32.ltb (V2X (PatchOffset P)) F32.zero || F32.ltb (V2Y (PatchOffset P)) F32.zero
  || F32.gtb (V2X (PatchOffset P)) F32.one || F32.gtb (V2Y (PatchOffset P)) F32.one
  || F32.leb (V2X (PatchSize P)) F32.zero || F32.leb (V2Y (PatchSize P)) F32.zero
  || F32.gtb (V2X (PatchSize P)) F32.one || F32.gtb (V2Y (PatchSize P)) F32.one.

(** [FGPUTessellationMeshBuilder::GenerateSinglePatch].  The buffer
    references that the pass "CreatePatchBufferSRVs" stores when the graph
    executes are stored at once. *)
Definition GenerateSinglePatch (GraphBuilder : FRDGBuilder)
    (Settings : FGPUTessellationSettings) (Patch : FGPUTessellationPatchInfo)
    (OutPatchBuffers : FGPUTessellationBuffers)
  : FRDGBuilder * FGPUTessellationBuffers :=
  let Level := TessellationLevel Patch in
  if Level <=? 0 then (GraphBuilder, Buffers_Reset OutPatchBuffers)
  else
    let Resolution := CalculateResolution (F32.of_int Level) in
    let VertexCount := Int32.mul (PX Resolution) (PY Resolution) in
    let IndexCount :=
      Int32.mul (Int32.mul (Int32.sub (PX Resolution) 1)
                           (Int32.sub (PY Resolution) 1)) 6 in
    if (PX Resolution <? 2) || (PY Resolution <? 2)
    then (GraphBuilder, Buffers_Reset OutPatchBuffers)
    else if (VertexCount <=? 0) || (IndexCount <=? 0)
    then (GraphBuilder, Buffers_Reset OutPatchBuffers)
    else if InvalidUVParameters Patch
    then (GraphBuilder, Buffers_Reset OutPatchBuffers)
    else
      let PatchSettings := WithPatchUV Settings (PatchOffset Patch) (PatchSize Patch) in
      let '(GraphBuilder, (VertexBuffer, NormalBuffer, UVBuffer)) :=
        DispatchVertexGeneration GraphBuilder PatchSettings Resolution in
      let GraphBuilder := DispatchDisplacement GraphBuilder Resolution in
      let GraphBuilder :=
        match NormalCalculationMethod Settings with
        | NormalMethod_Disabled => GraphBuilder
        | _ => DispatchNormalCalculation GraphBuilder Resolution
        end in
      let '(GraphBuilder, IndexBuffer) :=
        DispatchIndexGeneration GraphBuilder Resolution (EdgeCollapseFactors Patch) in
      (GraphBuilder ++ [Pass_CreatePatchBufferSRVs],
       mkBuffers (Some VertexBuffer) (Some NormalBuffer) (Some UVBuffer)
         (Some IndexBuffer) VertexCount IndexCount
         (PX Resolution) (PY Resolution)).

(** *** ExecutePatchTessellationPipeline *)

(** The state of the generation loop: the graph, the output array and
    the three counters of the summary. *)
Record PatchLoopState : Type := mkLoopState {
  LoopGraph : FRDGBuilder;
  LoopBuffers : list FGPUTessellationBuffers;
  SkippedCulled : Z;
  SkippedInvalidLOD : Z;
  GeneratedSuccessfully : Z
}.

(** The body of [for (PatchIndex = 0; PatchIndex < TotalPatches; ++PatchIndex)]. *)
Definition GeneratePatch_step (Settings : FGPUTessellationSettings)
    (PatchInfo : list FGPUTessellationPatchInfo) (PatchIndex : Z)
    (St : PatchLoopState) : option PatchLoopState :=
  Patch ← TArray.get PatchInfo PatchIndex;
  if negb (bVisible Patch) then
    Buf ← TArray.get (LoopBuffers St) PatchIndex;
    Bufs ← TArray.set (LoopBuffers St) PatchIndex (Buffers_Reset Buf);
    Some (mkLoopState (LoopGraph St) Bufs (Int32.add (SkippedCulled St) 1)
            (SkippedInvalidLOD St) (GeneratedSuccessfully St))
  else if TessellationLevel Patch <=? 0 then
    Buf ← TArray.get (LoopBuffers St) PatchIndex;
    Bufs ← TArray.set (LoopBuffers St) PatchIndex (Buffers_Reset Buf);
    Some (mkLoopState (LoopGraph St) Bufs (SkippedCulled St)
            (Int32.add (SkippedInvalidLOD St) 1) (GeneratedSuccessfully St))
  else
    Buf ← TArray.get (LoopBuffers St) PatchIndex;
    let '(Graph, Buf) := GenerateSinglePatch (LoopGraph St) Settings Patch Buf in
    Bufs ← TArray.set (LoopBuffers St) PatchIndex Buf;
    Some (mkLoopState Graph Bufs (SkippedCulled St) (SkippedInvalidLOD St)
            (Int32.add (GeneratedSuccessfully St) 1)).

(** The generation loop over an array of patch descriptions. *)
Definition GeneratePatches (Settings : FGPUTessellationSettings)
    (PatchInfo : list FGPUTessellationPatchInfo) (TotalPatches : Z)
    (St : PatchLoopState) : option PatchLoopState :=
  for_range TotalPatches (GeneratePatch_step Settings PatchInfo) St.

(** [FGPUTessellationMeshBuilder::ExecutePatchTessellationPipeline];
    [None] is a failed [check] or range check.  The result carries the
    graph, the output and the final state of the loop. *)
Definition ExecutePatchTessellationPipeline (GraphBuilder : FRDGBuilder)
    (Settings : FGPUTessellationSettings) (LocalToWorld : FMatrix)
    (CameraPosition : FVector) (ViewFrustum : option FConvexVolume)
    (PatchCountX PatchCountY : Z)
    (OutPatchBuffers : FGPUTessellationPatchBuffers)
  : option (FGPUTessellationPatchBuffers * PatchLoopState) :=
  if negb ((0 <? PatchCountX) && (0 <? PatchCountY)) then None
  else
    Info ← CalculatePatchInfo Settings LocalToWorld CameraPosition
             ViewFrustum PatchCountX PatchCountY [];
    Info ← ComputePatchEdgeTransitions PatchCountX PatchCountY Info;
    let TotalPatches := Int32.mul PatchCountX PatchCountY in
    Bufs ← TArray.SetNum Buffers_Empty (PatchBuffers OutPatchBuffers) TotalPatches;
    St ← GeneratePatches Settings Info TotalPatches
           (mkLoopState GraphBuilder Bufs 0 0 0);
    Some (mkPatchBuffers (LoopBuffers St) Info PatchCountX PatchCountY, St).

(** *** Rendering of the patches (FGPUTessellationSceneProxy) *)

(** [InitializePatchVertexFactories]: a factory exists for a patch
    exactly when its buffer set is valid; the flag is [IsInitialized()]. *)
Definition InitializePatchVertexFactories
    (Buffers : list FGPUTessellationBuffers) : list (option bool) :=
  map (fun B => if Buffers_IsValid B then Some true else None) Buffers.

(** The patch loop of [RenderPatches] for one view: the indices of the
    patches for which a mesh batch is submitted.  [GroupValid] is
    [GPUPatchBuffers.IsValid()] and [TotalPatches] is
    [GPUPatchBuffers.GetTotalPatchCount()], both declared in the header
    that is not among the sources. *)
Definition RenderPatches (GroupValid : bool) (TotalPatches : Z)
    (GPUPatchBuffers : FGPUTessellationPatchBuffers)
    (PatchVertexFactories : list (option bool)) : option (list Z) :=
  if negb GroupValid then Some []
  else
    for_range TotalPatches (fun PatchIndex Drawn =>
      Info ← TArray.get (PatchInfo GPUPatchBuffers) PatchIndex;
      if negb (bVisible Info) then Some Drawn
      else
        PatchBuffer ← TArray.get (PatchBuffers GPUPatchBuffers) PatchIndex;
        if negb (Buffers_IsValid PatchBuffer) then Some Drawn
        else
          match (if TArray.IsValidIndex PatchVertexFactories PatchIndex
                 then default None (PatchVertexFactories !! Z.to_nat PatchIndex)
                 else None) with
          | None => Some Drawn
          | Some Initialized =>
              if negb Initialized then Some Drawn
              else Some (Drawn ++ [PatchIndex])
          end) [].

End MeshBuilder.

(* ================================================================== *)
(** ** The component (UGPUTessellationComponent) *)

Section Component.

Context `{Geometry : EngineGeometry}.

Record UGPUTessellationComponent : Type := mkComponent {
  TessellationSettings : FGPUTessellationSettings;
  bAutoUpdate : bool;
  CurrentLODLevel : float;
  LastAppliedTessFactor : Z;
  LastCameraPosition : FVector;
  CurrentResolution : FIntPoint;
  LastPatchCountX : Z;
  LastPatchCountY : Z;
  (** set by [MarkRenderStateDirty] *)
  bRenderStateDirty : bool;
  (** camera positions handed to the scene proxy by
      [SendRenderDynamicData_Concurrent], latest first *)
  DynamicDataSent : list FVector
}.

(** What the engine provides to one tick of the component. *)
Record FrameEnvironment : Type := mkEnvironment {
  (** [GetWorld() != nullptr] *)
  HasWorld : bool;
  (** the view location of the first player controller, if there is one *)
  PlayerViewPoint : option FVector;
  (** the view location of the active editor viewport, if there is one *)
  EditorViewLocation : option FVector;
  ComponentTransform : FMatrix;
  ComponentLocation : FVector;
  ComponentScale : FVector;
  HasSceneProxy : bool
}.

(** [UGPUTessellationComponent::MarkRenderStateDirty]. *)
Definition MarkRenderStateDirty (C : UGPUTessellationComponent)
  : UGPUTessellationComponent :=
  mkComponent (TessellationSettings C) (bAutoUpdate C) (CurrentLODLevel C)
    (LastAppliedTessFactor C) (LastCameraPosition C) (CurrentResolution C)
    (LastPatchCountX C) (LastPatchCountY C) true (DynamicDataSent C).

Definition SetCurrentLODLevel (C : UGPUTessellationComponent) (L : float)
  : UGPUTessellationComponent :=
  mkComponent (TessellationSettings C) (bAutoUpdate C) L
    (LastAppliedTessFactor C) (LastCameraPosition C) (CurrentResolution C)
    (LastPatchCountX C) (LastPatchCountY C) (bRenderStateDirty C)
    (DynamicDataSent C).

Definition SetLastAppliedTessFactor (C : UGPUTessellationComponent) (F : Z)
  : UGPUTessellationComponent :=
  mkComponent (TessellationSettings C) (bAutoUpdate C) (CurrentLODLevel C)
    F (LastCameraPosition C) (CurrentResolution C)
    (LastPatchCountX C) (LastPatchCountY C) (bRenderStateDirty C)
    (DynamicDataSent C).

Definition SetLastCameraPosition (C : UGPUTessellationComponent) (P : FVector)
  : UGPUTessellationComponent :=
  mkComponent (TessellationSettings C) (bAutoUpdate C) (CurrentLODLevel C)
    (LastAppliedTessFactor C) P (CurrentResolution C)
    (LastPatchCountX C) (LastPatchCountY C) (bRenderStateDirty C)
    (DynamicDataSent C).

Definition SetCurrentResolution (C : UGPUTessellationComponent) (R : FIntPoint)
  : UGPUTessellationComponent :=
  mkComponent (TessellationSettings C) (bAutoUpdate C) (CurrentLODLevel C)
    (LastAppliedTessFactor C) (LastCameraPosition C) R
    (LastPatchCountX C) (LastPatchCountY C) (bRenderStateDirty C)
    (DynamicDataSent C).

Definition SetLastPatchCount (C : UGPUTessellationComponent) (CX CY : Z)
  : UGPUTessellationComponent :=
  mkComponent (TessellationSettings C) (bAutoUpdate C) (CurrentLODLevel C)
    (LastAppliedTessFactor C) (LastCameraPosition C) (CurrentResolution C)
    CX CY (bRenderStateDirty C) (DynamicDataSent C).

(** [UGPUTessellationComponent::SendRenderDynamicData_Concurrent]. *)
Definition SendRenderDynamicData_Concurrent (Env : FrameEnvironment)
    (C : UGPUTessellationComponent) : UGPUTessellationComponent :=
  if HasSceneProxy Env then
    mkComponent (TessellationSettings C) (bAutoUpdate C) (CurrentLODLevel C)
      (LastAppliedTessFactor C) (LastCameraPosition C) (CurrentResolution C)
      (LastPatchCountX C) (LastPatchCountY C) (bRenderStateDirty C)
      (LastCameraPosition C :: DynamicDataSent C)
  else C.

(** [UGPUTessellationComponent::CalculateGridResolution]; the method is
    [const] but stores its result in the mutable [CurrentResolution]. *)
Definition CalculateGridResolution (C : UGPUTessellationComponent)
  : FIntPoint * UGPUTessellationComponent :=
  let EffectiveTessellationFactor :=
    if negb (LODMode_eqb (LODMode (TessellationSettings C)) LODMode_Disabled)
    then LastAppliedTessFactor C
    else TessellationFactor (TessellationSettings C) in
  let Resolution := Int32.mul EffectiveTessellationFactor 4 in
  let Resolution := FMath.Clamp Resolution 4 1024 in
  let Resolution := Int32.mul (FMath.DivideAndRoundUp Resolution 8) 8 in
  (mkIntPoint Resolution Resolution,
   SetCurrentResolution C (mkIntPoint Resolution Resolution)).

(** [UGPUTessellationComponent::CalculateLODFactorScaled]. *)
Definition CalculateLODFactorScaled (Settings : FGPUTessellationSettings)
    (Distance ScaledMinDistance ScaledMaxDistance : float) : Z :=
  let MinDist := ScaledMinDistance in
  let MaxDist := ScaledMaxDistance in
  let MaxDist :=
    if F32.geb MinDist MaxDist then F32.add MinDist (F32.of_int 1000)
    else MaxDist in
  let t :=
    if F32.leb Distance MinDist then F32.zero
    else if F32.geb Distance MaxDist then F32.one
    else
      let t := F32.div (F32.sub Distance MinDist) (F32.sub MaxDist MinDist) in
      F32.mul (F32.mul t t)
              (F32.sub (F32.of_int 3) (F32.mul (F32.of_int 2) t)) in
  let LerpedFactor :=
    FMath.Lerp (F32.of_int (MaxTessellationFactor Settings))
               (F32.of_int (MinTessellationFactor Settings)) t in
  FMath.Clamp (FMath.RoundToInt LerpedFactor) 1 256.

(** [UGPUTessellationComponent::CalculateDistanceToCamera]. *)
Definition CalculateDistanceToCamera (Env : FrameEnvironment)
    (C : UGPUTessellationComponent) (CameraPos : FVector) : float :=
  let Settings := TessellationSettings C in
  if negb (bUseDistanceToBounds Settings)
  then Dist (ComponentLocation Env) CameraPos
  else
    let LocalCameraPos :=
      InverseTransformPosition (ComponentTransform Env) CameraPos in
    let HalfSizeX := F32.mul (PlaneSizeX Settings) F32.half in
    let HalfSizeZ := F32.mul (PlaneSizeY Settings) F32.half in
    let ClampedX := FMath.ClampF (VX LocalCameraPos) (SFopp HalfSizeX) HalfSizeX in
    let ClampedZ := FMath.ClampF (VZ LocalCameraPos) (SFopp HalfSizeZ) HalfSizeZ in
    let ClampedY := F32.zero in
    let ClosestPointWorld :=
      TransformPosition (ComponentTransform Env)
        (MakeVector ClampedX ClampedY ClampedZ) in
    Dist ClosestPointWorld CameraPos.

(** [FMath::Max3(Abs(Scale.X), Abs(Scale.Y), Abs(Scale.Z))]. *)
Definition MaxScaleOf (Env : FrameEnvironment) : float :=
  FMath.Max3F (F32.abs (VX (ComponentScale Env)))
              (F32.abs (VY (ComponentScale Env)))
              (F32.abs (VZ (ComponentScale Env))).

(** The camera search of [UpdateDistanceBasedLOD] and [UpdateDiscreteLOD]:
    no world, no camera; otherwise the player's view point, else the
    editor viewport. *)
Definition FindCamera (Env : FrameEnvironment) : option FVector :=
  if negb (HasWorld Env) then None
  else
    match PlayerViewPoint Env with
    | Some ViewLocation => Some ViewLocation
    | None => EditorViewLocation Env
    end.

(** [UGPUTessellationComponent::UpdateDistanceBasedLOD]. *)
Definition UpdateDistanceBasedLOD (DeltaTime : float) (Env : FrameEnvironment)
    (C : UGPUTessellationComponent) : UGPUTessellationComponent :=
  match FindCamera Env with
  | None => C
  | Some CameraPos =>
      let Settings := TessellationSettings C in
      let Distance := CalculateDistanceToCamera Env C CameraPos in
      let MaxScale := MaxScaleOf Env in
      let ScaledMinDistance := F32.mul (MinTessellationDistance Settings) MaxScale in
      let ScaledMaxDistance := F32.mul (MaxTessellationDistance Settings) MaxScale in
      let C := SetLastCameraPosition C CameraPos in
      let TargetTessFactor :=
        CalculateLODFactorScaled Settings Distance ScaledMinDistance ScaledMaxDistance in
      let C :=
        if F32.gtb (LODTransitionSpeed Settings) F32.zero
        then SetCurrentLODLevel C
               (FMath.FInterpTo (CurrentLODLevel C) (F32.of_int TargetTessFactor)
                  DeltaTime (LODTransitionSpeed Settings))
        else SetCurrentLODLevel C (F32.of_int TargetTessFactor) in
      let NewTessFactor := FMath.RoundToInt (CurrentLODLevel C) in
      if LODHysteresis Settings
         <? FMath.Abs (Int32.sub NewTessFactor (LastAppliedTessFactor C))
      then MarkRenderStateDirty (SetLastAppliedTessFactor C NewTessFactor)
      else C
  end.

(** The smoothed level that [UpdateDistanceBasedLOD] stores, rounds and
    tests, for the camera it found. *)
Definition SmoothedLevel (DeltaTime : float) (Env : FrameEnvironment)
    (C : UGPUTessellationComponent) (CameraPos : FVector) : float :=
  let Settings := TessellationSettings C in
  let TargetTessFactor :=
    CalculateLODFactorScaled Settings
      (CalculateDistanceToCamera Env C CameraPos)
      (F32.mul (MinTessellationDistance Settings) (MaxScaleOf Env))
      (F32.mul (MaxTessellationDistance Settings) (MaxScaleOf Env)) in
  if F32.gtb (LODTransitionSpeed Settings) F32.zero
  then FMath.FInterpTo (CurrentLODLevel C) (F32.of_int TargetTessFactor)
         DeltaTime (LODTransitionSpeed Settings)
  else F32.of_int TargetTessFactor.



(** [UGPUTessellationComponent::UpdateDensityBasedLOD]. *)
Definition UpdateDensityBasedLOD (DeltaTime : float) (Env : FrameEnvironment)
    (C : UGPUTessellationComponent) : UGPUTessellationComponent :=
  UpdateDistanceBasedLOD DeltaTime Env C.

(** The threshold loop of [UpdateDiscreteLOD]:
    [for (i = 0; i < Distances.Num() && i < Levels.Num(); ++i)
       if (ScaledDistance > Distances[i])
         { if (i + 1 < Levels.Num()) Target = Levels[i + 1]; }
       else { Target = Levels[i]; break; }]
    [Distances] is the part of the array not yet visited, [i] its index. *)
Fixpoint FindDiscreteLevel (ScaledDistance : float) (Distances : list float)
    (Levels : list EGPUTessellationPatchLevel) (i : nat) (Target : Z) : Z :=
  match Distances with
  | [] => Target
  | d :: rest =>
      match Levels !! i with
      | None => Target
      | Some Level =>
          if F32.gtb ScaledDistance d then
            FindDiscreteLevel ScaledDistance rest Levels (S i)
              (default Target (Levels !! S i))
          else Level
      end
  end.

(** The target factor of [UpdateDiscreteLOD] for a scaled distance. *)
Definition DiscreteTargetTessFactor (Settings : FGPUTessellationSettings)
    (ScaledDistance : float) : Z :=
  let TargetTessFactor :=
    match DiscreteLODLevels Settings with
    | [] => 4
    | Level0 :: _ =>
        FindDiscreteLevel ScaledDistance (DiscreteLODDistances Settings)
          (DiscreteLODLevels Settings) 0 Level0
    end in
  match TargetTessFactor with
  | 0 => 4
  | 1 => 8
  | 2 => 16
  | 3 => 32
  | 4 => 64
  | 5 => 128
  | _ => 16
  end.

(** [UGPUTessellationComponent::UpdateDiscreteLOD]. *)
Definition UpdateDiscreteLOD (DeltaTime : float) (Env : FrameEnvironment)
    (C : UGPUTessellationComponent) : UGPUTessellationComponent :=
  match FindCamera Env with
  | None => C
  | Some CameraPos =>
      let Settings := TessellationSettings C in
      let Distance := CalculateDistanceToCamera Env C CameraPos in
      let MaxScale := MaxScaleOf Env in
      let ScaledDistance := F32.div Distance MaxScale in
      let TargetTessFactor := DiscreteTargetTessFactor Settings ScaledDistance in
      let Difference :=
        FMath.Abs (Int32.sub TargetTessFactor (LastAppliedTessFactor C)) in
      if LODHysteresis Settings <=? Difference
      then MarkRenderStateDirty
             (SetCurrentLODLevel (SetLastAppliedTessFactor C TargetTessFactor)
                (F32.of_int TargetTessFactor))
      else C
  end.

(** [UGPUTessellationComponent::UpdatePatchBasedLOD]. *)
Definition UpdatePatchBasedLOD (DeltaTime : float) (Env : FrameEnvironment)
    (C : UGPUTessellationComponent) : UGPUTessellationComponent :=
  let Camera :=
    match (if HasWorld Env then PlayerViewPoint Env else None) with
    | Some ViewLocation => Some ViewLocation
    | None => EditorViewLocation Env
    end in
  match Camera with
  | None => C
  | Some CameraPos =>
      let Settings := TessellationSettings C in
      let CameraMovement := Dist CameraPos (LastCameraPosition C) in
      let UpdateThreshold := F32.of_int 100 in
      let ScaledThreshold := F32.mul UpdateThreshold (MaxScaleOf Env) in
      if negb (LastPatchCountX C =? PatchCountX Settings)
         || negb (LastPatchCountY C =? PatchCountY Settings)
         || F32.gtb CameraMovement ScaledThreshold
      then
        let C := SetLastPatchCount C (PatchCountX Settings) (PatchCountY Settings) in
        let C := SetLastCameraPosition C CameraPos in
        SendRenderDynamicData_Concurrent Env C
      else C
  end.

(** [UGPUTessellationComponent::TickComponent].  The first component of
    the state is the function-local [static bool bInitialized]. *)
Definition TickComponent (DeltaTime : float) (Env : FrameEnvironment)
    (St : bool * UGPUTessellationComponent) : bool * UGPUTessellationComponent :=
  let '(bInitialized, C) := St in
  if negb (bAutoUpdate C) then (bInitialized, C)
  else
    match LODMode (TessellationSettings C) with
    | LODMode_DistanceBased =>
        let C :=
          if negb bInitialized then
            SetLastAppliedTessFactor
              (SetCurrentLODLevel C
                 (F32.of_int (MaxTessellationFactor (TessellationSettings C))))
              (MaxTessellationFactor (TessellationSettings C))
          else C in
        (true, UpdateDistanceBasedLOD DeltaTime Env C)
    | LODMode_DistanceBasedDiscrete =>
        (bInitialized, UpdateDiscreteLOD DeltaTime Env C)
    | LODMode_DistanceBasedPatches =>
        (bInitialized, UpdatePatchBasedLOD DeltaTime Env C)
    | LODMode_DensityTexture =>
        (bInitialized, UpdateDensityBasedLOD DeltaTime Env C)
    | LODMode_Disabled => (bInitialized, C)
    end.

(** A run of the component: one tick per frame. *)
Definition TickFrames (Frames : list (float * FrameEnvironment))
    (St : bool * UGPUTessellationComponent) : bool * UGPUTessellationComponent :=
  foldl (fun St F => TickComponent (fst F) (snd F) St) St Frames.

(** The settings the scene proxy generates the mesh with: a private copy
    whose factor is [LastAppliedTessFactor] when a LOD mode is active. *)
Definition SceneProxy_EffectiveSettings (C : UGPUTessellationComponent)
  : FGPUTessellationSettings :=
  let Settings := TessellationSettings C in
  if negb (LODMode_eqb (LODMode Settings) LODMode_Disabled)
  then WithTessellationFactor Settings (LastAppliedTessFactor C)
  else Settings.

End Component.

(* ================================================================== *)
(** ** A concrete geometry

    Vectors of three floats, transforms that are translations, boxes given
    by two corners and the Euclidean distance computed in single precision.
    It instantiates the engine interface in the examples. *)

Definition Vec3 : Type := (float * float * float)%type.

Definition Vec3_add (a b : Vec3) : Vec3 :=
  let '(ax, ay, az) := a in
  let '(bx, b_y, bz) := b in
  (F32.add ax bx, F32.add ay b_y, F32.add az bz).

Definition Vec3_sub (a b : Vec3) : Vec3 :=
  let '(ax, ay, az) := a in
  let '(bx, b_y, bz) := b in
  (F32.sub ax bx, F32.sub ay b_y, F32.sub az bz).

Definition Vec3_dist (a b : Vec3) : float :=
  let '(dx, dy, dz) := Vec3_sub a b in
  F32.sqrt (F32.add (F32.add (F32.mul dx dx) (F32.mul dy dy)) (F32.mul dz dz)).

Definition Vec3_min (a b : Vec3) : Vec3 :=
  let '(ax, ay, az) := a in
  let '(bx, b_y, bz) := b in
  (FMath.MinF ax bx, FMath.MinF ay b_y, FMath.MinF az bz).

Definition Vec3_max (a b : Vec3) : Vec3 :=
  let '(ax, ay, az) := a in
  let '(bx, b_y, bz) := b in
  (FMath.MaxF ax bx, FMath.MaxF ay b_y, FMath.MaxF az bz).

Definition Vec3_zero : Vec3 := (F32.zero, F32.zero, F32.zero).

Definition Box3_of_points (Points : list Vec3) : Vec3 * Vec3 :=
  match Points with
  | [] => (Vec3_zero, Vec3_zero)
  | p :: rest => (foldl Vec3_min p rest, foldl Vec3_max p rest)
  end.

Definition Box3_extent (B : Vec3 * Vec3) : Vec3 :=
  let '(dx, dy, dz) := Vec3_sub (snd B) (fst B) in
  (F32.mul F32.half dx, F32.mul F32.half dy, F32.mul F32.half dz).

Definition TranslationGeometry : EngineGeometry := {|
  FVector := Vec3;
  FMatrix := Vec3;
  FBox := (Vec3 * Vec3)%type;
  MakeVector := fun x y z => (x, y, z);
  VX := fun v => fst (fst v);
  VY := fun v => snd (fst v);
  VZ := fun v => snd v;
  ZeroVector := Vec3_zero;
  VAdd := Vec3_add;
  TransformPosition := fun M v => Vec3_add v M;
  InverseTransformPosition := fun M v => Vec3_sub v M;
  BoxFromPoints := Box3_of_points;
  GetExtent := Box3_extent;
  Dist := Vec3_dist
|}.

(* ================================================================== *)
(** ** The statements of the specification, as definitions *)

(** The ordered-threshold lookup: walking the (threshold, level) pairs from
    nearest to farthest, the first threshold with [D <= threshold] selects
    its level; beyond all thresholds the last level applies.  [Last] is the
    level of the last pair walked so far. *)
Fixpoint Spec_ThresholdWalk (D : float)
    (Pairs : list (float * EGPUTessellationPatchLevel))
    (Last : EGPUTessellationPatchLevel) : EGPUTessellationPatchLevel :=
  match Pairs with
  | [] => Last
  | (Threshold, Level) :: rest =>
      if F32.leb D Threshold then Level
      else Spec_ThresholdWalk D rest Level
  end.

Definition Spec_ThresholdLookup (D : float) (Thresholds : list float)
    (Levels : list EGPUTessellationPatchLevel)
  : option EGPUTessellationPatchLevel :=
  match zip Thresholds Levels with
  | [] => None
  | (Threshold, Level) :: rest =>
      Some (Spec_ThresholdWalk D ((Threshold, Level) :: rest) Level)
  end.

(** Thresholds ordered from smallest to largest. *)
Fixpoint Ascending (Thresholds : list float) : bool :=
  match Thresholds with
  | [] => true
  | t :: rest => forallb (F32.leb t) rest && Ascending rest
  end.

(** The interpolation parameter of the continuous mode as the
    specification words it: 0 if [distance <= scaledMin], 1 if
    [distance >= scaledMax], else the smoothstep of the normalized
    distance. *)
Definition Spec_InterpolationParameter (Distance ScaledMin ScaledMax : float)
  : float :=
  if F32.leb Distance ScaledMin then F32.zero
  else if F32.geb Distance ScaledMax then F32.one
  else
    let t := F32.div (F32.sub Distance ScaledMin) (F32.sub ScaledMax ScaledMin) in
    F32.sub (F32.mul (F32.of_int 3) (F32.mul t t))
            (F32.mul (F32.of_int 2) (F32.mul (F32.mul t t) t)).

(** The target level as the specification words it:
    [lerp(maxFactor, minFactor, t)]. *)
Definition Spec_TargetLevel (Settings : FGPUTessellationSettings)
    (Distance ScaledMin ScaledMax : float) : float :=
  FMath.Lerp (F32.of_int (MaxTessellationFactor Settings))
             (F32.of_int (MinTessellationFactor Settings))
             (Spec_InterpolationParameter Distance ScaledMin ScaledMax).

(** The collapse factor as the specification words it:
    [max(1, mySegments / neighborSegments)] clamped to [1, 64] toward a
    strictly coarser neighbour, 1 otherwise; the segments of a patch along
    an edge are its resolution along that edge minus one. *)
Definition Spec_CollapseFactor (MyLevel NeighborLevel MyResolution
    NeighborResolution : Z) : Z :=
  if NeighborLevel <? MyLevel
  then Z.max 1 (Z.min 64 (Z.max 1 ((MyResolution - 1) / (NeighborResolution - 1))))
  else 1.

(** The compute stages of the pipeline as the specification orders them,
    for a grid of [W] by [H] vertices over a UV window: vertex generation
    in groups of 8 by 8 covering [ceil(W/8)] by [ceil(H/8)] groups,
    displacement in groups of 64 over the vertices, normal calculation in
    groups of 64 unless the method is Disabled, index generation in groups
    of 8 by 8 over the [(W-1)] by [(H-1)] cells with the edge-collapse
    factors. *)
Definition Spec_ComputeStages (Method : EGPUTessellationNormalMethod)
    (Resolution : FIntPoint) (Offset Scale : FVector2f) (Factors : FIntVector4)
  : list RDGPass :=
  let W := PX Resolution in
  let H := PY Resolution in
  [Pass_VertexGeneration Resolution Offset Scale ((W + 7) / 8) ((H + 7) / 8);
   Pass_Displacement ((W * H + 63) / 64)]
  ++ match Method with
     | NormalMethod_Disabled => []
     | _ => [Pass_NormalCalculation ((W * H + 63) / 64)]
     end
  ++ [Pass_IndexGeneration Resolution Factors
        ((W - 1 + 7) / 8) ((H - 1 + 7) / 8)].

(** The tessellation factors a patch level stands for. *)
Definition IsPatchTessellation (z : Z) : Prop :=
  z = 4 \/ z = 8 \/ z = 16 \/ z = 32 \/ z = 64 \/ z = 128.

(** The integers from [lo] to [hi]. *)
Definition ZRange (lo hi : Z) : list Z :=
  map (fun k => lo + Z.of_nat k) (seq 0 (Z.to_nat (hi - lo + 1))).

(** The position of patch [(X, Y)] in a row-major grid of [CountX] columns. *)
Definition GridIndex (CountX X Y : Z) : Z := Y * CountX + X.

(** The invariant of a row-major double loop over the grid: the array has
    one element per patch, [Inv] holds of it, and every patch before
    [(X, Y)] has an element for which [Done] holds. *)
Definition DoneBefore {A : Type} (CountX CountY : Z) (Inv : list A -> Prop)
    (Done : Z -> Z -> A -> Prop) (X Y : Z) (arr : list A) : Prop :=
  TArray.Num arr = CountX * CountY /\ Inv arr /\
  forall x y, 0 <= x < CountX -> 0 <= y < CountY ->
    (y < Y \/ (y = Y /\ x < X)) ->
    exists a, arr !! Z.to_nat (GridIndex CountX x y) = Some a /\ Done x y a.

Section PatchGridStatements.

Context `{Geometry : EngineGeometry}.

(** The neighbour of a patch at grid position [(X, Y)], if that position
    is inside the grid. *)
Definition GridNeighbor (CountX CountY : Z)
    (Info : list FGPUTessellationPatchInfo) (X Y : Z)
  : option FGPUTessellationPatchInfo :=
  if (X <? 0) || (CountX <=? X) || (Y <? 0) || (CountY <=? Y) then None
  else Info !! Z.to_nat (GridIndex CountX X Y).

(** The four factors of patch [P] at [(X, Y)]: west, east, south, north. *)
Definition EdgeFactorsOf (CountX CountY : Z)
    (Info : list FGPUTessellationPatchInfo) (X Y : Z)
    (P : FGPUTessellationPatchInfo) : FIntVector4 :=
  mkIntVector4
    (ComputeFactor P (GridNeighbor CountX CountY Info (X - 1) Y) true)
    (ComputeFactor P (GridNeighbor CountX CountY Info (X + 1) Y) true)
    (ComputeFactor P (GridNeighbor CountX CountY Info X (Y - 1)) false)
    (ComputeFactor P (GridNeighbor CountX CountY Info X (Y + 1)) false).

(** Every element of [arr] is the element of [Info] at the same index,
    up to its edge-collapse factors. *)
Definition SameUpToEdgeFactors (Info arr : list FGPUTessellationPatchInfo)
  : Prop :=
  forall i P, Info !! i = Some P ->
    exists F, arr !! i = Some (SetEdgeCollapseFactors P F).

(** A patch whose grid has at least 2 by 2 vertices (and 32-bit
    resolutions). *)
Definition HasValidResolution (P : FGPUTessellationPatchInfo) : bool :=
  (2 <=? ResolutionX P) && (ResolutionX P <=? Int32.MAX)
  && (2 <=? ResolutionY P) && (ResolutionY P <=? Int32.MAX).

(** The buffer set the generation loop leaves for one patch: an empty
    set for a culled patch or a patch without a positive level, else what
    [GenerateSinglePatch] stores. *)
Definition PatchOutcome (Settings : FGPUTessellationSettings)
    (P : FGPUTessellationPatchInfo) : FGPUTessellationBuffers :=
  if negb (bVisible P) then Buffers_Empty
  else if TessellationLevel P <=? 0 then Buffers_Empty
  else snd (GenerateSinglePatch [] Settings P Buffers_Empty).

(** The passes the generation loop records for one patch: none for a
    culled patch or a patch without a positive level, else those of
    [GenerateSinglePatch]. *)
Definition PatchPasses (Settings : FGPUTessellationSettings)
    (P : FGPUTessellationPatchInfo) : list RDGPass :=
  if negb (bVisible P) then []
  else if TessellationLevel P <=? 0 then []
  else fst (GenerateSinglePatch [] Settings P Buffers_Empty).

(** The UV window of a patch within the ranges of the specification:
    every component of the offset in [0, 1], every component of the size
    in (0, 1]. *)
Definition Spec_UVWindowInRange (P : FGPUTessellationPatchInfo) : bool :=
  F32.leb F32.zero (V2X (PatchOffset P)) && F32.leb (V2X (PatchOffset P)) F32.one
  && F32.leb F32.zero (V2Y (PatchOffset P)) && F32.leb (V2Y (PatchOffset P)) F32.one
  && F32.ltb F32.zero (V2X (PatchSize P)) && F32.leb (V2X (PatchSize P)) F32.one
  && F32.ltb F32.zero (V2Y (PatchSize P)) && F32.leb (V2Y (PatchSize P)) F32.one.

(** Every component of the UV window is a number. *)
Definition UVWindowIsNumber (P : FGPUTessellationPatchInfo) : bool :=
  negb (F32.is_nan (V2X (PatchOffset P))) && negb (F32.is_nan (V2Y (PatchOffset P)))
  && negb (F32.is_nan (V2X (PatchSize P))) && negb (F32.is_nan (V2Y (PatchSize P))).

(** A patch that must not be generated: a level that is not positive, or
    a UV window of numbers that is out of range. *)
Definition PatchIsInvalid (P : FGPUTessellationPatchInfo) : Prop :=
  TessellationLevel P <= 0
  \/ (Spec_UVWindowInRange P = false /\ UVWindowIsNumber P = true).

(** A patch to generate: visible, with a positive level and a UV window in
    range. *)
Definition PatchIsSound (P : FGPUTessellationPatchInfo) : Prop :=
  bVisible P = true /\ 0 < TessellationLevel P /\ Spec_UVWindowInRange P = true.

End PatchGridStatements.

(** *** Small integers held in floats *)

(** Structural equality of floats. *)
Definition float_same (x y : float) : bool :=
  match x, y with
  | S754_zero a, S754_zero b => Bool.eqb a b
  | S754_infinity a, S754_infinity b => Bool.eqb a b
  | S754_nan, S754_nan => true
  | S754_finite s m e, S754_finite s' m' e' =>
      Bool.eqb s s' && (Zpos m =? Zpos m') && (e =? e')
  | _, _ => false
  end.

(** [f] is the integer [n], held with the exponent [e]. *)
Definition HoldsInt (n e : Z) (f : float) : bool :=
  match f with
  | S754_finite s m e' => (e' =? e) && (cond_Zopp s (Zpos m) =? n * 2 ^ (- e))
  | _ => false
  end.

(** The exponent with which [(float)n] is held. *)
Definition IntExponent (n : Z) : Z :=
  match F32.of_int n with
  | S754_finite _ _ e => e
  | _ => 0
  end.

(** [Settings] with another range of factors for the continuous mode. *)
Definition WithFactorRange (S : FGPUTessellationSettings) (MaxF MinF : Z)
  : FGPUTessellationSettings :=
  mkSettings (TessellationFactor S) (PlaneSizeX S) (PlaneSizeY S)
    (DisplacementIntensity S) (DisplacementOffset S) (LODMode S)
    (bUseDistanceToBounds S) (DiscreteLODLevels S) (DiscreteLODDistances S)
    (PatchCountX S) (PatchCountY S) (PatchLevels S) (PatchDistances S)
    (bEnablePatchCulling S) MaxF MinF
    (MinTessellationDistance S) (MaxTessellationDistance S)
    (LODTransitionSpeed S) (LODHysteresis S) (NormalCalculationMethod S)
    (UVOffset S) (UVScale S).

(** The factory settings of [FGPUTessellationSettings]. *)
Definition DefaultSettings : FGPUTessellationSettings :=
  mkSettings 16 (F32.of_int 1000) (F32.of_int 1000) (F32.of_int 100) F32.zero
    LODMode_Disabled true
    [Patch_64; Patch_32; Patch_16; Patch_8]
    [F32.of_int 2000; F32.of_int 5000; F32.of_int 10000; F32.of_int 20000]
    4 4
    [Patch_64; Patch_32; Patch_16; Patch_8; Patch_4]
    [F32.of_int 2000; F32.of_int 5000; F32.of_int 10000; F32.of_int 20000;
     F32.of_int 40000]
    true 64 8 (F32.of_int 1000) (F32.of_int 50000) (F32.of_int 2) 2
    NormalMethod_FiniteDifference
    (mkVector2f F32.zero F32.zero) (mkVector2f F32.one F32.one).

(** The settings of the patch scenario: a grid of 2 by 2 patches with
    [PatchDistances = {2000, 5000}] and [PatchLevels = {64, 16}]. *)
Definition PatchScenarioSettings : FGPUTessellationSettings :=
  mkSettings 16 (F32.of_int 1000) (F32.of_int 1000) (F32.of_int 100) F32.zero
    LODMode_DistanceBasedPatches true
    [Patch_64; Patch_32; Patch_16; Patch_8]
    [F32.of_int 2000; F32.of_int 5000; F32.of_int 10000; F32.of_int 20000]
    2 2
    [Patch_64; Patch_16]
    [F32.of_int 2000; F32.of_int 5000]
    true 64 8 (F32.of_int 1000) (F32.of_int 50000) (F32.of_int 2) 2
    NormalMethod_FiniteDifference
    (mkVector2f F32.zero F32.zero) (mkVector2f F32.one F32.one).

(** A plane of 8000 by 1000 cut into 2 by 1 patches, with the same tables;
    the patch centres are 4000 apart. *)
Definition StripSettings : FGPUTessellationSettings :=
  mkSettings 16 (F32.of_int 8000) (F32.of_int 1000) (F32.of_int 100) F32.zero
    LODMode_DistanceBasedPatches true
    [Patch_64; Patch_32; Patch_16; Patch_8]
    [F32.of_int 2000; F32.of_int 5000; F32.of_int 10000; F32.of_int 20000]
    2 1
    [Patch_64; Patch_16]
    [F32.of_int 2000; F32.of_int 5000]
    true 64 8 (F32.of_int 1000) (F32.of_int 50000) (F32.of_int 2) 2
    NormalMethod_FiniteDifference
    (mkVector2f F32.zero F32.zero) (mkVector2f F32.one F32.one).

(** A default-constructed patch description in the concrete geometry. *)
Definition ExampleDefaultPatch : @FGPUTessellationPatchInfo TranslationGeometry :=
  @mkPatchInfo TranslationGeometry
    (mkVector2f F32.zero F32.zero) (mkVector2f F32.zero F32.zero) 0 0
    Vec3_zero (Vec3_zero, Vec3_zero) 0 0 0 true (mkIntVector4 1 1 1 1).

(** The camera stands 1000 above the centre of the first patch of the
    strip. *)
Definition StripCamera : Vec3 :=
  (F32.of_int (-2000), F32.zero, F32.of_int 1050).

(** The patch descriptions [CalculatePatchInfo] computes for the strip. *)
Definition StripPatchInfo : list (@FGPUTessellationPatchInfo TranslationGeometry) :=
  default []
    (@CalculatePatchInfo TranslationGeometry ExampleDefaultPatch StripSettings
       Vec3_zero StripCamera None 2 1 []).




(** A component with the factory settings, standing at the origin with
    unit scale, the camera at its pivot; its level is the initial 16. *)
Definition ExampleEnvironment : @FrameEnvironment TranslationGeometry :=
  @mkEnvironment TranslationGeometry true (Some Vec3_zero) None
    Vec3_zero Vec3_zero (F32.one, F32.one, F32.one) false.

Definition ExampleComponent : @UGPUTessellationComponent TranslationGeometry :=
  @mkComponent TranslationGeometry DefaultSettings true (F32.of_int 16) 16
    Vec3_zero (mkIntPoint 32 32) 1 1 false [].

(** The same component with [LODTransitionSpeed = 0]. *)
Definition SnapComponent : @UGPUTessellationComponent TranslationGeometry :=
  @mkComponent TranslationGeometry
    (mkSettings 16 (F32.of_int 1000) (F32.of_int 1000) (F32.of_int 100) F32.zero
       LODMode_DistanceBased true
       [Patch_64; Patch_32; Patch_16; Patch_8]
       [F32.of_int 2000; F32.of_int 5000; F32.of_int 10000; F32.of_int 20000]
       4 4
       [Patch_64; Patch_32; Patch_16; Patch_8; Patch_4]
       [F32.of_int 2000; F32.of_int 5000; F32.of_int 10000; F32.of_int 20000;
        F32.of_int 40000]
       true 64 8 (F32.of_int 1000) (F32.of_int 50000) F32.zero 2
       NormalMethod_FiniteDifference
       (mkVector2f F32.zero F32.zero) (mkVector2f F32.one F32.one))
    true (F32.of_int 16) 16 Vec3_zero (mkIntPoint 32 32) 1 1 false [].

(** A frame of a quarter of a second. *)
Definition QuarterSecond : float := F32.lit 1 (-2).

(** A component whose applied level 63 is within the threshold of the
    level 64 that the camera at its pivot calls for. *)
Definition SettledComponent : @UGPUTessellationComponent TranslationGeometry :=
  @mkComponent TranslationGeometry DefaultSettings true (F32.of_int 64) 63
    Vec3_zero (mkIntPoint 32 32) 1 1 false [].

(** A strip of two patches: a sound one at level 64 and a damaged one with
    a level of 0. *)
Definition SoundPatch : @FGPUTessellationPatchInfo TranslationGeometry :=
  @mkPatchInfo TranslationGeometry
    (mkVector2f F32.zero F32.zero) (mkVector2f F32.half F32.one) 0 0
    (F32.of_int (-2000), F32.zero, F32.of_int 50) (Vec3_zero, Vec3_zero)
    64 257 257 true (mkIntVector4 1 1 1 1).

Definition BrokenPatch : @FGPUTessellationPatchInfo TranslationGeometry :=
  @mkPatchInfo TranslationGeometry
    (mkVector2f F32.half F32.zero) (mkVector2f F32.half F32.one) 1 0
    (F32.of_int 2000, F32.zero, F32.of_int 50) (Vec3_zero, Vec3_zero)
    0 0 0 true (mkIntVector4 1 1 1 1).

Definition BrokenStripPatchInfo
  : list (@FGPUTessellationPatchInfo TranslationGeometry) :=
  [SoundPatch; BrokenPatch].

(** A patch at level 16 whose UV offset holds a NaN. *)
Definition NaNPatch : @FGPUTessellationPatchInfo TranslationGeometry :=
  @mkPatchInfo TranslationGeometry
    (mkVector2f S754_nan F32.zero) (mkVector2f F32.half F32.one) 1 0
    (F32.of_int 2000, F32.zero, F32.of_int 50) (Vec3_zero, Vec3_zero)
    16 65 65 true (mkIntVector4 1 1 1 1).

(* ================================================================== *)
(** ** Further functions of the plugin *)

(** *** The single-mesh pipeline (FGPUTessellationMeshBuilder) *)

(** [FGPUTessellationMeshBuilder::ExecuteTessellationPipeline], the
    overload that leaves the mesh in [FGPUTessellationBuffers].  The
    [int32] factor of the settings is converted to [float] for
    [CalculateResolution].  As in [GenerateSinglePatch], the buffer
    references that the closing pass "CreateGPUBufferSRVs" stores when
    the graph executes are stored at once. *)
Definition ExecuteTessellationPipeline (GraphBuilder : FRDGBuilder)
    (Settings : FGPUTessellationSettings)
  : FRDGBuilder * FGPUTessellationBuffers :=
  let Resolution := CalculateResolution (F32.of_int (TessellationFactor Settings)) in
  let VertexCount := Int32.mul (PX Resolution) (PY Resolution) in
  let IndexCount :=
    Int32.mul (Int32.mul (Int32.sub (PX Resolution) 1)
                         (Int32.sub (PY Resolution) 1)) 6 in
  let '(GraphBuilder, (VertexBuffer, NormalBuffer, UVBuffer)) :=
    DispatchVertexGeneration GraphBuilder Settings Resolution in
  let GraphBuilder := DispatchDisplacement GraphBuilder Resolution in
  let GraphBuilder :=
    match NormalCalculationMethod Settings with
    | NormalMethod_Disabled => GraphBuilder
    | _ => DispatchNormalCalculation GraphBuilder Resolution
    end in
  let '(GraphBuilder, IndexBuffer) :=
    DispatchIndexGeneration GraphBuilder Resolution (mkIntVector4 1 1 1 1) in
  (GraphBuilder ++ [Pass_CreateGPUBufferSRVs],
   mkBuffers (Some VertexBuffer) (Some NormalBuffer) (Some UVBuffer)
     (Some IndexBuffer) VertexCount IndexCount
     (PX Resolution) (PY Resolution)).

Section ComponentQueries.

Context `{Geometry : EngineGeometry}.

(** [UGPUTessellationComponent::GetTessellationResolution]. *)
Definition GetTessellationResolution (C : UGPUTessellationComponent)
  : FIntPoint * UGPUTessellationComponent :=
  CalculateGridResolution C.

(** [UGPUTessellationComponent::GetVertexCount]. *)
Definition GetVertexCount (C : UGPUTessellationComponent)
  : Z * UGPUTessellationComponent :=
  let '(Res, C) := CalculateGridResolution C in
  (Int32.mul (PX Res) (PY Res), C).

(** [UGPUTessellationComponent::GetTriangleCount]. *)
Definition GetTriangleCount (C : UGPUTessellationComponent)
  : Z * UGPUTessellationComponent :=
  let '(Res, C) := CalculateGridResolution C in
  (Int32.mul (Int32.mul (Int32.sub (PX Res) 1) (Int32.sub (PY Res) 1)) 2, C).

End ComponentQueries.

(** The factor in effect for a component: [LastAppliedTessFactor] when a
    LOD mode is active, else the authored [TessellationFactor]. *)
Definition EffectiveTessellationFactor `{Geometry : EngineGeometry}
    (C : UGPUTessellationComponent) : Z :=
  TessellationFactor (SceneProxy_EffectiveSettings C).

(** The number of elements of an array that pass a test. *)
Definition CountIf {A : Type} (f : A -> bool) (arr : list A) : Z :=
  Z.of_nat (length (List.filter f arr)).

(** The UV window of patch column (or row) [X] of [Count], as
    [CalculatePatchInfo] computes it: the size [1.0f / Count] and the
    offset [X * size]. *)
Definition PatchUVSize (Count : Z) : float := F32.div F32.one (F32.of_int Count).

Definition PatchUVOffset (Count X : Z) : float :=
  F32.mul (F32.of_int X) (PatchUVSize Count).

Section SceneProxyPatches.

Context `{Geometry : EngineGeometry}.
Variable DefaultPatchInfo : FGPUTessellationPatchInfo.

(** The render command that the constructor of the scene proxy and
    [UpdateDynamicData_RenderThread] enqueue in patch mode: the patch
    pipeline on a fresh graph, without a view frustum
    ([ViewFrustum = nullptr]) and with the patch counts of the settings,
    followed by [InitializePatchVertexFactories]. *)
Definition SceneProxy_GeneratePatches (Settings : FGPUTessellationSettings)
    (LocalToWorld : FMatrix) (CameraPosition : FVector)
    (GPUPatchBuffers : FGPUTessellationPatchBuffers)
  : option (FGPUTessellationPatchBuffers * list (option bool) * PatchLoopState) :=
  Run ← ExecutePatchTessellationPipeline DefaultPatchInfo [] Settings
          LocalToWorld CameraPosition None
          (PatchCountX Settings) (PatchCountY Settings) GPUPatchBuffers;
  Some (fst Run, InitializePatchVertexFactories (PatchBuffers (fst Run)), snd Run).

(** The test of the patch loop of [RenderPatches] that precedes the tests
    on the vertex factory: the patch is visible and its buffer set is
    valid. *)
Definition PatchIsDrawable (GPUPatchBuffers : FGPUTessellationPatchBuffers)
    (PatchIndex : Z) : bool :=
  match PatchInfo GPUPatchBuffers !! Z.to_nat PatchIndex,
        PatchBuffers GPUPatchBuffers !! Z.to_nat PatchIndex with
  | Some Info, Some PatchBuffer => bVisible Info && Buffers_IsValid PatchBuffer
  | _, _ => false
  end.

End SceneProxyPatches.

Section SceneProxyConstructor.

Context `{Geometry : EngineGeometry}.
Variable DefaultPatchInfo : FGPUTessellationPatchInfo.

(** [bUsePatchMode], as the constructor of the scene proxy initializes it. *)
Definition SceneProxy_bUsePatchMode (Settings : FGPUTessellationSettings) : bool :=
  LODMode_eqb (LODMode Settings) LODMode_DistanceBasedPatches.

(** The mesh generation of the constructor of the scene proxy, on the
    effective settings: in patch mode the patch command fills
    [GPUPatchBuffers] and [GPUBuffers] stays as constructed; otherwise the
    single-mesh pipeline on a fresh graph fills [GPUBuffers] and
    [GPUPatchBuffers] stays as constructed.  The result is the pair of the
    two members.  A default-constructed [FGPUTessellationPatchBuffers]
    (declared in GPUTessellationMeshBuilder.h, which is not among the
    sources) holds empty arrays and zero counts. *)
Definition SceneProxy_GenerateMesh (C : UGPUTessellationComponent)
    (LocalToWorld : FMatrix) (CameraPosition : FVector)
  : option (FGPUTessellationBuffers * FGPUTessellationPatchBuffers) :=
  let Settings := TessellationSettings C in
  let EffectiveSettings := SceneProxy_EffectiveSettings C in
  if SceneProxy_bUsePatchMode Settings then
    Run ← SceneProxy_GeneratePatches DefaultPatchInfo EffectiveSettings
            LocalToWorld CameraPosition (mkPatchBuffers [] [] 0 0);
    Some (Buffers_Empty, fst (fst Run))
  else
    Some (snd (ExecuteTessellationPipeline [] EffectiveSettings),
          mkPatchBuffers [] [] 0 0).

End SceneProxyConstructor.

Section ComponentCameras.

Context `{Geometry : EngineGeometry}.

(** The camera search of [UpdatePatchBasedLOD]: the player's view point
    when there is a world with a player controller, else the editor
    viewport, with or without a world. *)
Definition FindPatchCamera (Env : FrameEnvironment) : option FVector :=
  match (if HasWorld Env then PlayerViewPoint Env else None) with
  | Some ViewLocation => Some ViewLocation
  | None => EditorViewLocation Env
  end.

(** [ScaledThreshold] of [UpdatePatchBasedLOD]: 100 units times the
    largest scale component. *)
Definition PatchUpdateThreshold (Env : FrameEnvironment) : float :=
  F32.mul (F32.of_int 100) (MaxScaleOf Env).

(** [FVector::IsZero] and [FVector::ContainsNaN] belong to the engine. *)
Variables (IsZero ContainsNaN : FVector -> bool).

(** The camera position with which the constructor of the scene proxy
    generates the first mesh.  [CameraLocation] is the location of the
    player's camera manager, if the world, the controller and the manager
    exist; [CameraPosition] starts as the zero vector. *)
Definition SceneProxy_InitialCameraPosition (CameraLocation : option FVector)
    (ComponentLocation : FVector) : FVector :=
  let CameraPosition := default ZeroVector CameraLocation in
  if IsZero CameraPosition || negb (ContainsNaN CameraPosition)
  then VAdd ComponentLocation
         (MakeVector F32.zero F32.zero (F32.of_int 2000))
  else CameraPosition.

End ComponentCameras.

(** [IsZero] and [ContainsNaN] for the concrete vectors: every component
    is a zero; some component is not a finite number. *)
Definition F32_is_zero (x : float) : bool :=
  match x with S754_zero _ => true | _ => false end.

Definition F32_is_finite (x : float) : bool :=
  match x with S754_zero _ | S754_finite _ _ _ => true | _ => false end.

Definition Vec3_IsZero (v : Vec3) : bool :=
  let '(x, y, z) := v in F32_is_zero x && F32_is_zero y && F32_is_zero z.

Definition Vec3_ContainsNaN (v : Vec3) : bool :=
  let '(x, y, z) := v in
  negb (F32_is_finite x) || negb (F32_is_finite y) || negb (F32_is_finite z).

(** *** Further examples *)

(** The whole plane as one patch at level 16. *)
Definition FullWindowPatch : @FGPUTessellationPatchInfo TranslationGeometry :=
  @mkPatchInfo TranslationGeometry
    (mkVector2f F32.zero F32.zero) (mkVector2f F32.one F32.one) 0 0
    Vec3_zero (Vec3_zero, Vec3_zero) 16 65 65 true (mkIntVector4 1 1 1 1).

(** Settings of the discrete mode with the tables of the patch scenario:
    [DiscreteLODLevels = {64, 16}], [DiscreteLODDistances = {2000, 5000}]. *)
Definition DiscreteScenarioSettings : FGPUTessellationSettings :=
  mkSettings 16 (F32.of_int 1000) (F32.of_int 1000) (F32.of_int 100) F32.zero
    LODMode_DistanceBasedDiscrete true
    [Patch_64; Patch_16]
    [F32.of_int 2000; F32.of_int 5000]
    4 4
    [Patch_64; Patch_32; Patch_16; Patch_8; Patch_4]
    [F32.of_int 2000; F32.of_int 5000; F32.of_int 10000; F32.of_int 20000;
     F32.of_int 40000]
    true 64 8 (F32.of_int 1000) (F32.of_int 50000) (F32.of_int 2) 2
    NormalMethod_FiniteDifference
    (mkVector2f F32.zero F32.zero) (mkVector2f F32.one F32.one).

Definition DiscreteComponent : @UGPUTessellationComponent TranslationGeometry :=
  @mkComponent TranslationGeometry DiscreteScenarioSettings true (F32.of_int 16) 16
    Vec3_zero (mkIntPoint 32 32) 1 1 false [].

(** A frame in which neither a player nor an editor viewport offers a
    camera. *)
Definition CameralessEnvironment : @FrameEnvironment TranslationGeometry :=
  @mkEnvironment TranslationGeometry true None None
    Vec3_zero Vec3_zero (F32.one, F32.one, F32.one) true.

(** The buffers and descriptions of the strip with its damaged patch, as
    the generation loop leaves them. *)
Definition BrokenStripBuffers : @FGPUTessellationPatchBuffers TranslationGeometry :=
  @mkPatchBuffers TranslationGeometry
    [@PatchOutcome TranslationGeometry StripSettings SoundPatch;
     @PatchOutcome TranslationGeometry StripSettings BrokenPatch]
    BrokenStripPatchInfo 2 1.

(** Levels ordered from finest to coarsest: no level stands for a larger
    tessellation factor than a level before it. *)
Fixpoint Coarsening (Levels : list EGPUTessellationPatchLevel) : bool :=
  match Levels with
  | [] => true
  | l :: rest =>
      forallb (fun l' => ConvertPatchLevelToTessellation l'
                         <=? ConvertPatchLevelToTessellation l) rest
      && Coarsening rest
  end.

(* ================================================================== *)
(** * Properties *)

(** ** Integer helpers *)

Lemma Int32_wrap_range z : Int32.InRange (Int32.wrap z).
Proof.
  unfold Int32.InRange, Int32.wrap, Int32.MIN, Int32.MAX.
  pose proof (Z.mod_pos_bound (z + 2147483648) 4294967296). lia.
Qed.

Lemma Int32_wrap_id z : Int32.InRange z -> Int32.wrap z = z.
Proof.
  unfold Int32.InRange, Int32.wrap, Int32.MIN, Int32.MAX. intros Hz.
  rewrite Z.mod_small; lia.
Qed.

Lemma Int32_wrap_small z : -2147483648 <= z <= 2147483647 -> Int32.wrap z = z.
Proof. intros Hz. apply Int32_wrap_id. exact Hz. Qed.

Lemma Int32_in_range_spec z : Int32.in_range z = true <-> Int32.InRange z.
Proof.
  unfold Int32.in_range, Int32.InRange. rewrite andb_true_iff. lia.
Qed.

Lemma FMath_Max_spec a b : FMath.Max a b = Z.max a b.
Proof. unfold FMath.Max. destruct (a <? b) eqn:E; lia. Qed.

Lemma FMath_Min_spec a b : FMath.Min a b = Z.min a b.
Proof. unfold FMath.Min. destruct (b <? a) eqn:E; lia. Qed.

Lemma FMath_Clamp_spec x lo hi : FMath.Clamp x lo hi = Z.max (Z.min x hi) lo.
Proof. unfold FMath.Clamp. now rewrite FMath_Max_spec, FMath_Min_spec. Qed.

Lemma FMath_Abs_small z :
  -2147483647 <= z <= 2147483647 -> FMath.Abs z = Z.abs z.
Proof.
  intros Hz. unfold FMath.Abs, Int32.neg.
  destruct (0 <=? z) eqn:E; [lia|].
  rewrite Int32_wrap_small; lia.
Qed.

(** Rounding up to a multiple of the divisor, for operands that stay far
    from the ends of the 32-bit range. *)
Lemma DivideAndRoundUp_small a d :
  0 <= a <= 1073741823 -> 0 < d <= 1073741823 ->
  FMath.DivideAndRoundUp a d = (a + d - 1) / d.
Proof.
  intros Ha Hd. unfold FMath.DivideAndRoundUp, Int32.div, Int32.sub, Int32.add.
  rewrite (Int32_wrap_small (a + d)) by lia.
  rewrite (Int32_wrap_small (a + d - 1)) by lia.
  rewrite Z.quot_div_nonneg by lia.
  apply Int32_wrap_small.
  assert (0 <= (a + d - 1) / d) by (apply Z.div_pos; lia).
  assert ((a + d - 1) / d <= a + d - 1) by (apply Z.div_le_upper_bound; nia).
  lia.
Qed.

Lemma FloorToInt_range F : Int32.InRange (FMath.FloorToInt F).
Proof. apply Int32_wrap_range. Qed.

Lemma RoundToInt_range F : Int32.InRange (FMath.RoundToInt F).
Proof. apply FloorToInt_range. Qed.

(** ** Resolution calculator *)

(** Brings the quotient and remainder equations of [a / b] into the
    context, for [lia]. *)
Ltac euclid a b :=
  pose proof (Z.div_mod a b ltac:(lia));
  pose proof (Z.mod_pos_bound a b ltac:(lia)).

(** The resolution as a function of the rounded factor times four. *)
Lemma CalculateResolution_spec (F : float) :
  let d := Int32.mul (FMath.RoundToInt F) 4 in
  let R := PX (CalculateResolution F) in
  9 <= R <= 1024 /\
  (d <= 1016 -> R = 8 * ((Z.max 8 d + 7) / 8) + 1) /\
  (1017 <= d -> R = 1024).
Proof.
  unfold CalculateResolution. cbn [PX].
  generalize (Int32.mul (FMath.RoundToInt F) 4). intros d. cbv zeta.
  unfold ThreadGroupSize, MaxSegments, MaxResolution.
  rewrite !FMath_Clamp_spec, FMath_Max_spec, FMath_Min_spec.
  set (D := Z.max (Z.min (Z.max 1 d) (1024 - 1)) 8).
  assert (HD : 8 <= D <= 1023) by (unfold D; lia).
  rewrite DivideAndRoundUp_small by lia.
  unfold Int32.mul, Int32.add.
  euclid (D + 8 - 1) 8.
  assert (Hq : 1 <= (D + 8 - 1) / 8 <= 128) by lia.
  rewrite (Int32_wrap_small ((D + 8 - 1) / 8 * 8)) by lia.
  set (S := Z.max (Z.min ((D + 8 - 1) / 8 * 8) (1024 - 1)) 8).
  assert (HS : 8 <= S <= 1023) by (unfold S; lia).
  rewrite (Int32_wrap_small (S + 1)) by lia.
  split; [lia|]. split.
  - intros Hd.
    assert (HDd : D = Z.max 8 d) by (unfold D; lia).
    assert (Hq' : (D + 8 - 1) / 8 <= 127) by lia.
    unfold S. rewrite <- HDd. replace (D + 7) with (D + 8 - 1) by lia. lia.
  - intros Hd.
    assert (HDd : 1017 <= D) by (unfold D; lia).
    assert (Hq' : 128 <= (D + 8 - 1) / 8) by lia.
    unfold S. lia.
Qed.

Lemma CalculateResolution_square F :
  PX (CalculateResolution F) = PY (CalculateResolution F).
Proof. unfold CalculateResolution. cbn [PX PY]. reflexivity. Qed.

Lemma CalculateResolution_bounds F :
  9 <= PX (CalculateResolution F) <= 1024.
Proof. exact (proj1 (CalculateResolution_spec F)). Qed.

Lemma In_ZRange lo hi n : lo <= n <= hi -> In n (ZRange lo hi).
Proof.
  intros Hn. unfold ZRange. apply in_map_iff. exists (Z.to_nat (n - lo)).
  split; [lia|]. apply in_seq. lia.
Qed.

Lemma forallb_ZRange (f : Z -> bool) lo hi :
  forallb f (ZRange lo hi) = true -> forall n, lo <= n <= hi -> f n = true.
Proof.
  intros H n Hn. rewrite forallb_forall in H. apply H, In_ZRange, Hn.
Qed.

(** [(float)n] followed by [RoundToInt] is the identity on the factors a
    user can author ([ClampMin = 1], [ClampMax = 512]). *)
Lemma RoundToInt_of_int_check :
  forallb (fun n => FMath.RoundToInt (F32.of_int n) =? n) (ZRange 0 512) = true.
Proof. vm_compute. reflexivity. Qed.

Lemma RoundToInt_of_int n :
  0 <= n <= 512 -> FMath.RoundToInt (F32.of_int n) = n.
Proof.
  intros Hn. apply Z.eqb_eq.
  exact (forallb_ZRange _ _ _ RoundToInt_of_int_check n Hn).
Qed.

(** The resolution for the factors a user can author. *)
Lemma CalculateResolution_authored n :
  0 <= n <= 512 ->
  (n <= 254 -> PX (CalculateResolution (F32.of_int n)) = 8 * ((Z.max 8 (4 * n) + 7) / 8) + 1) /\
  (255 <= n -> PX (CalculateResolution (F32.of_int n)) = 1024).
Proof.
  intros Hn.
  destruct (CalculateResolution_spec (F32.of_int n)) as (_ & Hl & Hh).
  cbv zeta in Hl, Hh. rewrite RoundToInt_of_int in Hl, Hh by lia.
  unfold Int32.mul in Hl, Hh. rewrite Int32_wrap_small in Hl, Hh by lia.
  replace (n * 4) with (4 * n) in Hl, Hh by lia.
  split; intros; [apply Hl | apply Hh]; lia.
Qed.

(** C1, as stated, fails: for the factor 255 the resolution is the cap
    1024, and 1023 is not a multiple of 8. *)
Lemma C1_counterexample :
  F32.leb F32.zero (F32.of_int 255) = true /\
  (PX (CalculateResolution (F32.of_int 255)) - 1) mod 8 <> 0.
Proof. split; vm_compute; [reflexivity | discriminate]. Qed.

(** Beyond the 32-bit range of the product: the rounded factor 2^29 times
    four wraps around to 0, and a factor that is not a number or is too
    large for [int32] rounds to the indefinite integer, whose product with
    four wraps around to 0 as well; the resolution is then the minimum. *)
Example CalculateResolution_wraps :
  map CalculateResolution
    [F32.of_int 536870912; F32.of_int 10000000000; S754_infinity false; S754_nan]
  = [mkIntPoint 9 9; mkIntPoint 9 9; mkIntPoint 9 9; mkIntPoint 9 9].
Proof. vm_compute. reflexivity. Qed.

(** C1 (amended): for every tessellation factor, [CalculateResolution]
    returns a square resolution between 9 and 1024.  With [Rounded] the
    factor as [RoundToInt] rounds it and [Desired] the 32-bit product of
    [Rounded] and four: the resolution minus one is a multiple of 8
    whenever [Desired] is at most 1016, and the resolution is the cap 1024
    whenever [Desired] is at least 1017.  The product is exact for
    [-2^29 <= Rounded < 2^29]; so the resolution minus one is a multiple of
    8 for [-2^29 <= Rounded <= 254], and the resolution is 1024 for
    [255 <= Rounded < 2^29].  An integer factor from 0 to 512, the range of
    the settings, is rounded to itself. *)
Theorem C1_resolution_range_and_alignment (F : float) :
  let R := CalculateResolution F in
  let Rounded := FMath.RoundToInt F in
  let Desired := Int32.mul Rounded 4 in
  PX R = PY R /\
  9 <= PX R <= 1024 /\
  (Desired <= 1016 -> (PX R - 1) mod 8 = 0) /\
  (1017 <= Desired -> PX R = 1024) /\
  (-536870912 <= Rounded <= 536870911 -> Desired = Rounded * 4) /\
  (-536870912 <= Rounded <= 254 -> (PX R - 1) mod 8 = 0) /\
  (255 <= Rounded <= 536870911 -> PX R = 1024) /\
  (forall n, 0 <= n <= 512 -> F = F32.of_int n -> Rounded = n).
Proof.
  cbv zeta.
  destruct (CalculateResolution_spec F) as (Hr & Hlow & Hhigh).
  cbv zeta in Hr, Hlow, Hhigh.
  assert (Haligned : Int32.mul (FMath.RoundToInt F) 4 <= 1016 ->
                     (PX (CalculateResolution F) - 1) mod 8 = 0).
  { intros Hd. rewrite (Hlow Hd).
    replace (8 * ((Z.max 8 (Int32.mul (FMath.RoundToInt F) 4) + 7) / 8) + 1 - 1)
      with (((Z.max 8 (Int32.mul (FMath.RoundToInt F) 4) + 7) / 8) * 8) by lia.
    apply Z.mod_mul. lia. }
  assert (Hexact : -536870912 <= FMath.RoundToInt F <= 536870911 ->
                   Int32.mul (FMath.RoundToInt F) 4 = FMath.RoundToInt F * 4).
  { intros Hn. unfold Int32.mul. apply Int32_wrap_small. lia. }
  split; [apply CalculateResolution_square|].
  split; [exact Hr|]. split; [exact Haligned|]. split; [exact Hhigh|].
  split; [exact Hexact|]. split; [|split].
  - intros Hn. apply Haligned. rewrite Hexact by lia. lia.
  - intros Hn. apply Hhigh. rewrite Hexact by lia. lia.
  - intros n Hn ->. apply RoundToInt_of_int. exact Hn.
Qed.


(** C2, as stated, fails: for the factor 16 the mesh builder's resolution
    is not (64, 64). *)
Lemma C2_counterexample :
  CalculateResolution (F32.of_int 16) <> mkIntPoint 64 64.
Proof. vm_compute. discriminate. Qed.

(** C2 (amended): for the factor 16 and a plane of 1000 by 1000 (the
    factory settings), [CalculateResolution] returns (65, 65): 64 segments,
    already a multiple of 8, plus the closing vertex; (64, 64) is what the
    component's own [CalculateGridResolution] reports for these settings. *)
Theorem C2_factor_16_resolution :
  TessellationFactor DefaultSettings = 16 /\
  PlaneSizeX DefaultSettings = F32.of_int 1000 /\
  PlaneSizeY DefaultSettings = F32.of_int 1000 /\
  CalculateResolution (F32.of_int (TessellationFactor DefaultSettings))
    = mkIntPoint 65 65 /\
  forall (Geometry : EngineGeometry) Auto Level Applied Camera Res CX CY Dirty Sent,
    fst (CalculateGridResolution
           (mkComponent DefaultSettings Auto Level Applied Camera Res CX CY
              Dirty Sent))
    = mkIntPoint 64 64.
Proof.
  repeat split; intros; vm_compute; reflexivity.
Qed.

(** ** Patch levels *)

Lemma ConvertPatchLevelToTessellation_cases Level :
  (Level = Patch_4 /\ ConvertPatchLevelToTessellation Level = 4) \/
  (Level = Patch_8 /\ ConvertPatchLevelToTessellation Level = 8) \/
  (Level = Patch_16 /\ ConvertPatchLevelToTessellation Level = 16) \/
  (Level = Patch_32 /\ ConvertPatchLevelToTessellation Level = 32) \/
  (Level = Patch_64 /\ ConvertPatchLevelToTessellation Level = 64) \/
  (Level = Patch_128 /\ ConvertPatchLevelToTessellation Level = 128) \/
  ((Level < 0 \/ 5 < Level) /\ ConvertPatchLevelToTessellation Level = 16).
Proof.
  unfold ConvertPatchLevelToTessellation, Patch_4, Patch_8, Patch_16, Patch_32,
    Patch_64, Patch_128.
  destruct Level as [|p|p]; [tauto| |right; right; right; right; right; right; lia].
  destruct p as [[[|[]|]|[|[]|]|]|[[|[]|]|[|[]|]|]|];
    first [ tauto
          | right; right; right; right; right; right; split; [lia | reflexivity] ].
Qed.

Lemma ConvertPatchLevelToTessellation_set Level :
  IsPatchTessellation (ConvertPatchLevelToTessellation Level).
Proof.
  unfold IsPatchTessellation.
  destruct (ConvertPatchLevelToTessellation_cases Level)
    as [[_ H]|[[_ H]|[[_ H]|[[_ H]|[[_ H]|[[_ H]|[_ H]]]]]]]; rewrite H; tauto.
Qed.

Lemma CalculatePatchTessellationLevel_set D Settings :
  IsPatchTessellation (CalculatePatchTessellationLevel D Settings).
Proof.
  unfold CalculatePatchTessellationLevel.
  destruct (PatchLevels Settings) as [|Level0 Levels].
  - unfold IsPatchTessellation. tauto.
  - destruct (last (PatchDistances Settings));
      apply ConvertPatchLevelToTessellation_set.
Qed.

Lemma IsPatchTessellation_pos z : IsPatchTessellation z -> 4 <= z <= 128.
Proof. unfold IsPatchTessellation. lia. Qed.

(** ** Order on floats *)

Ltac split_compares :=
  repeat match goal with
  | H : context [Pos.compare_cont Eq ?a ?b] |- _ =>
      change (Pos.compare_cont Eq a b) with (Pos.compare a b) in H
  | |- context [Pos.compare_cont Eq ?a ?b] =>
      change (Pos.compare_cont Eq a b) with (Pos.compare a b)
  end;
  repeat match goal with
  | H : context [Z.compare ?a ?b] |- _ => destruct (Z.compare_spec a b)
  | |- context [Z.compare ?a ?b] => destruct (Z.compare_spec a b)
  | H : context [Pos.compare ?a ?b] |- _ => destruct (Pos.compare_spec a b)
  | |- context [Pos.compare ?a ?b] => destruct (Pos.compare_spec a b)
  end.

Lemma F32_leb_trans a b c :
  F32.leb a b = true -> F32.leb b c = true -> F32.leb a c = true.
Proof.
  unfold F32.leb, SFleb, SFcompare.
  destruct a as [[]|[]| |[] ma ea], b as [[]|[]| |[] mb eb], c as [[]|[]| |[] mc ec];
    simpl; try reflexivity; try discriminate; intros Hab Hbc;
    split_compares; simpl in *; try reflexivity; try discriminate; lia.
Qed.

Lemma F32_leb_not_gtb a b : F32.leb a b = true -> F32.gtb a b = false.
Proof.
  unfold F32.leb, F32.gtb, SFleb, SFltb, SFcompare.
  destruct a as [[]|[]| |[] ma ea], b as [[]|[]| |[] mb eb];
    simpl; try reflexivity; try discriminate; intros Hab;
    split_compares; simpl in *; try reflexivity; try discriminate; lia.
Qed.

Lemma F32_not_leb_gtb a b :
  F32.is_nan a = false -> F32.is_nan b = false ->
  F32.leb a b = false -> F32.gtb a b = true.
Proof.
  unfold F32.leb, F32.gtb, F32.is_nan, SFleb, SFltb, SFcompare.
  destruct a as [[]|[]| |[] ma ea], b as [[]|[]| |[] mb eb];
    simpl; try reflexivity; try discriminate; intros _ _ Hab;
    split_compares; simpl in *; try reflexivity; try discriminate; lia.
Qed.

Lemma F32_leb_not_nan a b :
  F32.leb a b = true -> F32.is_nan a = false /\ F32.is_nan b = false.
Proof.
  unfold F32.leb, F32.is_nan, SFleb, SFcompare.
  destruct a as [[]|[]| |[] ma ea], b as [[]|[]| |[] mb eb];
    simpl; try discriminate; auto.
Qed.

Lemma F32_ltb_not_leb a b : F32.ltb a b = true -> F32.leb b a = false.
Proof.
  unfold F32.leb, F32.ltb, SFleb, SFltb, SFcompare.
  destruct a as [[]|[]| |[] ma ea], b as [[]|[]| |[] mb eb];
    simpl; try reflexivity; try discriminate; intros Hab;
    split_compares; simpl in *; try reflexivity; try discriminate; lia.
Qed.

Lemma F32_not_ltb_leb a b :
  F32.is_nan a = false -> F32.is_nan b = false ->
  F32.ltb a b = false -> F32.leb b a = true.
Proof.
  unfold F32.leb, F32.ltb, F32.is_nan, SFleb, SFltb, SFcompare.
  destruct a as [[]|[]| |[] ma ea], b as [[]|[]| |[] mb eb];
    simpl; try reflexivity; try discriminate; intros _ _ Hab;
    split_compares; simpl in *; try reflexivity; try discriminate; lia.
Qed.

(** ** Loops *)

Lemma for_range_invariant {St : Type} (Inv : Z -> St -> Prop) (n : Z)
    (body : Z -> St -> option St) (s : St) :
  Inv 0 s ->
  (forall i s, 0 <= i < n -> Inv i s ->
     exists s', body i s = Some s' /\ Inv (i + 1) s') ->
  exists s', for_range n body s = Some s' /\ Inv (Z.max 0 n) s'.
Proof.
  intros H0 Hstep. unfold for_range.
  assert (Hgen : forall m : nat, (m <= Z.to_nat n)%nat ->
            exists s', foldl (fun acc i => acc ≫= body (Z.of_nat i)) (Some s)
                         (seq 0 m) = Some s' /\ Inv (Z.of_nat m) s').
  { induction m as [|m IH]; intros Hm.
    - exists s. split; [reflexivity | exact H0].
    - destruct IH as (s1 & Hs1 & Hinv); [lia|].
      destruct (Hstep (Z.of_nat m) s1) as (s2 & Hs2 & Hinv2); [lia | exact Hinv |].
      exists s2. rewrite seq_S, foldl_app. simpl. rewrite Hs1. simpl.
      split; [exact Hs2|]. replace (Z.of_nat (S m)) with (Z.of_nat m + 1) by lia.
      exact Hinv2. }
  destruct (Hgen (Z.to_nat n)) as (s' & Hs' & Hinv); [lia|].
  exists s'. split; [exact Hs'|].
  replace (Z.max 0 n) with (Z.of_nat (Z.to_nat n)) by lia. exact Hinv.
Qed.

Lemma TArray_get_Some {A} (arr : list A) i x :
  TArray.get arr i = Some x <-> 0 <= i /\ arr !! Z.to_nat i = Some x.
Proof.
  unfold TArray.get, TArray.IsValidIndex, TArray.Num. split.
  - destruct (0 <=? i) eqn:E1; simpl; [|discriminate].
    destruct (i <? Z.of_nat (length arr)) eqn:E2; [|discriminate].
    intros H. split; [lia | exact H].
  - intros [Hi Hx]. pose proof (lookup_lt_Some _ _ _ Hx) as Hlt.
    destruct (0 <=? i) eqn:E1; [|lia]. simpl.
    destruct (i <? Z.of_nat (length arr)) eqn:E2; [exact Hx | lia].
Qed.

Lemma TArray_get_in_range {A} (arr : list A) i :
  0 <= i < TArray.Num arr -> exists x, TArray.get arr i = Some x.
Proof.
  intros Hi. unfold TArray.Num in Hi.
  destruct (lookup_lt_is_Some_2 arr (Z.to_nat i)) as [x Hx]; [lia|].
  exists x. apply TArray_get_Some. split; [lia | exact Hx].
Qed.

Lemma TArray_set_in_range {A} (arr : list A) i x :
  0 <= i < TArray.Num arr ->
  TArray.set arr i x = Some (<[Z.to_nat i := x]> arr).
Proof.
  intros Hi. unfold TArray.set, TArray.IsValidIndex.
  destruct (0 <=? i) eqn:E1; [|lia].
  destruct (i <? TArray.Num arr) eqn:E2; [reflexivity | lia].
Qed.

Lemma TArray_Num_insert {A} (arr : list A) i x :
  TArray.Num (<[i := x]> arr) = TArray.Num arr.
Proof. unfold TArray.Num. now rewrite length_insert. Qed.

Lemma TArray_SetNum_empty {A} (d : A) n :
  0 <= n -> TArray.SetNum d [] n = Some (replicate (Z.to_nat n) d).
Proof.
  intros Hn. unfold TArray.SetNum. destruct (n <? 0) eqn:E; [lia|].
  rewrite take_nil. simpl. now rewrite Nat.sub_0_r.
Qed.

Lemma TArray_SetNum_Num {A} (d : A) arr n arr' :
  TArray.SetNum d arr n = Some arr' -> TArray.Num arr' = n.
Proof.
  unfold TArray.SetNum, TArray.Num. destruct (n <? 0) eqn:E; [discriminate|].
  intros [= <-]. rewrite length_app, length_take, length_replicate. lia.
Qed.

Lemma TArray_SetNum_Some {A} (d : A) arr n :
  0 <= n -> exists arr', TArray.SetNum d arr n = Some arr'.
Proof.
  intros Hn. unfold TArray.SetNum. destruct (n <? 0) eqn:E; [lia|]. eauto.
Qed.

(** *** Row-major double loops over a patch grid *)

Section GridLoop.

Context {A : Type}.
Variables CountX CountY : Z.
Hypothesis CountX_pos : 0 < CountX.
Hypothesis CountY_pos : 0 < CountY.
Hypothesis Count_fits : CountX * CountY <= Int32.MAX.

Lemma GridIndex_range X Y :
  0 <= X < CountX -> 0 <= Y < CountY ->
  0 <= GridIndex CountX X Y < CountX * CountY.
Proof using CountX_pos CountY_pos Count_fits.
  unfold GridIndex. intros HX HY. nia.
Qed.

Lemma GridIndex_int32 X Y :
  0 <= X < CountX -> 0 <= Y < CountY ->
  Int32.add (Int32.mul Y CountX) X = GridIndex CountX X Y.
Proof using CountX_pos CountY_pos Count_fits.
  intros HX HY. pose proof (GridIndex_range X Y HX HY) as Hr.
  unfold GridIndex in *. unfold Int32.add, Int32.mul, Int32.MAX in *.
  rewrite (Int32_wrap_small (Y * CountX)) by nia.
  apply Int32_wrap_small. lia.
Qed.

Lemma GridIndex_mul_fits : Int32.mul CountX CountY = CountX * CountY.
Proof using CountX_pos CountY_pos Count_fits.
  unfold Int32.mul. apply Int32_wrap_small. unfold Int32.MAX in *. nia.
Qed.

Lemma GridIndex_inj X Y X' Y' :
  0 <= X < CountX -> 0 <= X' < CountX ->
  GridIndex CountX X Y = GridIndex CountX X' Y' -> X = X' /\ Y = Y'.
Proof using CountX_pos CountY_pos Count_fits.
  unfold GridIndex. intros HX HX' Heq.
  assert (Y = Y') by nia. subst. lia.
Qed.

(** The body for patch [(X, Y)] rewrites the element at its own index. *)
Variable body : Z -> Z -> list A -> option (list A).
(** What holds of the whole array between iterations. *)
Variable Inv : list A -> Prop.
(** What the iteration [(X, Y)] establishes for its element. *)
Variable Done : Z -> Z -> A -> Prop.

Hypothesis body_spec : forall X Y arr,
  0 <= X < CountX -> 0 <= Y < CountY ->
  TArray.Num arr = CountX * CountY -> Inv arr ->
  exists a,
    body X Y arr = Some (<[Z.to_nat (GridIndex CountX X Y) := a]> arr)
    /\ Inv (<[Z.to_nat (GridIndex CountX X Y) := a]> arr)
    /\ Done X Y a.

Lemma grid_row Y arr :
  0 <= Y < CountY -> DoneBefore CountX CountY Inv Done 0 Y arr ->
  exists arr', for_range CountX (fun X => body X Y) arr = Some arr'
               /\ DoneBefore CountX CountY Inv Done 0 (Y + 1) arr'.
Proof using CountX_pos CountY_pos Count_fits body_spec.
  intros HY H0.
  destruct (for_range_invariant (fun X arr => DoneBefore CountX CountY Inv Done X Y arr) CountX
              (fun X => body X Y) arr) as (arr' & Hrun & Hinv).
  - exact H0.
  - intros X arr1 HX (Hnum & Hinv & Hdone).
    destruct (body_spec X Y arr1 HX HY Hnum Hinv) as (a & Hb & Hinv' & Hd).
    eexists. split; [exact Hb|].
    pose proof (GridIndex_range X Y HX HY) as Hr.
    split; [now rewrite TArray_Num_insert|]. split; [exact Hinv'|].
    intros x y Hx Hy Hbefore.
    destruct (Z.eq_dec x X) as [->|Hne]; [destruct (Z.eq_dec y Y) as [->|Hney]|].
    + exists a. split; [|exact Hd].
      apply list_lookup_insert_eq. unfold TArray.Num in Hnum. lia.
    + destruct (Hdone X y Hx Hy) as (a' & Ha' & Hd'); [lia|].
      exists a'. split; [|exact Hd'].
      rewrite list_lookup_insert_ne; [exact Ha'|].
      intros Heq. apply Z2Nat.inj in Heq.
      * apply GridIndex_inj in Heq; lia.
      * apply GridIndex_range; lia.
      * apply GridIndex_range; lia.
    + destruct (Hdone x y Hx Hy) as (a' & Ha' & Hd'); [lia|].
      exists a'. split; [|exact Hd'].
      rewrite list_lookup_insert_ne; [exact Ha'|].
      intros Heq. apply Z2Nat.inj in Heq.
      * apply GridIndex_inj in Heq; lia.
      * apply GridIndex_range; lia.
      * apply GridIndex_range; lia.
  - exists arr'. split; [exact Hrun|].
    rewrite Z.max_r in Hinv by lia.
    destruct Hinv as (Hnum & Hinv & Hdone).
    split; [exact Hnum|]. split; [exact Hinv|].
    intros x y Hx Hy Hbefore. apply Hdone; lia.
Qed.

Lemma grid_loop arr :
  TArray.Num arr = CountX * CountY -> Inv arr ->
  exists arr',
    for_range CountY (fun Y => for_range CountX (fun X => body X Y)) arr
      = Some arr'
    /\ TArray.Num arr' = CountX * CountY /\ Inv arr'
    /\ forall X Y, 0 <= X < CountX -> 0 <= Y < CountY ->
         exists a, arr' !! Z.to_nat (GridIndex CountX X Y) = Some a
                   /\ Done X Y a.
Proof using CountX_pos CountY_pos Count_fits body_spec.
  intros Hnum Hinv.
  destruct (for_range_invariant (fun Y arr => DoneBefore CountX CountY Inv Done 0 Y arr) CountY
              (fun Y => for_range CountX (fun X => body X Y)) arr)
    as (arr' & Hrun & Hfin).
  - split; [exact Hnum|]. split; [exact Hinv|]. intros x y Hx Hy Hb. lia.
  - intros Y arr1 HY H1. apply grid_row; assumption.
  - exists arr'. split; [exact Hrun|].
    rewrite Z.max_r in Hfin by lia.
    destruct Hfin as (Hnum' & Hinv' & Hdone).
    split; [exact Hnum'|]. split; [exact Hinv'|].
    intros X Y HX HY. apply Hdone; lia.
Qed.

End GridLoop.

(** ** Patch partitioner *)

Section PatchInfoFacts.

Context `{Geometry : EngineGeometry}.
Variable DefaultPatchInfo : FGPUTessellationPatchInfo.
Variables (Settings : FGPUTessellationSettings) (LocalToWorld : FMatrix)
          (CameraPosition : FVector) (ViewFrustum : option FConvexVolume).
Variables CountX CountY : Z.
Hypothesis CountX_pos : 0 < CountX.
Hypothesis CountY_pos : 0 < CountY.
Hypothesis Count_fits : CountX * CountY <= Int32.MAX.

(** [CalculatePatchInfo] fills the whole grid: the entry of patch
    [(X, Y)] is the one its loop body computes. *)
Lemma CalculatePatchInfo_total (Out : list FGPUTessellationPatchInfo) :
  exists Info,
    CalculatePatchInfo DefaultPatchInfo Settings LocalToWorld CameraPosition
      ViewFrustum CountX CountY Out = Some Info
    /\ TArray.Num Info = CountX * CountY
    /\ forall X Y, 0 <= X < CountX -> 0 <= Y < CountY ->
         exists Old,
           Info !! Z.to_nat (GridIndex CountX X Y)
           = Some (CalculatePatchInfo_patch Settings LocalToWorld CameraPosition
                     ViewFrustum CountX CountY X Y Old).
Proof.
  unfold CalculatePatchInfo.
  rewrite (GridIndex_mul_fits CountX CountY CountX_pos CountY_pos Count_fits).
  destruct (TArray_SetNum_Some DefaultPatchInfo Out (CountX * CountY))
    as (arr & Harr); [nia|].
  rewrite Harr. simpl.
  pose proof (TArray_SetNum_Num _ _ _ _ Harr) as Hnum.
  destruct (grid_loop CountX CountY CountX_pos CountY_pos Count_fits
              (fun X Y OutPatchInfo =>
                 Patch ← TArray.get OutPatchInfo
                           (Int32.add (Int32.mul Y CountX) X);
                 TArray.set OutPatchInfo (Int32.add (Int32.mul Y CountX) X)
                   (CalculatePatchInfo_patch Settings LocalToWorld
                      CameraPosition ViewFrustum CountX CountY X Y Patch))
              (fun _ => True)
              (fun X Y a => exists Old,
                 a = CalculatePatchInfo_patch Settings LocalToWorld
                       CameraPosition ViewFrustum CountX CountY X Y Old)
              ) with (arr := arr) as (Info & Hrun & Hnum' & _ & Hdone).
  - intros X Y arr1 HX HY Hn _.
    rewrite (GridIndex_int32 CountX CountY CountX_pos CountY_pos Count_fits
               X Y HX HY).
    pose proof (GridIndex_range CountX CountY CountX_pos CountY_pos Count_fits
                  X Y HX HY) as Hr.
    destruct (TArray_get_in_range arr1 (GridIndex CountX X Y)) as (Old & HOld);
      [lia|].
    rewrite HOld. simpl. rewrite TArray_set_in_range by lia.
    eexists. split; [reflexivity|]. split; [exact I|]. exists Old. reflexivity.
  - exact Hnum.
  - exact I.
  - exists Info. split; [exact Hrun|]. split; [exact Hnum'|].
    intros X Y HX HY. destruct (Hdone X Y HX HY) as (a & Ha & Old & ->).
    exists Old. exact Ha.
Qed.

Lemma SetEdgeCollapseFactors_id (P : FGPUTessellationPatchInfo) :
  SetEdgeCollapseFactors P (EdgeCollapseFactors P) = P.
Proof. destruct P. reflexivity. Qed.

Lemma SetEdgeCollapseFactors_twice (P : FGPUTessellationPatchInfo) F G :
  SetEdgeCollapseFactors (SetEdgeCollapseFactors P F) G
  = SetEdgeCollapseFactors P G.
Proof. reflexivity. Qed.

(** [ComputeFactor] reads levels and resolutions only. *)
Lemma ComputeFactor_ignores_factors (P : FGPUTessellationPatchInfo)
    (N : option FGPUTessellationPatchInfo) F (G : FGPUTessellationPatchInfo -> FIntVector4) b :
  ComputeFactor (SetEdgeCollapseFactors P F)
    ((fun Q => SetEdgeCollapseFactors Q (G Q)) <$> N) b
  = ComputeFactor P N b.
Proof. destruct N as [Q|]; reflexivity. Qed.

Lemma SameUpToEdgeFactors_refl (Info : list FGPUTessellationPatchInfo) :
  SameUpToEdgeFactors Info Info.
Proof.
  intros i P HP. exists (EdgeCollapseFactors P).
  now rewrite SetEdgeCollapseFactors_id.
Qed.

Lemma SameUpToEdgeFactors_insert Info arr i P F :
  SameUpToEdgeFactors Info arr -> Info !! i = Some P ->
  SameUpToEdgeFactors Info (<[i := SetEdgeCollapseFactors P F]> arr).
Proof.
  intros Hs HP j Q HQ. destruct (Hs j Q HQ) as (G & HG).
  destruct (Nat.eq_dec i j) as [->|Hne].
  - exists F. rewrite list_lookup_insert_eq by (eapply lookup_lt_Some; eauto).
    congruence.
  - exists G. now rewrite list_lookup_insert_ne.
Qed.

(** What [GetPatch] returns on an array that agrees with [Info] up to
    the factors. *)
Lemma GetPatch_same Info arr NX NY :
  TArray.Num Info = CountX * CountY -> TArray.Num arr = CountX * CountY ->
  SameUpToEdgeFactors Info arr ->
  exists G,
    GetPatch CountX CountY arr NX NY
    = Some ((fun Q => SetEdgeCollapseFactors Q (G Q))
              <$> GridNeighbor CountX CountY Info NX NY).
Proof.
  intros HnI Hn Hs. unfold GetPatch, GridNeighbor.
  destruct ((NX <? 0) || (CountX <=? NX) || (NY <? 0) || (CountY <=? NY)) eqn:E.
  - exists (fun _ => mkIntVector4 1 1 1 1). reflexivity.
  - apply orb_false_iff in E as [E E4]. apply orb_false_iff in E as [E E3].
    apply orb_false_iff in E as [E1 E2].
    assert (HX : 0 <= NX < CountX) by lia.
    assert (HY : 0 <= NY < CountY) by lia.
    rewrite (GridIndex_int32 CountX CountY CountX_pos CountY_pos Count_fits
               NX NY HX HY).
    pose proof (GridIndex_range CountX CountY CountX_pos CountY_pos Count_fits
                  NX NY HX HY) as Hr.
    destruct (lookup_lt_is_Some_2 Info (Z.to_nat (GridIndex CountX NX NY)))
      as [Q HQ]; [unfold TArray.Num in HnI; lia|].
    destruct (Hs _ _ HQ) as (F & HF).
    exists (fun _ => F). rewrite HQ. simpl.
    assert (Hget : TArray.get arr (GridIndex CountX NX NY)
                   = Some (SetEdgeCollapseFactors Q F)).
    { apply TArray_get_Some. split; [lia | exact HF]. }
    rewrite Hget. reflexivity.
Qed.

Lemma AssignEdgeFactor_spec Info arr X Y NX NY b Store P F :
  0 <= X < CountX -> 0 <= Y < CountY ->
  TArray.Num Info = CountX * CountY -> TArray.Num arr = CountX * CountY ->
  SameUpToEdgeFactors Info arr ->
  arr !! Z.to_nat (GridIndex CountX X Y) = Some (SetEdgeCollapseFactors P F) ->
  AssignEdgeFactor CountX CountY (GridIndex CountX X Y) NX NY b Store arr
  = Some (<[Z.to_nat (GridIndex CountX X Y) :=
             SetEdgeCollapseFactors P
               (Store F (ComputeFactor P (GridNeighbor CountX CountY Info NX NY) b))]>
            arr).
Proof.
  intros HX HY HnI Hn Hs HP. unfold AssignEdgeFactor.
  destruct (GetPatch_same Info arr NX NY HnI Hn Hs) as (G & HG).
  rewrite HG. simpl.
  pose proof (GridIndex_range CountX CountY CountX_pos CountY_pos Count_fits
                X Y HX HY) as Hr.
  assert (Hget : TArray.get arr (GridIndex CountX X Y)
                 = Some (SetEdgeCollapseFactors P F)).
  { apply TArray_get_Some. split; [lia | exact HP]. }
  rewrite Hget. simpl. rewrite TArray_set_in_range by lia.
  rewrite ComputeFactor_ignores_factors. reflexivity.
Qed.

Lemma AssignEdgeFactor_step Info arr X Y NX NY b Store P F :
  0 <= X < CountX -> 0 <= Y < CountY ->
  TArray.Num Info = CountX * CountY -> TArray.Num arr = CountX * CountY ->
  SameUpToEdgeFactors Info arr ->
  Info !! Z.to_nat (GridIndex CountX X Y) = Some P ->
  AssignEdgeFactor CountX CountY (GridIndex CountX X Y) NX NY b Store
    (<[Z.to_nat (GridIndex CountX X Y) := SetEdgeCollapseFactors P F]> arr)
  = Some (<[Z.to_nat (GridIndex CountX X Y) :=
             SetEdgeCollapseFactors P
               (Store F (ComputeFactor P (GridNeighbor CountX CountY Info NX NY) b))]>
            arr).
Proof.
  intros HX HY HnI Hn Hs HP.
  pose proof (GridIndex_range CountX CountY CountX_pos CountY_pos Count_fits
                X Y HX HY) as Hr.
  rewrite (AssignEdgeFactor_spec Info _ X Y NX NY b Store P F HX HY HnI).
  - now rewrite list_insert_insert_eq.
  - now rewrite TArray_Num_insert.
  - apply SameUpToEdgeFactors_insert; assumption.
  - apply list_lookup_insert_eq. unfold TArray.Num in Hn. lia.
Qed.

(** [ComputePatchEdgeTransitions] rewrites the factors of every patch,
    and nothing else, from the levels and resolutions of its neighbours. *)
Lemma ComputePatchEdgeTransitions_total (Info : list FGPUTessellationPatchInfo) :
  TArray.Num Info = CountX * CountY ->
  exists Info',
    ComputePatchEdgeTransitions CountX CountY Info = Some Info'
    /\ TArray.Num Info' = CountX * CountY
    /\ forall X Y, 0 <= X < CountX -> 0 <= Y < CountY ->
         exists P,
           Info !! Z.to_nat (GridIndex CountX X Y) = Some P
           /\ Info' !! Z.to_nat (GridIndex CountX X Y)
              = Some (SetEdgeCollapseFactors P
                        (EdgeFactorsOf CountX CountY Info X Y P)).
Proof.
  intros HnI. unfold ComputePatchEdgeTransitions.
  rewrite (GridIndex_mul_fits CountX CountY CountX_pos CountY_pos Count_fits).
  destruct (CountX <=? 0) eqn:E1; [lia|].
  destruct (CountY <=? 0) eqn:E2; [lia|].
  destruct (TArray.Num Info =? CountX * CountY) eqn:E3; [|lia]. simpl.
  destruct (grid_loop CountX CountY CountX_pos CountY_pos Count_fits
              (fun X Y => ComputePatchEdgeTransitions_patch CountX CountY X Y)
              (SameUpToEdgeFactors Info)
              (fun X Y a => exists P,
                 Info !! Z.to_nat (GridIndex CountX X Y) = Some P
                 /\ a = SetEdgeCollapseFactors P
                          (EdgeFactorsOf CountX CountY Info X Y P)))
    with (arr := Info) as (Info' & Hrun & Hnum' & _ & Hdone).
  - intros X Y arr HX HY Hn Hs.
    unfold ComputePatchEdgeTransitions_patch.
    rewrite (GridIndex_int32 CountX CountY CountX_pos CountY_pos Count_fits
               X Y HX HY).
    pose proof (GridIndex_range CountX CountY CountX_pos CountY_pos Count_fits
                  X Y HX HY) as Hr.
    set (idx := GridIndex CountX X Y) in *.
    destruct (lookup_lt_is_Some_2 Info (Z.to_nat idx)) as [P HP];
      [unfold TArray.Num in HnI; lia|].
    destruct (Hs _ _ HP) as (F0 & HF0).
    assert (Hget : TArray.get arr idx = Some (SetEdgeCollapseFactors P F0)).
    { apply TArray_get_Some. split; [lia | exact HF0]. }
    assert (Hlen : (Z.to_nat idx < length arr)%nat)
      by (unfold TArray.Num in Hn; lia).
    rewrite Hget. simpl. rewrite TArray_set_in_range by lia. simpl.
    rewrite SetEdgeCollapseFactors_twice.
    unfold idx in *.
    do 3 (rewrite (AssignEdgeFactor_step Info arr X Y _ _ _ _ P _
                     HX HY HnI Hn Hs HP); simpl).
    rewrite (AssignEdgeFactor_step Info arr X Y _ _ _ _ P _
               HX HY HnI Hn Hs HP).
    eexists. split; [reflexivity|].
    split; [apply SameUpToEdgeFactors_insert; assumption|].
    exists P. split; [exact HP | reflexivity].
  - exact HnI.
  - apply SameUpToEdgeFactors_refl.
  - exists Info'. split; [exact Hrun|]. split; [exact Hnum'|].
    intros X Y HX HY. destruct (Hdone X Y HX HY) as (a & Ha & P & HP & ->).
    exists P. split; [exact HP | exact Ha].
Qed.

End PatchInfoFacts.

Section EdgeCollapse.

Context `{Geometry : EngineGeometry}.

Lemma ComputeFactor_Spec (P N : FGPUTessellationPatchInfo) :
  HasValidResolution P = true -> HasValidResolution N = true ->
  ComputeFactor P (Some N) true
  = Spec_CollapseFactor (TessellationLevel P) (TessellationLevel N)
      (ResolutionY P) (ResolutionY N)
  /\ ComputeFactor P (Some N) false
     = Spec_CollapseFactor (TessellationLevel P) (TessellationLevel N)
         (ResolutionX P) (ResolutionX N).
Proof.
  unfold HasValidResolution, Int32.MAX. intros HP HN.
  repeat (apply andb_true_iff in HP as [HP ?]).
  repeat (apply andb_true_iff in HN as [HN ?]).
  assert (Hside : forall a b, 2 <= a <= 2147483647 -> 2 <= b <= 2147483647 ->
            (let My := FMath.Max 1 (Int32.sub a 1) in
             let Nb := FMath.Max 1 (Int32.sub b 1) in
             if (Nb <=? 0) || (My <=? Nb) then 1
             else FMath.Clamp (FMath.Max 1 (Int32.div My Nb)) 1 64)
            = Z.max 1 (Z.min 64 (Z.max 1 ((a - 1) / (b - 1))))).
  { intros a b Ha Hb. cbv zeta. unfold Int32.sub, Int32.div.
    rewrite !Int32_wrap_small by lia. rewrite !FMath_Max_spec.
    rewrite !Z.max_r by lia.
    assert (Hq : 0 <= (a - 1) / (b - 1) <= a - 1).
    { split; [apply Z.div_pos; lia|]. apply Z.div_le_upper_bound; nia. }
    rewrite Z.quot_div_nonneg by lia.
    rewrite Int32_wrap_small by lia.
    destruct (b - 1 <=? 0) eqn:E1; [lia|]. simpl.
    destruct (a - 1 <=? b - 1) eqn:E2.
    - assert ((a - 1) / (b - 1) <= 1) by (apply Z.div_le_upper_bound; lia).
      lia.
    - rewrite FMath_Clamp_spec. lia. }
  cbv zeta in Hside. unfold ComputeFactor, Spec_CollapseFactor.
  destruct (ResolutionX P <=? 0) eqn:E1; [lia|].
  destruct (ResolutionY P <=? 0) eqn:E2; [lia|].
  destruct (ResolutionX N <=? 0) eqn:E3; [lia|].
  destruct (ResolutionY N <=? 0) eqn:E4; [lia|]. simpl.
  destruct (TessellationLevel P <=? TessellationLevel N) eqn:E5;
    destruct (TessellationLevel N <? TessellationLevel P) eqn:E6; try lia.
  split; cbn beta zeta iota; rewrite Hside by lia; reflexivity.
Qed.

Lemma HasValidResolution_lookup (Info : list FGPUTessellationPatchInfo) i P :
  forallb HasValidResolution Info = true -> Info !! i = Some P ->
  HasValidResolution P = true.
Proof.
  intros Hall HP. rewrite forallb_forall in Hall. apply Hall.
  apply list_elem_of_In. eapply list_elem_of_lookup_2. exact HP.
Qed.

(** C3: in every patch grid with valid resolutions, the factor of a patch
    toward a present neighbour is [max(1, mySegments / neighborSegments)]
    clamped to [1, 64] when the neighbour's level is strictly lower and 1
    otherwise (west and east edges count the segments along Y, south and
    north edges along X); levels and resolutions are left as they were. *)
Theorem C3_edge_collapse_factors (CountX CountY : Z)
    (Info : list FGPUTessellationPatchInfo) :
  0 < CountX -> 0 < CountY -> CountX * CountY <= Int32.MAX ->
  TArray.Num Info = CountX * CountY ->
  forallb HasValidResolution Info = true ->
  exists Info',
    ComputePatchEdgeTransitions CountX CountY Info = Some Info'
    /\ forall X Y, 0 <= X < CountX -> 0 <= Y < CountY ->
         exists P P',
           Info !! Z.to_nat (GridIndex CountX X Y) = Some P
           /\ Info' !! Z.to_nat (GridIndex CountX X Y) = Some P'
           /\ TessellationLevel P' = TessellationLevel P
           /\ ResolutionX P' = ResolutionX P
           /\ ResolutionY P' = ResolutionY P
           /\ (forall N, GridNeighbor CountX CountY Info (X - 1) Y = Some N ->
                 IX (EdgeCollapseFactors P')
                 = Spec_CollapseFactor (TessellationLevel P) (TessellationLevel N)
                     (ResolutionY P) (ResolutionY N))
           /\ (forall N, GridNeighbor CountX CountY Info (X + 1) Y = Some N ->
                 IY (EdgeCollapseFactors P')
                 = Spec_CollapseFactor (TessellationLevel P) (TessellationLevel N)
                     (ResolutionY P) (ResolutionY N))
           /\ (forall N, GridNeighbor CountX CountY Info X (Y - 1) = Some N ->
                 IZ (EdgeCollapseFactors P')
                 = Spec_CollapseFactor (TessellationLevel P) (TessellationLevel N)
                     (ResolutionX P) (ResolutionX N))
           /\ (forall N, GridNeighbor CountX CountY Info X (Y + 1) = Some N ->
                 IW (EdgeCollapseFactors P')
                 = Spec_CollapseFactor (TessellationLevel P) (TessellationLevel N)
                     (ResolutionX P) (ResolutionX N)).
Proof.
  intros HX HY Hfit Hnum Hvalid.
  destruct (ComputePatchEdgeTransitions_total CountX CountY HX HY Hfit Info Hnum)
    as (Info' & Hrun & _ & Hall).
  exists Info'. split; [exact Hrun|].
  intros X Y HXr HYr. destruct (Hall X Y HXr HYr) as (P & HP & HP').
  exists P, (SetEdgeCollapseFactors P (EdgeFactorsOf CountX CountY Info X Y P)).
  split; [exact HP|]. split; [exact HP'|].
  split; [reflexivity|]. split; [reflexivity|]. split; [reflexivity|].
  pose proof (HasValidResolution_lookup Info _ P Hvalid HP) as HvP.
  assert (HvN : forall NX NY N, GridNeighbor CountX CountY Info NX NY = Some N ->
                  HasValidResolution N = true).
  { intros NX NY N HN. unfold GridNeighbor in HN.
    destruct ((NX <? 0) || (CountX <=? NX) || (NY <? 0) || (CountY <=? NY));
      [discriminate|].
    eapply HasValidResolution_lookup; eauto. }
  cbn [SetEdgeCollapseFactors EdgeCollapseFactors EdgeFactorsOf IX IY IZ IW].
  repeat split; intros N HN; rewrite HN;
    apply (ComputeFactor_Spec P N HvP (HvN _ _ _ HN)).
Qed.

End EdgeCollapse.

(** ** Patch level lookup *)

Lemma Ascending_last D Thresholds LastThreshold :
  Ascending Thresholds = true -> last Thresholds = Some LastThreshold ->
  existsb (F32.leb D) Thresholds = true -> F32.leb D LastThreshold = true.
Proof.
  induction Thresholds as [|t rest IH]; [discriminate|].
  intros Hasc Hlast Hhit. simpl in Hasc, Hhit.
  apply andb_true_iff in Hasc as [Hall Hasc].
  destruct rest as [|t' rest'].
  - simpl in Hlast, Hhit. injection Hlast as <-.
    now rewrite orb_false_r in Hhit.
  - rewrite last_cons_cons in Hlast.
    destruct (F32.leb D t) eqn:Ht.
    + apply F32_leb_trans with t; [exact Ht|].
      rewrite forallb_forall in Hall. apply Hall, list_elem_of_In.
      apply last_Some_elem_of. exact Hlast.
    + apply IH; assumption.
Qed.

Lemma Ascending_last_not_nan t t' rest LastThreshold :
  Ascending (t :: t' :: rest) = true ->
  last (t :: t' :: rest) = Some LastThreshold ->
  F32.is_nan LastThreshold = false.
Proof.
  intros Hasc Hlast. simpl in Hasc.
  apply andb_true_iff in Hasc as [Hall _].
  rewrite last_cons_cons in Hlast.
  assert (Hle : F32.leb t LastThreshold = true).
  { change (forallb (F32.leb t) (t' :: rest) = true) in Hall.
    rewrite forallb_forall in Hall. apply Hall, list_elem_of_In.
    apply last_Some_elem_of. exact Hlast. }
  now apply F32_leb_not_nan in Hle.
Qed.

(** The search loop against the walk of the specification, from index [i]
    on. *)
Lemma FindPatchLevel_walk D (Levels : list EGPUTessellationPatchLevel) :
  forall Thresholds i Target Last,
    length Thresholds = length (drop i Levels) ->
    FindPatchLevel D Thresholds Levels i Target
    = (if existsb (F32.leb D) Thresholds
       then Spec_ThresholdWalk D (zip Thresholds (drop i Levels)) Last
       else Target)
    /\ (existsb (F32.leb D) Thresholds = false ->
        Spec_ThresholdWalk D (zip Thresholds (drop i Levels)) Last
        = default Last (last (drop i Levels))).
Proof.
  unfold EGPUTessellationPatchLevel in *.
  induction Thresholds as [|d rest IH]; intros i Target Last Hlen.
  - simpl in *. destruct (drop i Levels); [|discriminate].
    split; [reflexivity|]. intros _. reflexivity.
  - destruct (drop i Levels) as [|l ls] eqn:Hdrop; [discriminate|].
    assert (Hi : Levels !! i = Some l).
    { rewrite <- (Nat.add_0_r i), <- lookup_drop, Hdrop. reflexivity. }
    assert (Hdrop' : drop (S i) Levels = ls).
    { pose proof (drop_S Levels l i Hi) as Hd. rewrite Hdrop in Hd.
      now injection Hd. }
    simpl in Hlen. injection Hlen as Hlen. rewrite <- Hdrop' in Hlen.
    destruct (IH (S i) Target l Hlen) as [IH1 IH2]. rewrite Hdrop' in IH1, IH2.
    cbn [FindPatchLevel existsb zip zip_with Spec_ThresholdWalk].
    unfold EGPUTessellationPatchLevel in *. rewrite Hi. destruct (F32.leb D d) eqn:Hd; cbn [orb].
    + split; [reflexivity | discriminate].
    + split; [exact IH1|]. intros Hnone. rewrite (IH2 Hnone).
      destruct ls as [|l' ls']; [reflexivity|].
      rewrite last_cons_cons.
      destruct (last (l' :: ls')) eqn:E; [reflexivity|].
      apply last_None in E. discriminate.
Qed.

(** The level chosen by the code is the one the ordered-threshold lookup
    selects, when the two tables pair up, the thresholds ascend and the
    distance is a number. *)
Lemma CalculatePatchTessellationLevel_lookup D Settings :
  length (PatchDistances Settings) = length (PatchLevels Settings) ->
  PatchLevels Settings <> [] ->
  Ascending (PatchDistances Settings) = true ->
  F32.is_nan D = false ->
  Some (CalculatePatchTessellationLevel D Settings)
  = ConvertPatchLevelToTessellation
      <$> Spec_ThresholdLookup D (PatchDistances Settings) (PatchLevels Settings).
Proof.
  unfold CalculatePatchTessellationLevel, Spec_ThresholdLookup.
  generalize (PatchDistances Settings) (PatchLevels Settings).
  intros ts ls Hlen Hne Hasc Hnan.
  destruct ls as [|l0 ls0]; [congruence|].
  destruct ts as [|t0 ts0]; [discriminate|].
  destruct (last (t0 :: ts0)) as [tl|] eqn:Hlast;
    [|apply last_None in Hlast; discriminate].
  cbn [zip zip_with fmap option_fmap option_map]. f_equal. f_equal.
  destruct (FindPatchLevel_walk D (l0 :: ls0) (t0 :: ts0) 0 l0 l0) as [Hfind Hnone].
  { simpl. simpl in Hlen. lia. }
  rewrite drop_0 in Hfind, Hnone.
  change (zip (t0 :: ts0) (l0 :: ls0)) with ((t0, l0) :: zip ts0 ls0) in Hfind, Hnone.
  rewrite Hfind.
  destruct (existsb (F32.leb D) (t0 :: ts0)) eqn:Hhit.
  - pose proof (Ascending_last D _ _ Hasc Hlast Hhit) as Hle.
    rewrite (F32_leb_not_gtb _ _ Hle). reflexivity.
  - rewrite (Hnone eq_refl).
    assert (Htl : F32.leb D tl = false).
    { destruct (F32.leb D tl) eqn:E; [|reflexivity].
      assert (Hx : existsb (F32.leb D) (t0 :: ts0) = true).
      { apply existsb_exists. exists tl. split; [|exact E].
        apply list_elem_of_In, last_Some_elem_of. exact Hlast. }
      congruence. }
    destruct (F32.gtb D tl) eqn:Hgt.
    + unfold TArray.Num. rewrite FMath_Min_spec, Hlen, Z.min_id.
      assert (Hn : (0 < length (l0 :: ls0))%nat) by (simpl; lia).
      destruct (0 <=? Z.of_nat (length (l0 :: ls0)) - 1) eqn:E1; [|lia].
      destruct (Z.of_nat (length (l0 :: ls0)) - 1 <? Z.of_nat (length (l0 :: ls0)))
        eqn:E2; [|lia].
      simpl andb. cbv iota. rewrite last_lookup.
      replace (Z.to_nat (Z.of_nat (length (l0 :: ls0)) - 1))
        with (pred (length (l0 :: ls0))) by lia.
      reflexivity.
    + destruct ts0 as [|t1 ts1].
      * destruct ls0; [reflexivity | discriminate].
      * pose proof (Ascending_last_not_nan _ _ _ _ Hasc Hlast) as Hnn.
        rewrite (F32_not_leb_gtb D tl Hnan Hnn Htl) in Hgt. discriminate.
Qed.







Example StripPatchInfo_levels :
  map (fun P => (TessellationLevel P, ResolutionX P, ResolutionY P)) StripPatchInfo
  = [(64, 257, 257); (16, 65, 65)].
Proof. vm_compute. reflexivity. Qed.

(** ** Patch generation *)

Lemma for_range_partial {St : Type} (Inv : Z -> St -> Prop) (n : Z)
    (body : Z -> St -> option St) (s s' : St) :
  Inv 0 s ->
  (forall i s1 s2, 0 <= i < n -> Inv i s1 -> body i s1 = Some s2 -> Inv (i + 1) s2) ->
  for_range n body s = Some s' -> Inv (Z.max 0 n) s'.
Proof.
  intros H0 Hstep. unfold for_range.
  assert (Hgen : forall m : nat, (m <= Z.to_nat n)%nat -> forall s',
            foldl (fun acc i => acc ≫= body (Z.of_nat i)) (Some s) (seq 0 m)
            = Some s' -> Inv (Z.of_nat m) s').
  { induction m as [|m IH]; intros Hm s1 Hs1.
    - simpl in Hs1. injection Hs1 as <-. exact H0.
    - rewrite seq_S, foldl_app in Hs1. simpl in Hs1.
      destruct (foldl (fun acc i => acc ≫= body (Z.of_nat i)) (Some s) (seq 0 m))
        as [s0|] eqn:E; [|discriminate].
      simpl in Hs1. replace (Z.of_nat (S m)) with (Z.of_nat m + 1) by lia.
      apply (Hstep (Z.of_nat m) s0 s1); [lia | apply IH; [lia | reflexivity] | exact Hs1]. }
  intros Hrun. replace (Z.max 0 n) with (Z.of_nat (Z.to_nat n)) by lia.
  apply Hgen; [lia | exact Hrun].
Qed.

Section GenerationFacts.

Context `{Geometry : EngineGeometry}.

Lemma Buffers_Empty_invalid : Buffers_IsValid Buffers_Empty = false.
Proof. reflexivity. Qed.

(** The buffers of a patch depend neither on the graph built so far nor
    on the previous contents of the output. *)
Lemma GenerateSinglePatch_buffers Graph Settings (P : FGPUTessellationPatchInfo) B :
  snd (GenerateSinglePatch Graph Settings P B)
  = snd (GenerateSinglePatch [] Settings P Buffers_Empty).
Proof.
  unfold GenerateSinglePatch, Buffers_Reset.
  destruct (TessellationLevel P <=? 0); [reflexivity|].
  destruct ((PX (CalculateResolution (F32.of_int (TessellationLevel P))) <? 2)
            || (PY (CalculateResolution (F32.of_int (TessellationLevel P))) <? 2));
    [reflexivity|].
  match goal with |- context [if ?c then _ else _] => destruct c end;
    [reflexivity|].
  destruct (InvalidUVParameters P); [reflexivity|].
  unfold DispatchVertexGeneration, DispatchIndexGeneration. reflexivity.
Qed.

(** What [GenerateSinglePatch] leaves in the graph and the buffers for a
    patch with a positive level whose UV window passes the test. *)
Lemma GenerateSinglePatch_value Graph Settings (P : FGPUTessellationPatchInfo) Out :
  0 < TessellationLevel P -> InvalidUVParameters P = false ->
  let Res := CalculateResolution (F32.of_int (TessellationLevel P)) in
  let R := PX Res in
  GenerateSinglePatch Graph Settings P Out
  = (Graph
       ++ Spec_ComputeStages (NormalCalculationMethod Settings) Res
            (PatchOffset P) (PatchSize P) (EdgeCollapseFactors P)
       ++ [Pass_CreatePatchBufferSRVs],
     mkBuffers (Some (mkRDGBuffer 12 (R * R))) (Some (mkRDGBuffer 12 (R * R)))
       (Some (mkRDGBuffer 8 (R * R)))
       (Some (mkRDGBuffer 4 ((R - 1) * (R - 1) * 6)))
       (R * R) ((R - 1) * (R - 1) * 6) R R).
Proof.
  intros Hlevel Huv. cbv zeta. unfold GenerateSinglePatch, Spec_ComputeStages.
  rewrite Huv. rewrite (proj2 (Z.leb_gt _ _)) by lia.
  pose proof (CalculateResolution_bounds (F32.of_int (TessellationLevel P))) as HR.
  pose proof (CalculateResolution_square (F32.of_int (TessellationLevel P))) as Hsq.
  set (Res := CalculateResolution (F32.of_int (TessellationLevel P))) in *.
  cbv zeta. rewrite <- Hsq. set (R := PX Res) in *.
  rewrite (proj2 (Z.ltb_ge R 2)) by lia. cbn [orb].
  unfold DispatchVertexGeneration, DispatchDisplacement, DispatchNormalCalculation,
    DispatchIndexGeneration.
  rewrite <- Hsq. fold R.
  unfold Int32.mul, Int32.sub.
  rewrite !(Int32_wrap_small (R - 1)) by lia.
  rewrite !(Int32_wrap_small (R * R)) by nia.
  rewrite !(Int32_wrap_small ((R - 1) * (R - 1))) by nia.
  rewrite !(Int32_wrap_small ((R - 1) * (R - 1) * 6)) by nia.
  rewrite (proj2 (Z.leb_gt (R * R) 0)) by nia.
  rewrite (proj2 (Z.leb_gt ((R - 1) * (R - 1) * 6) 0)) by nia. cbn [orb].
  rewrite !DivideAndRoundUp_small by nia.
  replace (R + 8 - 1) with (R + 7) by lia.
  replace (R * R + 64 - 1) with (R * R + 63) by lia.
  replace (R - 1 + 8 - 1) with (R - 1 + 7) by lia.
  destruct (NormalCalculationMethod Settings); cbn;
    rewrite <- ?app_assoc; reflexivity.
Qed.

(** A UV window in range passes the test of [GenerateSinglePatch]. *)
Lemma Spec_UVWindowInRange_passes (P : FGPUTessellationPatchInfo) :
  Spec_UVWindowInRange P = true -> InvalidUVParameters P = false.
Proof.
  unfold Spec_UVWindowInRange, InvalidUVParameters.
  rewrite !andb_true_iff.
  intros [[[[[[[H1 H2] H3] H4] H5] H6] H7] H8].
  change (F32.ltb (V2X (PatchOffset P)) F32.zero)
    with (F32.gtb F32.zero (V2X (PatchOffset P))).
  change (F32.ltb (V2Y (PatchOffset P)) F32.zero)
    with (F32.gtb F32.zero (V2Y (PatchOffset P))).
  rewrite (F32_leb_not_gtb _ _ H1), (F32_leb_not_gtb _ _ H2),
    (F32_leb_not_gtb _ _ H3), (F32_leb_not_gtb _ _ H4),
    (F32_ltb_not_leb _ _ H5), (F32_leb_not_gtb _ _ H6),
    (F32_ltb_not_leb _ _ H7), (F32_leb_not_gtb _ _ H8).
  reflexivity.
Qed.

(** A UV window of numbers that is out of range fails that test. *)
Lemma Spec_UVWindowInRange_fails (P : FGPUTessellationPatchInfo) :
  Spec_UVWindowInRange P = false -> UVWindowIsNumber P = true ->
  InvalidUVParameters P = true.
Proof.
  unfold Spec_UVWindowInRange, UVWindowIsNumber, InvalidUVParameters.
  rewrite !andb_true_iff, !negb_true_iff.
  intros Hout [[[N1 N2] N3] N4].
  assert (Z0 : F32.is_nan F32.zero = false) by reflexivity.
  assert (Z1 : F32.is_nan F32.one = false) by reflexivity.
  change (F32.ltb (V2X (PatchOffset P)) F32.zero)
    with (F32.gtb F32.zero (V2X (PatchOffset P))).
  change (F32.ltb (V2Y (PatchOffset P)) F32.zero)
    with (F32.gtb F32.zero (V2Y (PatchOffset P))).
  destruct (F32.leb F32.zero (V2X (PatchOffset P))) eqn:E1;
    [|rewrite (F32_not_leb_gtb _ _ Z0 N1 E1); reflexivity].
  destruct (F32.leb (V2X (PatchOffset P)) F32.one) eqn:E2;
    [|rewrite (F32_not_leb_gtb _ _ N1 Z1 E2), !orb_true_r; reflexivity].
  destruct (F32.leb F32.zero (V2Y (PatchOffset P))) eqn:E3;
    [|rewrite (F32_not_leb_gtb _ _ Z0 N2 E3), !orb_true_r; reflexivity].
  destruct (F32.leb (V2Y (PatchOffset P)) F32.one) eqn:E4;
    [|rewrite (F32_not_leb_gtb _ _ N2 Z1 E4), !orb_true_r; reflexivity].
  destruct (F32.ltb F32.zero (V2X (PatchSize P))) eqn:E5;
    [|rewrite (F32_not_ltb_leb _ _ Z0 N3 E5), !orb_true_r; reflexivity].
  destruct (F32.leb (V2X (PatchSize P)) F32.one) eqn:E6;
    [|rewrite (F32_not_leb_gtb _ _ N3 Z1 E6), !orb_true_r; reflexivity].
  destruct (F32.ltb F32.zero (V2Y (PatchSize P))) eqn:E7;
    [|rewrite (F32_not_ltb_leb _ _ Z0 N4 E7), !orb_true_r; reflexivity].
  destruct (F32.leb (V2Y (PatchSize P)) F32.one) eqn:E8;
    [|rewrite (F32_not_leb_gtb _ _ N4 Z1 E8), !orb_true_r; reflexivity].
  discriminate.
Qed.

(** The passes of a patch are appended to the graph built so far. *)
Lemma GenerateSinglePatch_graph Graph Settings (P : FGPUTessellationPatchInfo) B :
  fst (GenerateSinglePatch Graph Settings P B)
  = Graph ++ fst (GenerateSinglePatch [] Settings P Buffers_Empty).
Proof.
  unfold GenerateSinglePatch.
  destruct (TessellationLevel P <=? 0); [symmetry; apply app_nil_r|].
  destruct ((PX (CalculateResolution (F32.of_int (TessellationLevel P))) <? 2)
            || (PY (CalculateResolution (F32.of_int (TessellationLevel P))) <? 2));
    [symmetry; apply app_nil_r|].
  match goal with |- context [if ?c then _ else _] => destruct c end;
    [symmetry; apply app_nil_r|].
  destruct (InvalidUVParameters P); [symmetry; apply app_nil_r|].
  unfold DispatchVertexGeneration, DispatchDisplacement, DispatchNormalCalculation,
    DispatchIndexGeneration.
  destruct (NormalCalculationMethod Settings); cbn [fst app];
    rewrite <- ?app_assoc; reflexivity.
Qed.

(** An invalid patch records no pass and gets the empty buffer set. *)
Lemma PatchIsInvalid_aborted Settings (P : FGPUTessellationPatchInfo) :
  PatchIsInvalid P ->
  PatchPasses Settings P = [] /\ PatchOutcome Settings P = Buffers_Empty.
Proof.
  unfold PatchIsInvalid, PatchPasses, PatchOutcome, GenerateSinglePatch, Buffers_Reset.
  intros Hinv.
  destruct (negb (bVisible P)); [split; reflexivity|].
  destruct (TessellationLevel P <=? 0) eqn:E1; [split; reflexivity|].
  destruct Hinv as [H|[Hout Hnum]]; [lia|].
  rewrite (Spec_UVWindowInRange_fails P Hout Hnum).
  destruct ((PX (CalculateResolution (F32.of_int (TessellationLevel P))) <? 2)
            || (PY (CalculateResolution (F32.of_int (TessellationLevel P))) <? 2));
    [split; reflexivity|].
  match goal with |- context [if ?c then _ else _] => destruct c end;
    split; reflexivity.
Qed.

(** One iteration of the generation loop rewrites the slot of its own
    patch with the outcome of that patch. *)
Lemma GeneratePatch_step_spec Settings (Info : list FGPUTessellationPatchInfo)
    i St P :
  0 <= i < TArray.Num (LoopBuffers St) ->
  Info !! Z.to_nat i = Some P ->
  exists St',
    GeneratePatch_step Settings Info i St = Some St'
    /\ LoopBuffers St' = <[Z.to_nat i := PatchOutcome Settings P]> (LoopBuffers St)
    /\ (0 < TessellationLevel P -> SkippedInvalidLOD St' = SkippedInvalidLOD St).
Proof.
  intros Hi HP. unfold GeneratePatch_step.
  assert (Hget : TArray.get Info i = Some P).
  { apply TArray_get_Some. split; [lia | exact HP]. }
  rewrite Hget. cbn [mbind option_bind].
  destruct (TArray_get_in_range (LoopBuffers St) i Hi) as (B & HB).
  unfold PatchOutcome.
  destruct (negb (bVisible P)).
  - rewrite HB. cbn [mbind option_bind].
    rewrite TArray_set_in_range by exact Hi. cbn [mbind option_bind].
    eexists. split; [reflexivity|]. split; reflexivity.
  - destruct (TessellationLevel P <=? 0) eqn:E.
    + rewrite HB. cbn [mbind option_bind].
      rewrite TArray_set_in_range by exact Hi. cbn [mbind option_bind].
      eexists. split; [reflexivity|]. split; [reflexivity | lia].
    + rewrite HB. cbn [mbind option_bind].
      rewrite <- (GenerateSinglePatch_buffers (LoopGraph St) Settings P B).
      destruct (GenerateSinglePatch (LoopGraph St) Settings P B) as [G' B'].
      rewrite TArray_set_in_range by exact Hi. cbn [mbind option_bind snd].
      eexists. split; [reflexivity|]. split; reflexivity.
Qed.

(** The generation loop never fails on an output array of the size of
    the grid, and leaves in every slot the outcome of the patch of that
    slot. *)
Lemma GeneratePatches_total Settings (Info : list FGPUTessellationPatchInfo) St0 :
  TArray.Num (LoopBuffers St0) = TArray.Num Info ->
  exists St,
    GeneratePatches Settings Info (TArray.Num Info) St0 = Some St
    /\ TArray.Num (LoopBuffers St) = TArray.Num Info
    /\ (forall i P, Info !! i = Some P ->
          LoopBuffers St !! i = Some (PatchOutcome Settings P))
    /\ ((forall i P, Info !! i = Some P -> 0 < TessellationLevel P) ->
          SkippedInvalidLOD St = SkippedInvalidLOD St0).
Proof.
  intros Hnum. unfold GeneratePatches.
  destruct (for_range_invariant
              (fun i St =>
                 TArray.Num (LoopBuffers St) = TArray.Num Info
                 /\ (forall j P, (j < Z.to_nat i)%nat -> Info !! j = Some P ->
                       LoopBuffers St !! j = Some (PatchOutcome Settings P))
                 /\ ((forall j P, Info !! j = Some P -> 0 < TessellationLevel P) ->
                       SkippedInvalidLOD St = SkippedInvalidLOD St0))
              (TArray.Num Info) (GeneratePatch_step Settings Info) St0)
    as (St & Hrun & Hn & Hout & Hskip).
  - split; [exact Hnum|]. split; [intros j P Hj; lia | reflexivity].
  - intros i St1 Hi (Hn1 & Hout1 & Hskip1).
    destruct (lookup_lt_is_Some_2 Info (Z.to_nat i)) as [P HP];
      [unfold TArray.Num in Hi; lia|].
    destruct (GeneratePatch_step_spec Settings Info i St1 P) as (St2 & Hs & Hb & Hk);
      [lia | exact HP |].
    exists St2. split; [exact Hs|]. rewrite Hb.
    split; [now rewrite TArray_Num_insert|]. split.
    + intros j Q Hj HQ. destruct (Nat.eq_dec j (Z.to_nat i)) as [->|Hne].
      * rewrite list_lookup_insert_eq by (unfold TArray.Num in Hn1, Hi; lia).
        congruence.
      * rewrite list_lookup_insert_ne by congruence.
        apply Hout1; [lia | exact HQ].
    + intros Hpos. rewrite Hk by (eapply Hpos; exact HP). apply Hskip1, Hpos.
  - exists St. split; [exact Hrun|]. split; [exact Hn|]. split; [|exact Hskip].
    intros i P HP. apply Hout; [|exact HP].
    pose proof (lookup_lt_Some _ _ _ HP). unfold TArray.Num. lia.
Qed.

(** A sound patch records the compute stages of its grid and the pass
    that stores its buffers, and gets a buffer set sized by that grid. *)
Lemma PatchIsSound_generated Settings (P : FGPUTessellationPatchInfo) :
  PatchIsSound P ->
  let Res := CalculateResolution (F32.of_int (TessellationLevel P)) in
  let R := PX Res in
  PatchPasses Settings P
  = Spec_ComputeStages (NormalCalculationMethod Settings) Res
      (PatchOffset P) (PatchSize P) (EdgeCollapseFactors P)
    ++ [Pass_CreatePatchBufferSRVs]
  /\ PatchOutcome Settings P
     = mkBuffers (Some (mkRDGBuffer 12 (R * R))) (Some (mkRDGBuffer 12 (R * R)))
         (Some (mkRDGBuffer 8 (R * R)))
         (Some (mkRDGBuffer 4 ((R - 1) * (R - 1) * 6)))
         (R * R) ((R - 1) * (R - 1) * 6) R R.
Proof.
  intros (Hvis & Hlevel & Huv). cbv zeta.
  unfold PatchPasses, PatchOutcome. rewrite Hvis. cbn [negb].
  rewrite (proj2 (Z.leb_gt _ _)) by lia.
  rewrite (GenerateSinglePatch_value [] Settings P Buffers_Empty Hlevel
             (Spec_UVWindowInRange_passes P Huv)).
  split; reflexivity.
Qed.

(** One iteration of the generation loop appends the passes of its own
    patch to the graph. *)
Lemma GeneratePatch_step_graph Settings (Info : list FGPUTessellationPatchInfo)
    i St P :
  0 <= i < TArray.Num (LoopBuffers St) ->
  Info !! Z.to_nat i = Some P ->
  exists St',
    GeneratePatch_step Settings Info i St = Some St'
    /\ TArray.Num (LoopBuffers St') = TArray.Num (LoopBuffers St)
    /\ LoopGraph St' = LoopGraph St ++ PatchPasses Settings P.
Proof.
  intros Hi HP. unfold GeneratePatch_step.
  assert (Hget : TArray.get Info i = Some P).
  { apply TArray_get_Some. split; [lia | exact HP]. }
  rewrite Hget. cbn [mbind option_bind].
  destruct (TArray_get_in_range (LoopBuffers St) i Hi) as (B & HB).
  unfold PatchPasses.
  destruct (negb (bVisible P)).
  - rewrite HB. cbn [mbind option_bind].
    rewrite TArray_set_in_range by exact Hi. cbn [mbind option_bind].
    eexists. split; [reflexivity|]. cbn [LoopBuffers LoopGraph].
    split; [apply TArray_Num_insert | symmetry; apply app_nil_r].
  - destruct (TessellationLevel P <=? 0) eqn:E.
    + rewrite HB. cbn [mbind option_bind].
      rewrite TArray_set_in_range by exact Hi. cbn [mbind option_bind].
      eexists. split; [reflexivity|]. cbn [LoopBuffers LoopGraph].
      split; [apply TArray_Num_insert | symmetry; apply app_nil_r].
    + rewrite HB. cbn [mbind option_bind].
      rewrite <- (GenerateSinglePatch_graph (LoopGraph St) Settings P B).
      destruct (GenerateSinglePatch (LoopGraph St) Settings P B) as [G' B'].
      rewrite TArray_set_in_range by exact Hi. cbn [mbind option_bind fst].
      eexists. split; [reflexivity|]. cbn [LoopBuffers LoopGraph].
      split; [apply TArray_Num_insert | reflexivity].
Qed.

(** The graph the generation loop leaves: the passes of the patches, in
    the order of the grid. *)
Lemma GeneratePatches_graph Settings (Info : list FGPUTessellationPatchInfo) St0 :
  TArray.Num (LoopBuffers St0) = TArray.Num Info ->
  exists St,
    GeneratePatches Settings Info (TArray.Num Info) St0 = Some St
    /\ LoopGraph St = LoopGraph St0 ++ concat (map (PatchPasses Settings) Info).
Proof.
  intros Hnum. unfold GeneratePatches.
  destruct (for_range_invariant
              (fun i St =>
                 TArray.Num (LoopBuffers St) = TArray.Num Info
                 /\ LoopGraph St
                    = LoopGraph St0
                      ++ concat (map (PatchPasses Settings) (take (Z.to_nat i) Info)))
              (TArray.Num Info) (GeneratePatch_step Settings Info) St0)
    as (St & Hrun & _ & Hgraph).
  - split; [exact Hnum|]. cbn. symmetry. apply app_nil_r.
  - intros i St1 Hi (Hn1 & Hg1).
    destruct (lookup_lt_is_Some_2 Info (Z.to_nat i)) as [P HP];
      [unfold TArray.Num in Hi; lia|].
    destruct (GeneratePatch_step_graph Settings Info i St1 P) as (St2 & Hs & Hn2 & Hg2);
      [lia | exact HP |].
    exists St2. split; [exact Hs|]. split; [congruence|].
    replace (Z.to_nat (i + 1)) with (S (Z.to_nat i)) by lia.
    rewrite (take_S_r _ _ _ HP), map_app, concat_app, Hg2, Hg1.
    cbn [map concat]. rewrite app_nil_r, app_assoc. reflexivity.
  - exists St. split; [exact Hrun|].
    rewrite Hgraph. rewrite take_ge; [reflexivity|].
    unfold TArray.Num. lia.
Qed.

(** A patch that is drawn has a valid buffer set. *)
Lemma RenderPatches_valid GroupValid Total (Group : FGPUTessellationPatchBuffers)
    Factories Drawn :
  RenderPatches GroupValid Total Group Factories = Some Drawn ->
  forall i, In i Drawn ->
    exists B, PatchBuffers Group !! Z.to_nat i = Some B /\ 0 <= i
              /\ Buffers_IsValid B = true.
Proof.
  unfold RenderPatches. destruct (negb GroupValid).
  - intros [= <-] i [].
  - intros Hrun.
    refine (for_range_partial
             (fun _ Drawn => forall i, In i Drawn ->
                exists B, PatchBuffers Group !! Z.to_nat i = Some B /\ 0 <= i
                          /\ Buffers_IsValid B = true) _ _ _ _ _ _ Hrun).
    + intros i [].
    + intros i D1 D2 Hi Hinv Hstep.
      destruct (TArray.get (PatchInfo Group) i) as [Inf|]; [|discriminate].
      cbn [mbind option_bind] in Hstep.
      destruct (negb (bVisible Inf)); [injection Hstep as <-; exact Hinv|].
      destruct (TArray.get (PatchBuffers Group) i) as [B|] eqn:HB; [|discriminate].
      cbn [mbind option_bind] in Hstep.
      destruct (negb (Buffers_IsValid B)) eqn:Hv; [injection Hstep as <-; exact Hinv|].
      destruct (if TArray.IsValidIndex Factories i
                then default None (Factories !! Z.to_nat i) else None) as [Init|];
        [|injection Hstep as <-; exact Hinv].
      destruct (negb Init); injection Hstep as <-; [exact Hinv|].
      intros j Hj. apply in_app_or in Hj as [Hj|[<-|[]]]; [apply Hinv, Hj|].
      apply TArray_get_Some in HB as [H0 HB].
      exists B. split; [exact HB|]. split; [exact H0|].
      now apply negb_false_iff in Hv.
Qed.

End GenerationFacts.

Lemma GridIndex_surj CountX CountY i :
  0 < CountX -> 0 <= i < CountX * CountY ->
  exists X Y, 0 <= X < CountX /\ 0 <= Y < CountY /\ GridIndex CountX X Y = i.
Proof.
  intros HX Hi. exists (i mod CountX), (i / CountX).
  pose proof (Z.mod_pos_bound i CountX HX) as Hm.
  pose proof (Z.div_mod i CountX ltac:(lia)) as Hd.
  split; [exact Hm|]. split.
  - split; [apply Z.div_pos; lia|]. apply Z.div_lt_upper_bound; lia.
  - unfold GridIndex. lia.
Qed.

Section PipelineFacts.

Context `{Geometry : EngineGeometry}.
Variable DefaultPatchInfo : FGPUTessellationPatchInfo.
Variables (Settings : FGPUTessellationSettings) (LocalToWorld : FMatrix)
          (CameraPosition : FVector) (ViewFrustum : option FConvexVolume).
Variables CountX CountY : Z.
Hypothesis CountX_pos : 0 < CountX.
Hypothesis CountY_pos : 0 < CountY.
Hypothesis Count_fits : CountX * CountY <= Int32.MAX.


(** The pipeline runs to its end; its patch descriptions are those of
    [CalculatePatchInfo] with the factors of [ComputePatchEdgeTransitions],
    its buffers are the outcomes of these patches, and no patch was
    skipped for an invalid level. *)
Lemma ExecutePatchTessellationPipeline_total Graph
    (Out : FGPUTessellationPatchBuffers) :
  exists Info0 Info St,
    CalculatePatchInfo DefaultPatchInfo Settings LocalToWorld CameraPosition
      ViewFrustum CountX CountY [] = Some Info0
    /\ ComputePatchEdgeTransitions CountX CountY Info0 = Some Info
    /\ ExecutePatchTessellationPipeline DefaultPatchInfo Graph Settings
         LocalToWorld CameraPosition ViewFrustum CountX CountY Out
       = Some (mkPatchBuffers (LoopBuffers St) Info CountX CountY, St)
    /\ TArray.Num Info = CountX * CountY
    /\ TArray.Num (LoopBuffers St) = CountX * CountY
    /\ (forall i P, Info !! i = Some P ->
          IsPatchTessellation (TessellationLevel P)
          /\ LoopBuffers St !! i = Some (PatchOutcome Settings P))
    /\ SkippedInvalidLOD St = 0.
Proof using CountX_pos CountY_pos Count_fits.
  destruct (CalculatePatchInfo_total DefaultPatchInfo Settings LocalToWorld
              CameraPosition ViewFrustum CountX CountY CountX_pos CountY_pos
              Count_fits []) as (Info0 & Hcalc & Hnum0 & Hall0).
  destruct (ComputePatchEdgeTransitions_total CountX CountY CountX_pos
              CountY_pos Count_fits Info0 Hnum0) as (Info & Hedge & Hnum & Hall).
  assert (Hlevels : forall i P, Info !! i = Some P ->
            IsPatchTessellation (TessellationLevel P)).
  { intros i P HP.
    destruct (GridIndex_surj CountX CountY (Z.of_nat i)) as (X & Y & HX & HY & Hidx);
      [exact CountX_pos | |].
    { pose proof (lookup_lt_Some _ _ _ HP). unfold TArray.Num in Hnum. lia. }
    destruct (Hall X Y HX HY) as (P0 & HP0 & HP').
    destruct (Hall0 X Y HX HY) as (Old & HOld).
    rewrite Hidx, Nat2Z.id in HP0, HP', HOld.
    rewrite HP in HP'. injection HP' as ->.
    rewrite HOld in HP0. injection HP0 as <-.
    cbn [SetEdgeCollapseFactors TessellationLevel CalculatePatchInfo_patch].
    apply CalculatePatchTessellationLevel_set. }
  destruct (TArray_SetNum_Some Buffers_Empty (PatchBuffers Out) (CountX * CountY))
    as (Bufs & HBufs); [nia|].
  pose proof (TArray_SetNum_Num _ _ _ _ HBufs) as HnumB.
  destruct (GeneratePatches_total Settings Info (mkLoopState Graph Bufs 0 0 0))
    as (St & Hrun & HnumSt & Hout & Hskip).
  { cbn [LoopBuffers]. congruence. }
  exists Info0, Info, St.
  split; [exact Hcalc|]. split; [exact Hedge|]. split.
  - unfold ExecutePatchTessellationPipeline.
    destruct (0 <? CountX) eqn:E1; [|lia].
    destruct (0 <? CountY) eqn:E2; [|lia]. cbn [andb negb].
    rewrite Hcalc. cbn [mbind option_bind]. rewrite Hedge. cbn [mbind option_bind].
    rewrite (GridIndex_mul_fits CountX CountY CountX_pos CountY_pos Count_fits).
    rewrite HBufs. cbn [mbind option_bind].
    rewrite <- Hnum, Hrun. reflexivity.
  - split; [exact Hnum|]. split; [congruence|]. split.
    + intros i P HP. split; [eapply Hlevels; exact HP | apply Hout; exact HP].
    + rewrite Hskip; [reflexivity|].
      intros i P HP. pose proof (IsPatchTessellation_pos _ (Hlevels i P HP)). lia.
Qed.

End PipelineFacts.


(** C8, as stated, fails for a UV offset that is not a number: every
    comparison of the UV test is false for a NaN, so the patch whose
    offset holds a NaN is generated like its sound sibling; both buffer
    sets are valid, the graph holds the five passes of each, and both
    patches are drawn. *)
Lemma C8_counterexample :
  Spec_UVWindowInRange NaNPatch = false
  /\ (St ← GeneratePatches StripSettings [SoundPatch; NaNPatch] 2
             (mkLoopState [] [Buffers_Empty; Buffers_Empty] 0 0 0);
      Some (map Buffers_IsValid (LoopBuffers St),
            length (LoopGraph St),
            RenderPatches true 2
              (mkPatchBuffers (LoopBuffers St) [SoundPatch; NaNPatch] 2 1)
              (InitializePatchVertexFactories (LoopBuffers St))))
     = Some ([true; true], 10%nat, Some [0; 1]).
Proof. split; vm_compute; reflexivity. Qed.

Section PatchClaims.

Context `{Geometry : EngineGeometry}.


(** C8 (amended): the generation loop never fails, and every slot of its
    output holds the outcome of the patch of that slot alone.  A patch
    with a level that is not positive, or with a UV offset or size of
    numbers that is out of range (offset outside [0, 1], size outside
    (0, 1]), is aborted: it records no pass, its buffer set is the reset
    one, which is invalid, and it is never drawn.  A visible sibling with
    a positive level and a UV window in range is generated whatever the
    other patches are: the graph receives its compute stages (vertex
    generation over its UV window, displacement, normals unless disabled,
    index generation with its edge factors) and the pass that stores its
    buffers, and its buffer set is valid and sized by the resolution of
    its level.  That resolution is never below 9 by 9, so no patch is
    aborted for a grid below 2 by 2. *)
Theorem C8_invalid_patch_aborts_alone (Settings : FGPUTessellationSettings)
    (Info : list FGPUTessellationPatchInfo) (Graph : FRDGBuilder)
    (Bufs : list FGPUTessellationBuffers) :
  TArray.Num Bufs = TArray.Num Info ->
  exists St,
    GeneratePatches Settings Info (TArray.Num Info) (mkLoopState Graph Bufs 0 0 0)
      = Some St
    /\ TArray.Num (LoopBuffers St) = TArray.Num Info
    /\ LoopGraph St = Graph ++ concat (map (PatchPasses Settings) Info)
    /\ (forall i P, Info !! i = Some P ->
          LoopBuffers St !! i = Some (PatchOutcome Settings P))
    /\ (forall i P, Info !! i = Some P -> PatchIsInvalid P ->
          PatchPasses Settings P = []
          /\ LoopBuffers St !! i = Some (Buffers_Reset Buffers_Empty)
          /\ Buffers_IsValid (Buffers_Reset Buffers_Empty) = false
          /\ forall GroupValid Total CX CY Drawn,
               RenderPatches GroupValid Total
                 (mkPatchBuffers (LoopBuffers St) Info CX CY)
                 (InitializePatchVertexFactories (LoopBuffers St)) = Some Drawn ->
               ~ In (Z.of_nat i) Drawn)
    /\ (forall i P, Info !! i = Some P -> PatchIsSound P ->
          let Res := CalculateResolution (F32.of_int (TessellationLevel P)) in
          PatchPasses Settings P
          = Spec_ComputeStages (NormalCalculationMethod Settings) Res
              (PatchOffset P) (PatchSize P) (EdgeCollapseFactors P)
            ++ [Pass_CreatePatchBufferSRVs]
          /\ exists B,
               LoopBuffers St !! i = Some B /\ Buffers_IsValid B = true
               /\ BufferResolutionX B = PX Res /\ BufferResolutionY B = PY Res
               /\ VertexCount B = PX Res * PY Res
               /\ IndexCount B = (PX Res - 1) * (PY Res - 1) * 6)
    /\ (forall P : FGPUTessellationPatchInfo,
          9 <= PX (CalculateResolution (F32.of_int (TessellationLevel P)))
          /\ 9 <= PY (CalculateResolution (F32.of_int (TessellationLevel P))))
    /\ (forall Info2 Graph2 Bufs2 St2,
          TArray.Num Info2 = TArray.Num Info ->
          GeneratePatches Settings Info2 (TArray.Num Info2)
            (mkLoopState Graph2 Bufs2 0 0 0) = Some St2 ->
          TArray.Num Bufs2 = TArray.Num Info2 ->
          forall i, Info2 !! i = Info !! i ->
            LoopBuffers St2 !! i = LoopBuffers St !! i).
Proof.
  intros Hnum.
  destruct (GeneratePatches_total Settings Info (mkLoopState Graph Bufs 0 0 0) Hnum)
    as (St & Hrun & HnumSt & Hout & _).
  destruct (GeneratePatches_graph Settings Info (mkLoopState Graph Bufs 0 0 0) Hnum)
    as (St' & Hrun' & Hgraph).
  rewrite Hrun in Hrun'. injection Hrun' as <-. cbn [LoopGraph] in Hgraph.
  exists St. split; [exact Hrun|]. split; [exact HnumSt|].
  split; [exact Hgraph|]. split; [exact Hout|].
  split; [|split; [|split]].
  - intros i P HP Hinv.
    destruct (PatchIsInvalid_aborted Settings P Hinv) as [Hpasses Hempty].
    pose proof (Hout i P HP) as Hi. rewrite Hempty in Hi.
    split; [exact Hpasses|]. split; [exact Hi|]. split; [reflexivity|].
    intros GroupValid Total CX CY Drawn Hdraw Hin.
    destruct (RenderPatches_valid _ _ _ _ _ Hdraw _ Hin) as (B & HB & _ & Hvalid).
    cbn [PatchBuffers] in HB. rewrite Nat2Z.id, Hi in HB.
    injection HB as <-. discriminate.
  - intros i P HP Hsound. cbv zeta.
    destruct (PatchIsSound_generated Settings P Hsound) as [Hpasses Hbufs].
    cbv zeta in Hpasses, Hbufs.
    split; [exact Hpasses|].
    exists (PatchOutcome Settings P). split; [apply Hout, HP|].
    pose proof (CalculateResolution_bounds (F32.of_int (TessellationLevel P))) as HR.
    rewrite <- (CalculateResolution_square (F32.of_int (TessellationLevel P))).
    rewrite Hbufs.
    set (R := PX (CalculateResolution (F32.of_int (TessellationLevel P)))) in *.
    unfold Buffers_IsValid.
    cbn [PositionBuffer NormalBuffer UVBuffer IndexBufferRHI VertexCount IndexCount
         BufferResolutionX BufferResolutionY].
    rewrite !bool_decide_eq_true_2 by eauto.
    rewrite (proj2 (Z.ltb_lt 0 (R * R))) by nia.
    rewrite (proj2 (Z.ltb_lt 0 ((R - 1) * (R - 1) * 6))) by nia.
    repeat split; reflexivity.
  - intros P.
    pose proof (CalculateResolution_bounds (F32.of_int (TessellationLevel P))) as HR.
    rewrite <- (CalculateResolution_square (F32.of_int (TessellationLevel P))). lia.
  - intros Info2 Graph2 Bufs2 St2 Hn2 Hrun2 HnB2 i Heq.
    destruct (GeneratePatches_total Settings Info2
                (mkLoopState Graph2 Bufs2 0 0 0) HnB2)
      as (St2' & Hrun2' & HnumSt2 & Hout2 & _).
    rewrite Hrun2 in Hrun2'. injection Hrun2' as <-.
    destruct (Info !! i) as [P|] eqn:HP.
    + rewrite (Hout2 i P Heq), (Hout i P HP). reflexivity.
    + rewrite !(proj2 (lookup_ge_None _ _)); [reflexivity| |].
      * apply lookup_ge_None in HP. unfold TArray.Num in HnumSt. lia.
      * apply lookup_ge_None in Heq. unfold TArray.Num in HnumSt2. lia.
Qed.

(** C10: for every distance and every settings value,
    [CalculatePatchTessellationLevel] returns one of 4, 8, 16, 32, 64 and
    128 (16 for an empty level table, and 16 stands for an unrecognized
    level), hence a positive level; in a run of the patch pipeline every
    patch has a positive level and the loop never takes the branch for an
    invalid level. *)
Theorem C10_patch_level_always_positive :
  (forall D Settings,
     IsPatchTessellation (CalculatePatchTessellationLevel D Settings)
     /\ 0 < CalculatePatchTessellationLevel D Settings)
  /\ (forall D Settings, PatchLevels Settings = [] ->
        CalculatePatchTessellationLevel D Settings = 16)
  /\ (forall Level, Level < 0 \/ 5 < Level ->
        ConvertPatchLevelToTessellation Level = 16)
  /\ (forall (DefaultPatchInfo : FGPUTessellationPatchInfo) Graph Settings
        LocalToWorld CameraPosition ViewFrustum CountX CountY Out,
        0 < CountX -> 0 < CountY -> CountX * CountY <= Int32.MAX ->
        exists Result St,
          ExecutePatchTessellationPipeline DefaultPatchInfo Graph Settings
            LocalToWorld CameraPosition ViewFrustum CountX CountY Out
          = Some (Result, St)
          /\ (forall i P, PatchInfo Result !! i = Some P ->
                0 < TessellationLevel P)
          /\ SkippedInvalidLOD St = 0).
Proof.
  split; [|split; [|split]].
  - intros D Settings.
    pose proof (CalculatePatchTessellationLevel_set D Settings) as Hs.
    split; [exact Hs|]. apply IsPatchTessellation_pos in Hs. lia.
  - intros D Settings Hnil. unfold CalculatePatchTessellationLevel.
    rewrite Hnil. reflexivity.
  - intros Level HL.
    destruct (ConvertPatchLevelToTessellation_cases Level)
      as [[-> _]|[[-> _]|[[-> _]|[[-> _]|[[-> _]|[[-> _]|[_ H]]]]]]];
      unfold Patch_4, Patch_8, Patch_16, Patch_32, Patch_64, Patch_128 in *;
      first [lia | exact H].
  - intros DefaultPatchInfo Graph Settings LocalToWorld CameraPosition
      ViewFrustum CountX CountY Out HX HY Hfit.
    destruct (ExecutePatchTessellationPipeline_total DefaultPatchInfo Settings
                LocalToWorld CameraPosition ViewFrustum CountX CountY HX HY Hfit
                Graph Out)
      as (Info0 & Info & St & _ & _ & Hrun & _ & _ & Hall & Hskip).
    eexists _, St. split; [exact Hrun|]. split; [|exact Hskip].
    cbn [PatchInfo]. intros i P HP. destruct (Hall i P HP) as [Hs _].
    apply IsPatchTessellation_pos in Hs. lia.
Qed.

End PatchClaims.

(** ** Small integers in single precision *)

Lemma float_same_eq x y : float_same x y = true -> x = y.
Proof.
  destruct x as [a|a| |s m e], y as [b|b| |s' m' e']; simpl; try discriminate;
    try reflexivity.
  - intros H. apply eqb_prop in H. now subst.
  - intros H. apply eqb_prop in H. now subst.
  - intros H. apply andb_true_iff in H as [H He].
    apply andb_true_iff in H as [Hs Hm].
    apply eqb_prop in Hs. apply Pos.eqb_eq in Hm. apply Z.eqb_eq in He.
    congruence.
Qed.

Lemma shl_align_value m e e' :
  e' <= e -> Zpos (fst (shl_align m e e')) = Zpos m * 2 ^ (e - e').
Proof.
  intros H. unfold shl_align. destruct (e' - e) as [|p|p] eqn:E.
  - replace (e - e') with 0 by lia. simpl. lia.
  - lia.
  - simpl. replace (e - e') with (Zpos p) by lia.
    change (Pos.iter xO m p) with (shift_pos p m).
    rewrite shift_pos_correct, Zpower_pos_nat, Zpower_nat_Z, positive_nat_Z. lia.
Qed.

Lemma cond_Zopp_mul s p q : cond_Zopp s (Zpos p * q) = cond_Zopp s (Zpos p) * q.
Proof. destruct s; unfold cond_Zopp; lia. Qed.

(** The sum of two integers held in floats is the rounding of their exact
    sum. *)
Lemma F32_add_ints x ex fx y ey fy :
  ex <= 0 -> ey <= 0 ->
  HoldsInt x ex fx = true -> HoldsInt y ey fy = true ->
  F32.add fx fy = F32.lit ((x + y) * 2 ^ (- Z.min ex ey)) (Z.min ex ey).
Proof.
  intros Hex Hey Hx Hy. unfold HoldsInt in *.
  destruct fx as [| | |sx mx ex']; try discriminate.
  destruct fy as [| | |sy my ey']; try discriminate.
  apply andb_true_iff in Hx as [Hx1 Hx2]. apply andb_true_iff in Hy as [Hy1 Hy2].
  apply Z.eqb_eq in Hx1, Hx2, Hy1, Hy2. subst ex' ey'.
  unfold F32.add, F32.lit, SFadd. f_equal.
  rewrite !shl_align_value by lia.
  rewrite !cond_Zopp_mul, Hx2, Hy2.
  rewrite Z.mul_add_distr_r, <- !Z.mul_assoc, <- !Z.pow_add_r by lia.
  f_equal; f_equal; f_equal; lia.
Qed.

Lemma F32_sub_ints x ex fx y ey fy :
  ex <= 0 -> ey <= 0 ->
  HoldsInt x ex fx = true -> HoldsInt y ey fy = true ->
  F32.sub fx fy = F32.lit ((x - y) * 2 ^ (- Z.min ex ey)) (Z.min ex ey).
Proof.
  intros Hex Hey Hx Hy. unfold HoldsInt in *.
  destruct fx as [| | |sx mx ex']; try discriminate.
  destruct fy as [| | |sy my ey']; try discriminate.
  apply andb_true_iff in Hx as [Hx1 Hx2]. apply andb_true_iff in Hy as [Hy1 Hy2].
  apply Z.eqb_eq in Hx1, Hx2, Hy1, Hy2. subst ex' ey'.
  unfold F32.sub, F32.lit, SFsub. f_equal.
  rewrite !shl_align_value by lia.
  rewrite !cond_Zopp_mul, Hx2, Hy2.
  rewrite Z.mul_sub_distr_r, <- !Z.mul_assoc, <- !Z.pow_add_r by lia.
  f_equal; f_equal; f_equal; lia.
Qed.

Lemma of_int_held_check :
  forallb (fun n =>
    if n =? 0 then float_same (F32.of_int n) F32.zero
    else (-23 <=? IntExponent n) && (IntExponent n <=? -14)
         && HoldsInt n (IntExponent n) (F32.of_int n)) (ZRange (-511) 512) = true.
Proof. vm_compute. reflexivity. Qed.

(** [(float)n] holds [n] with an exponent from -23 to -14. *)
Lemma of_int_held n :
  -511 <= n <= 512 -> n <> 0 ->
  -23 <= IntExponent n <= -14 /\ HoldsInt n (IntExponent n) (F32.of_int n) = true.
Proof.
  intros Hn Hne.
  pose proof (forallb_ZRange _ _ _ of_int_held_check n Hn) as H. cbv beta in H.
  destruct (n =? 0) eqn:E; [lia|].
  apply andb_true_iff in H as [H Hh]. apply andb_true_iff in H as [H1 H2].
  split; [lia | exact Hh].
Qed.

Lemma of_int_normalized_check :
  forallb (fun n =>
    forallb (fun k => float_same (F32.lit (n * 2 ^ k) (- k)) (F32.of_int n))
            (ZRange 14 23)) (ZRange (-511) 512) = true.
Proof. vm_compute. reflexivity. Qed.

(** [n * 2^k] with the exponent [-k] rounds to [(float)n]. *)
Lemma of_int_normalized n k :
  -511 <= n <= 512 -> 14 <= k <= 23 ->
  F32.lit (n * 2 ^ k) (- k) = F32.of_int n.
Proof.
  intros Hn Hk.
  pose proof (forallb_ZRange _ _ _ of_int_normalized_check n Hn) as H.
  cbv beta in H. apply float_same_eq.
  exact (forallb_ZRange _ _ _ H k Hk).
Qed.

Lemma one_mul_of_int_check :
  forallb (fun n => float_same (F32.mul F32.one (F32.of_int n)) (F32.of_int n))
          (ZRange (-511) 512) = true.
Proof. vm_compute. reflexivity. Qed.

Lemma one_mul_of_int n :
  -511 <= n <= 512 -> F32.mul F32.one (F32.of_int n) = F32.of_int n.
Proof.
  intros Hn. apply float_same_eq.
  exact (forallb_ZRange _ _ _ one_mul_of_int_check n Hn).
Qed.

(** Differences and sums of authored factors are exact. *)
Lemma of_int_sub a b :
  1 <= a <= 512 -> 1 <= b <= 512 ->
  F32.sub (F32.of_int b) (F32.of_int a) = F32.of_int (b - a).
Proof.
  intros Ha Hb.
  destruct (of_int_held a) as [Hea Hha]; [lia | lia |].
  destruct (of_int_held b) as [Heb Hhb]; [lia | lia |].
  rewrite (F32_sub_ints b (IntExponent b) _ a (IntExponent a) _) by (lia || assumption).
  replace (Z.min (IntExponent b) (IntExponent a))
    with (- (- Z.min (IntExponent b) (IntExponent a))) at 2 by lia.
  apply of_int_normalized; lia.
Qed.

Lemma of_int_add a d :
  1 <= a <= 512 -> 1 <= a + d <= 512 ->
  F32.add (F32.of_int a) (F32.of_int d) = F32.of_int (a + d).
Proof.
  intros Ha Hb.
  destruct (of_int_held a) as [Hea Hha]; [lia | lia |].
  destruct (Z.eq_dec d 0) as [->|Hd].
  - rewrite Z.add_0_r. unfold HoldsInt in Hha.
    destruct (F32.of_int a); try discriminate. reflexivity.
  - destruct (of_int_held d) as [Hed Hhd]; [lia | lia |].
    rewrite (F32_add_ints a (IntExponent a) _ d (IntExponent d) _) by (lia || assumption).
    replace (Z.min (IntExponent a) (IntExponent d))
      with (- (- Z.min (IntExponent a) (IntExponent d))) at 2 by lia.
    apply of_int_normalized; lia.
Qed.

(** The two ends of the interpolation between authored factors. *)
Lemma Lerp_authored_zero a b :
  1 <= a <= 512 -> 1 <= b <= 512 ->
  FMath.Lerp (F32.of_int a) (F32.of_int b) F32.zero = F32.of_int a.
Proof.
  intros Ha Hb. unfold FMath.Lerp. rewrite of_int_sub by assumption.
  destruct (of_int_held a) as [_ Hha]; [lia | lia |].
  unfold HoldsInt in Hha. destruct (F32.of_int a) as [| | |sa ma ea]; try discriminate.
  destruct (Z.eq_dec (b - a) 0) as [->|Hd].
  - reflexivity.
  - destruct (of_int_held (b - a)) as [_ Hhd]; [lia | lia |].
    unfold HoldsInt in Hhd.
    destruct (F32.of_int (b - a)) as [| | |sd md ed]; try discriminate.
    reflexivity.
Qed.

Lemma Lerp_authored_one a b :
  1 <= a <= 512 -> 1 <= b <= 512 ->
  FMath.Lerp (F32.of_int a) (F32.of_int b) F32.one = F32.of_int b.
Proof.
  intros Ha Hb. unfold FMath.Lerp.
  rewrite of_int_sub by assumption.
  rewrite one_mul_of_int by lia.
  rewrite of_int_add by lia. f_equal. lia.
Qed.

(** ** Continuous LOD: the target factor *)

(** C5, as stated, fails twice: with inverted thresholds (min 5000, max
    1000) the distance 5500 is beyond the stated maximum, so the stated
    target is [lerp(64, 8, 1) = 8], but the code moves the maximum to 6000
    and answers 36; and with [maxFactor = 512] the stated target within the
    minimum distance is 512, but the code answers 256. *)
Lemma C5_counterexample :
  (Spec_TargetLevel DefaultSettings (F32.of_int 5500) (F32.of_int 5000)
     (F32.of_int 1000) = F32.of_int 8
   /\ CalculateLODFactorScaled DefaultSettings (F32.of_int 5500)
        (F32.of_int 5000) (F32.of_int 1000) = 36)
  /\ (Spec_TargetLevel (WithFactorRange DefaultSettings 512 8) (F32.of_int 1000)
        (F32.of_int 1000) (F32.of_int 50000) = F32.of_int 512
      /\ CalculateLODFactorScaled (WithFactorRange DefaultSettings 512 8)
           (F32.of_int 1000) (F32.of_int 1000) (F32.of_int 50000) = 256).
Proof. repeat split; vm_compute; reflexivity. Qed.

(** C5 (amended): with the maximum distance replaced by the minimum plus
    1000 when the thresholds are inverted, the interpolation parameter is 0
    up to the minimum distance, 1 from the maximum distance on and the
    smoothstep of the normalized distance in between, and the target factor
    is [lerp(maxFactor, minFactor, t)] rounded to the nearest integer and
    clamped to [1, 256]: the clamped maximum factor up to the minimum
    distance, the clamped minimum factor from the maximum distance on.
    With min 1000, max 50000 and factors 8 and 64, the distance 1000 gives
    64 and the distance 50000 gives 8. *)
Theorem C5_continuous_target_factor (Settings : FGPUTessellationSettings)
    (Distance ScaledMin ScaledMax : float) :
  1 <= MaxTessellationFactor Settings <= 512 ->
  1 <= MinTessellationFactor Settings <= 512 ->
  let MaxDist :=
    if F32.geb ScaledMin ScaledMax then F32.add ScaledMin (F32.of_int 1000)
    else ScaledMax in
  let Target := CalculateLODFactorScaled Settings Distance ScaledMin ScaledMax in
  (F32.leb Distance ScaledMin = true ->
     Target = FMath.Clamp (MaxTessellationFactor Settings) 1 256)
  /\ (F32.leb Distance ScaledMin = false -> F32.geb Distance MaxDist = true ->
       Target = FMath.Clamp (MinTessellationFactor Settings) 1 256)
  /\ (F32.leb Distance ScaledMin = false -> F32.geb Distance MaxDist = false ->
       let x := F32.div (F32.sub Distance ScaledMin) (F32.sub MaxDist ScaledMin) in
       let t := F32.mul (F32.mul x x)
                        (F32.sub (F32.of_int 3) (F32.mul (F32.of_int 2) x)) in
       Target = FMath.Clamp
                  (FMath.RoundToInt
                     (FMath.Lerp (F32.of_int (MaxTessellationFactor Settings))
                                 (F32.of_int (MinTessellationFactor Settings)) t))
                  1 256)
  /\ 1 <= Target <= 256
  /\ CalculateLODFactorScaled DefaultSettings (F32.of_int 1000)
       (F32.of_int 1000) (F32.of_int 50000) = 64
  /\ CalculateLODFactorScaled DefaultSettings (F32.of_int 50000)
       (F32.of_int 1000) (F32.of_int 50000) = 8.
Proof.
  intros HMax HMin. cbv zeta. unfold CalculateLODFactorScaled.
  split; [|split; [|split; [|split]]].
  - intros Hle. rewrite Hle.
    rewrite Lerp_authored_zero, RoundToInt_of_int by lia. reflexivity.
  - intros Hle Hge. rewrite Hle, Hge.
    rewrite Lerp_authored_one, RoundToInt_of_int by lia. reflexivity.
  - intros Hle Hge. rewrite Hle, Hge. reflexivity.
  - rewrite FMath_Clamp_spec. lia.
  - split; vm_compute; reflexivity.
Qed.

(** ** LOD evaluator: hysteresis, repetition, the base factor *)

(** A difference within the threshold does not pass the test
    [Abs(New - Last) > Hysteresis], whatever the 32-bit wrap-around does. *)
Lemma hysteresis_guard (New Last H : Z) :
  Z.abs (New - Last) <= H -> (H <? FMath.Abs (Int32.sub New Last)) = false.
Proof.
  intros Habs. apply Z.ltb_ge. unfold Int32.sub.
  pose proof (Int32_wrap_range (New - Last)) as Hw.
  unfold Int32.InRange, Int32.MIN, Int32.MAX in Hw.
  destruct (Z_le_gt_dec (Z.abs (New - Last)) 2147483647) as [Hsmall|Hbig].
  - rewrite (Int32_wrap_small (New - Last)) by lia.
    rewrite FMath_Abs_small by lia. exact Habs.
  - unfold FMath.Abs, Int32.neg.
    destruct (0 <=? Int32.wrap (New - Last)) eqn:E; [lia|].
    pose proof (Int32_wrap_range (- Int32.wrap (New - Last))) as Hw'.
    unfold Int32.InRange, Int32.MIN, Int32.MAX in Hw'. lia.
Qed.


(** An invariant of the step holds after any run of steps. *)
Lemma foldl_invariant {A B : Type} (f : A -> B -> A) (Inv : A -> Prop) :
  (forall a b, Inv a -> Inv (f a b)) ->
  forall l a, Inv a -> Inv (foldl f a l).
Proof.
  intros Hstep l. induction l as [|b l IH]; intros a Ha; simpl.
  - exact Ha.
  - apply IH, Hstep, Ha.
Qed.



Section ComponentClaims.

Context `{Geometry : EngineGeometry}.


(** What one continuous step does to the fields the claims are about. *)
Lemma UpdateDistanceBasedLOD_fields DeltaTime Env (C : UGPUTessellationComponent) :
  let C' := UpdateDistanceBasedLOD DeltaTime Env C in
  TessellationSettings C' = TessellationSettings C
  /\ match FindCamera Env with
     | None => C' = C
     | Some CameraPos =>
         let New := FMath.RoundToInt (SmoothedLevel DeltaTime Env C CameraPos) in
         CurrentLODLevel C' = SmoothedLevel DeltaTime Env C CameraPos
         /\ if LODHysteresis (TessellationSettings C)
               <? FMath.Abs (Int32.sub New (LastAppliedTessFactor C))
            then LastAppliedTessFactor C' = New /\ bRenderStateDirty C' = true
            else LastAppliedTessFactor C' = LastAppliedTessFactor C
                 /\ bRenderStateDirty C' = bRenderStateDirty C
     end.
Proof.
  cbv zeta. unfold UpdateDistanceBasedLOD, SmoothedLevel.
  destruct (FindCamera Env) as [CameraPos|]; [|split; reflexivity].
  cbn [TessellationSettings SetLastCameraPosition].
  destruct (F32.gtb (LODTransitionSpeed (TessellationSettings C)) F32.zero);
    cbn [SetCurrentLODLevel SetLastCameraPosition CurrentLODLevel
         LastAppliedTessFactor TessellationSettings];
    destruct (_ <? _); cbn; repeat split.
Qed.

(** What one discrete step does to the settings and the applied level. *)
Lemma UpdateDiscreteLOD_fields DeltaTime Env (C : UGPUTessellationComponent) :
  let C' := UpdateDiscreteLOD DeltaTime Env C in
  TessellationSettings C' = TessellationSettings C
  /\ LastAppliedTessFactor C'
     = match FindCamera Env with
       | None => LastAppliedTessFactor C
       | Some CameraPos =>
           let Target :=
             DiscreteTargetTessFactor (TessellationSettings C)
               (F32.div (CalculateDistanceToCamera Env C CameraPos)
                        (MaxScaleOf Env)) in
           if LODHysteresis (TessellationSettings C)
              <=? FMath.Abs (Int32.sub Target (LastAppliedTessFactor C))
           then Target else LastAppliedTessFactor C
       end.
Proof.
  cbv zeta. unfold UpdateDiscreteLOD.
  destruct (FindCamera Env) as [CameraPos|]; [|split; reflexivity].
  destruct (_ <=? _); cbn; split; reflexivity.
Qed.


(** C6: in a continuous-LOD step, when the rounded smoothed level is
    within the hysteresis threshold of the applied level, the applied
    level and the dirty flag of the mesh are left as they were. *)
Theorem C6_hysteresis_keeps_level (DeltaTime : float) (Env : FrameEnvironment)
    (C : UGPUTessellationComponent) :
  Z.abs (FMath.RoundToInt
           (CurrentLODLevel (UpdateDistanceBasedLOD DeltaTime Env C))
         - LastAppliedTessFactor C)
    <= LODHysteresis (TessellationSettings C) ->
  LastAppliedTessFactor (UpdateDistanceBasedLOD DeltaTime Env C)
    = LastAppliedTessFactor C
  /\ bRenderStateDirty (UpdateDistanceBasedLOD DeltaTime Env C)
     = bRenderStateDirty C.
Proof.
  intros Hwithin.
  destruct (UpdateDistanceBasedLOD_fields DeltaTime Env C) as [_ Hstep].
  cbv zeta in Hstep. destruct (FindCamera Env) as [CameraPos|].
  - destruct Hstep as [Hcur Hcommit]. rewrite Hcur in Hwithin.
    rewrite (hysteresis_guard _ _ _ Hwithin) in Hcommit. exact Hcommit.
  - rewrite Hstep. split; reflexivity.
Qed.


Lemma TickComponent_settings DeltaTime Env
    (St : bool * UGPUTessellationComponent) :
  TessellationSettings (snd (TickComponent DeltaTime Env St))
  = TessellationSettings (snd St).
Proof.
  destruct St as [bInitialized C]. unfold TickComponent. cbn [snd].
  destruct (negb (bAutoUpdate C)); [reflexivity|].
  destruct (LODMode (TessellationSettings C)) eqn:Hmode; cbn [snd];
    try reflexivity.
  - rewrite (proj1 (UpdateDistanceBasedLOD_fields DeltaTime Env _)).
    destruct (negb bInitialized); reflexivity.
  - apply (proj1 (UpdateDiscreteLOD_fields DeltaTime Env C)).
  - unfold UpdatePatchBasedLOD.
    destruct (match (if HasWorld Env then PlayerViewPoint Env else None) with
              | Some ViewLocation => Some ViewLocation
              | None => EditorViewLocation Env
              end) as [CameraPos|]; [|reflexivity].
    destruct (_ || _); [|reflexivity].
    unfold SendRenderDynamicData_Concurrent.
    destruct (HasSceneProxy Env); reflexivity.
  - apply (proj1 (UpdateDistanceBasedLOD_fields DeltaTime Env C)).
Qed.

(** C9: whatever the LOD mode and the frames, ticking the component
    leaves its settings, hence the authored base factor, as they were;
    the LOD output lives in [LastAppliedTessFactor], which the resolution
    calculation and the scene proxy read only when the LOD mode is not
    Disabled, and which replaces the factor only in the proxy's own copy
    of the settings. *)
Theorem C9_base_factor_never_overwritten
    (Frames : list (float * FrameEnvironment))
    (St : bool * UGPUTessellationComponent) :
  TessellationSettings (snd (TickFrames Frames St))
    = TessellationSettings (snd St)
  /\ TessellationFactor (TessellationSettings (snd (TickFrames Frames St)))
     = TessellationFactor (TessellationSettings (snd St))
  /\ (forall C, TessellationSettings (snd (CalculateGridResolution C))
                = TessellationSettings C)
  /\ (forall C Applied,
        LODMode (TessellationSettings C) = LODMode_Disabled ->
        fst (CalculateGridResolution (SetLastAppliedTessFactor C Applied))
        = fst (CalculateGridResolution C)
        /\ SceneProxy_EffectiveSettings (SetLastAppliedTessFactor C Applied)
           = TessellationSettings C)
  /\ (forall C,
        LODMode (TessellationSettings C) <> LODMode_Disabled ->
        TessellationFactor (SceneProxy_EffectiveSettings C)
        = LastAppliedTessFactor C
        /\ TessellationSettings C
           = WithTessellationFactor (SceneProxy_EffectiveSettings C)
               (TessellationFactor (TessellationSettings C))).
Proof.
  assert (Hrun : TessellationSettings (snd (TickFrames Frames St))
                 = TessellationSettings (snd St)).
  { unfold TickFrames. revert St.
    induction Frames as [|F Frames IH]; intros St; [reflexivity|].
    simpl. rewrite IH. apply TickComponent_settings. }
  split; [exact Hrun|]. split; [now rewrite Hrun|]. split; [reflexivity|].
  split.
  - intros C Applied Hmode.
    unfold CalculateGridResolution, SceneProxy_EffectiveSettings.
    cbn [TessellationSettings SetLastAppliedTessFactor fst].
    rewrite Hmode. split; reflexivity.
  - intros C Hmode. unfold SceneProxy_EffectiveSettings.
    destruct (LODMode (TessellationSettings C)) eqn:E; try congruence;
      cbn [LODMode_eqb negb WithTessellationFactor TessellationFactor];
      (split; [reflexivity|]); destruct (TessellationSettings C); reflexivity.
Qed.

End ComponentClaims.


(** ** The claims on concrete inputs *)

(** The strip: patch A at level 64 (257 vertices per side) borders patch B
    at level 16 (65 vertices per side) on A's east edge; A's east factor is
    256 / 64 = 4 and B's west factor is 1. *)
Example strip_edge_factors :
  fmap (map EdgeCollapseFactors) (ComputePatchEdgeTransitions 2 1 StripPatchInfo)
  = Some [mkIntVector4 1 4 1 1; mkIntVector4 1 1 1 1].
Proof. vm_compute. reflexivity. Qed.

Lemma C1_resolution_witness :
  let F := F32.of_int 16 in
  -536870912 <= FMath.RoundToInt F <= 254
  /\ (PX (CalculateResolution F) - 1) mod 8 = 0.
Proof.
  cbv zeta.
  assert (H : -536870912 <= FMath.RoundToInt (F32.of_int 16) <= 254)
    by (vm_compute; split; discriminate).
  split; [exact H|].
  exact (proj1 (proj2 (proj2 (proj2 (proj2 (proj2
           (C1_resolution_range_and_alignment (F32.of_int 16))))))) H).
Defined.

Lemma C3_edge_collapse_witness :
  exists Info', ComputePatchEdgeTransitions 2 1 StripPatchInfo = Some Info'.
Proof.
  destruct (C3_edge_collapse_factors (Geometry := TranslationGeometry) 2 1
              StripPatchInfo) as (Info' & Hrun & _).
  - lia.
  - lia.
  - vm_compute. discriminate.
  - vm_compute. reflexivity.
  - vm_compute. reflexivity.
  - exists Info'. exact Hrun.
Defined.


Lemma C5_target_factor_witness :
  CalculateLODFactorScaled DefaultSettings (F32.of_int 500) (F32.of_int 1000)
    (F32.of_int 50000) = FMath.Clamp 64 1 256.
Proof.
  refine (proj1 (C5_continuous_target_factor DefaultSettings (F32.of_int 500)
                   (F32.of_int 1000) (F32.of_int 50000) _ _) _).
  - simpl. lia.
  - simpl. lia.
  - vm_compute. reflexivity.
Defined.

Lemma C6_hysteresis_witness :
  LastAppliedTessFactor
    (UpdateDistanceBasedLOD QuarterSecond ExampleEnvironment SettledComponent)
  = 63.
Proof.
  refine (proj1 (C6_hysteresis_keeps_level (Geometry := TranslationGeometry)
                   QuarterSecond ExampleEnvironment SettledComponent _)).
  vm_compute. discriminate.
Defined.


Lemma C8_invalid_patch_witness :
  exists St,
    GeneratePatches StripSettings BrokenStripPatchInfo
      (TArray.Num BrokenStripPatchInfo)
      (mkLoopState [] [Buffers_Empty; Buffers_Empty] 0 0 0) = Some St
    /\ LoopBuffers St !! 1%nat = Some (Buffers_Reset Buffers_Empty)
    /\ PatchPasses StripSettings BrokenPatch = []
    /\ length (PatchPasses StripSettings SoundPatch) = 5%nat
    /\ exists B, LoopBuffers St !! 0%nat = Some B /\ Buffers_IsValid B = true.
Proof.
  destruct (C8_invalid_patch_aborts_alone (Geometry := TranslationGeometry)
              StripSettings BrokenStripPatchInfo []
              [Buffers_Empty; Buffers_Empty])
    as (St & Hrun & _ & _ & _ & Hinv & Hsound & _).
  - reflexivity.
  - exists St. split; [exact Hrun|].
    destruct (Hinv 1%nat BrokenPatch eq_refl) as (Hpasses & Hreset & _).
    { left. simpl. lia. }
    destruct (Hsound 0%nat SoundPatch eq_refl) as (Hstages & B & HB & Hvalid & _).
    { split; [reflexivity|]. split; [simpl; lia | vm_compute; reflexivity]. }
    split; [exact Hreset|]. split; [exact Hpasses|]. split.
    + rewrite Hstages. vm_compute. reflexivity.
    + exists B. split; [exact HB | exact Hvalid].
Defined.

Lemma C9_base_factor_witness :
  fst (CalculateGridResolution (SetLastAppliedTessFactor ExampleComponent 64))
  = fst (CalculateGridResolution ExampleComponent).
Proof.
  refine (proj1 (proj1 (proj2 (proj2 (proj2
            (C9_base_factor_never_overwritten (Geometry := TranslationGeometry)
               [(QuarterSecond, ExampleEnvironment)] (false, ExampleComponent)))))
            ExampleComponent 64 _)).
  reflexivity.
Defined.

Lemma C10_patch_level_witness :
  exists Result St,
    ExecutePatchTessellationPipeline (Geometry := TranslationGeometry)
      ExampleDefaultPatch [] StripSettings Vec3_zero StripCamera None 2 1
      (mkPatchBuffers [] [] 0 0) = Some (Result, St)
    /\ SkippedInvalidLOD St = 0.
Proof.
  destruct (proj2 (proj2 (proj2
              (C10_patch_level_always_positive (Geometry := TranslationGeometry))))
              ExampleDefaultPatch [] StripSettings Vec3_zero StripCamera None 2 1
              (mkPatchBuffers [] [] 0 0))
    as (Result & St & Hrun & _ & Hskip).
  - lia.
  - lia.
  - vm_compute. discriminate.
  - exists Result, St. split; [exact Hrun | exact Hskip].
Defined.

(* ================================================================== *)
(** * Further properties of the plugin *)

(** ** The resolution the component reports *)

(** The grid resolution as a function of the effective factor. *)
Lemma GridResolution_value (e : Z) :
  let r := Z.max (Z.min (Int32.wrap (e * 4)) 1024) 4 in
  Int32.mul (FMath.DivideAndRoundUp (FMath.Clamp (Int32.mul e 4) 4 1024) 8) 8
  = 8 * ((r + 7) / 8)
  /\ 8 <= 8 * ((r + 7) / 8) <= 1024.
Proof.
  cbv zeta. unfold Int32.mul at 2. rewrite FMath_Clamp_spec.
  set (r := Z.max (Z.min (Int32.wrap (e * 4)) 1024) 4).
  assert (Hr : 4 <= r <= 1024) by (unfold r; lia).
  rewrite DivideAndRoundUp_small by lia.
  replace (r + 8 - 1) with (r + 7) by lia.
  euclid (r + 7) 8.
  unfold Int32.mul. rewrite Int32_wrap_small by lia. lia.
Qed.

Section GridResolutionFacts.
Context `{Geometry : EngineGeometry}.


Lemma CalculateGridResolution_value (C : UGPUTessellationComponent) :
  let r := Z.max (Z.min (Int32.wrap (EffectiveTessellationFactor C * 4)) 1024) 4 in
  CalculateGridResolution C
  = (mkIntPoint (8 * ((r + 7) / 8)) (8 * ((r + 7) / 8)),
     SetCurrentResolution C (mkIntPoint (8 * ((r + 7) / 8)) (8 * ((r + 7) / 8)))).
Proof.
  cbv zeta. unfold CalculateGridResolution, EffectiveTessellationFactor,
    SceneProxy_EffectiveSettings.
  assert (He : (if negb (LODMode_eqb (LODMode (TessellationSettings C)) LODMode_Disabled)
                then LastAppliedTessFactor C
                else TessellationFactor (TessellationSettings C))
               = TessellationFactor
                   (if negb (LODMode_eqb (LODMode (TessellationSettings C))
                               LODMode_Disabled)
                    then WithTessellationFactor (TessellationSettings C)
                           (LastAppliedTessFactor C)
                    else TessellationSettings C)).
  { destruct (negb _); reflexivity. }
  cbv zeta. rewrite He.
  rewrite (proj1 (GridResolution_value _)). reflexivity.
Qed.

(** X1: for every component (every 32-bit factor, every LOD mode),
    [CalculateGridResolution] returns a square resolution that is a multiple
    of 8 between 8 and 1024 and stores it in [CurrentResolution]; for an
    effective factor between 1 and 256 the resolution is the first multiple
    of 8 from four times the factor. *)
Theorem CalculateGridResolution_aligned (C : UGPUTessellationComponent) :
  let R := fst (CalculateGridResolution C) in
  PX R = PY R
  /\ 8 <= PX R <= 1024
  /\ PX R mod 8 = 0
  /\ CurrentResolution (snd (CalculateGridResolution C)) = R
  /\ (1 <= EffectiveTessellationFactor C <= 256 ->
      4 * EffectiveTessellationFactor C <= PX R < 4 * EffectiveTessellationFactor C + 8).
Proof.
  cbv zeta. rewrite CalculateGridResolution_value. cbn [fst snd PX PY].
  set (r := Z.max (Z.min (Int32.wrap (EffectiveTessellationFactor C * 4)) 1024) 4).
  assert (Hr : 4 <= r <= 1024) by (unfold r; lia).
  euclid (r + 7) 8.
  split; [reflexivity|]. split; [lia|]. split.
  - rewrite Z.mul_comm. apply Z.mod_mul. lia.
  - split; [reflexivity|]. intros He.
    unfold r in *. rewrite Int32_wrap_small in * by lia. lia.
Qed.

(** X2: [GetVertexCount] is the square of the grid resolution and
    [GetTriangleCount] twice the square of the resolution minus one, without
    32-bit overflow: between 64 and 1048576 vertices, between 98 and 2093058
    triangles. *)
Theorem GetVertexCount_exact (C : UGPUTessellationComponent) :
  let R := PX (fst (GetTessellationResolution C)) in
  fst (GetVertexCount C) = R * R
  /\ fst (GetTriangleCount C) = 2 * ((R - 1) * (R - 1))
  /\ 64 <= fst (GetVertexCount C) <= 1048576
  /\ 98 <= fst (GetTriangleCount C) <= 2093058.
Proof.
  cbv zeta. unfold GetVertexCount, GetTriangleCount, GetTessellationResolution.
  rewrite CalculateGridResolution_value. cbn [fst snd PX PY].
  set (r := Z.max (Z.min (Int32.wrap (EffectiveTessellationFactor C * 4)) 1024) 4).
  assert (Hr : 4 <= r <= 1024) by (unfold r; lia).
  euclid (r + 7) 8.
  set (R := 8 * ((r + 7) / 8)) in *.
  assert (HR : 8 <= R <= 1024) by (unfold R; lia).
  unfold Int32.mul, Int32.sub.
  rewrite (Int32_wrap_small (R - 1)) by lia.
  rewrite (Int32_wrap_small (R * R)) by nia.
  rewrite (Int32_wrap_small ((R - 1) * (R - 1))) by nia.
  rewrite (Int32_wrap_small ((R - 1) * (R - 1) * 2)) by nia.
  repeat split; nia.
Qed.

End GridResolutionFacts.

(** What the single-mesh pipeline leaves in the buffers and the graph. *)
Lemma ExecuteTessellationPipeline_value (Graph : FRDGBuilder)
    (Settings : FGPUTessellationSettings) :
  let Res := CalculateResolution (F32.of_int (TessellationFactor Settings)) in
  let R := PX Res in
  ExecuteTessellationPipeline Graph Settings
  = (Graph
       ++ Spec_ComputeStages (NormalCalculationMethod Settings) Res
            (UVOffset Settings) (UVScale Settings) (mkIntVector4 1 1 1 1)
       ++ [Pass_CreateGPUBufferSRVs],
     mkBuffers (Some (mkRDGBuffer 12 (R * R))) (Some (mkRDGBuffer 12 (R * R)))
       (Some (mkRDGBuffer 8 (R * R)))
       (Some (mkRDGBuffer 4 ((R - 1) * (R - 1) * 6)))
       (R * R) ((R - 1) * (R - 1) * 6) R R).
Proof.
  cbv zeta. unfold ExecuteTessellationPipeline, Spec_ComputeStages.
  pose proof (CalculateResolution_bounds (F32.of_int (TessellationFactor Settings))) as HR.
  pose proof (CalculateResolution_square (F32.of_int (TessellationFactor Settings))) as Hsq.
  set (Res := CalculateResolution (F32.of_int (TessellationFactor Settings))) in *.
  unfold DispatchVertexGeneration, DispatchDisplacement, DispatchNormalCalculation,
    DispatchIndexGeneration.
  rewrite <- Hsq. set (R := PX Res) in *.
  unfold Int32.mul, Int32.sub.
  rewrite (Int32_wrap_small (R - 1)) by lia.
  rewrite (Int32_wrap_small (R * R)) by nia.
  rewrite (Int32_wrap_small ((R - 1) * (R - 1))) by nia.
  rewrite (Int32_wrap_small ((R - 1) * (R - 1) * 6)) by nia.
  rewrite !DivideAndRoundUp_small by nia.
  replace (R + 8 - 1) with (R + 7) by lia.
  replace (R * R + 64 - 1) with (R * R + 63) by lia.
  replace (R - 1 + 8 - 1) with (R - 1 + 7) by lia.
  destruct (NormalCalculationMethod Settings); cbn;
    rewrite <- ?app_assoc; reflexivity.
Qed.

(** ** The resolution of the mesh *)

Lemma CalculateResolution_halves n :
  1 <= n <= 254 ->
  PX (CalculateResolution (F32.of_int n)) = 8 * ((n + 1) / 2) + 1.
Proof.
  intros Hn.
  rewrite (proj1 (CalculateResolution_authored n ltac:(lia))) by lia.
  euclid (Z.max 8 (4 * n) + 7) 8. euclid (n + 1) 2. lia.
Qed.

Lemma FIntPoint_square_eq (P : FIntPoint) r :
  PX P = r -> PX P = PY P -> P = mkIntPoint r r.
Proof. destruct P as [x y]. cbn. intros -> <-. reflexivity. Qed.

(** X4: for an integer factor [n] from 1 to 254,
    [CalculateResolution] returns [8 * ceil(n / 2) + 1] on both axes, so an
    odd factor gives the resolution of the next even factor. *)
Theorem CalculateResolution_odd_factor_rounds_up (n : Z) :
  1 <= n <= 254 ->
  CalculateResolution (F32.of_int n)
  = mkIntPoint (8 * ((n + 1) / 2) + 1) (8 * ((n + 1) / 2) + 1)
  /\ (n mod 2 = 1 ->
      CalculateResolution (F32.of_int n) = CalculateResolution (F32.of_int (n + 1))).
Proof.
  intros Hn.
  assert (H1 : CalculateResolution (F32.of_int n)
               = mkIntPoint (8 * ((n + 1) / 2) + 1) (8 * ((n + 1) / 2) + 1)).
  { apply FIntPoint_square_eq; [apply CalculateResolution_halves; lia
                               | apply CalculateResolution_square]. }
  split; [exact H1|]. intros Hodd. rewrite H1.
  symmetry. apply FIntPoint_square_eq; [|apply CalculateResolution_square].
  rewrite CalculateResolution_halves by (euclid n 2; lia).
  euclid n 2. euclid (n + 1) 2. euclid (n + 1 + 1) 2. lia.
Qed.

(** X5: on the integer factors from 0 to 512, a larger factor never
    gives a smaller resolution. *)
Theorem CalculateResolution_monotone (m n : Z) :
  0 <= m <= n -> n <= 512 ->
  PX (CalculateResolution (F32.of_int m)) <= PX (CalculateResolution (F32.of_int n)).
Proof.
  intros Hm Hn.
  destruct (CalculateResolution_authored m ltac:(lia)) as [Hm1 Hm2].
  destruct (CalculateResolution_authored n ltac:(lia)) as [Hn1 Hn2].
  pose proof (CalculateResolution_bounds (F32.of_int m)) as Bm.
  destruct (Z_le_gt_dec n 254) as [Hs|Hb].
  - rewrite Hm1, Hn1 by lia.
    euclid (Z.max 8 (4 * m) + 7) 8. euclid (Z.max 8 (4 * n) + 7) 8.
    assert ((Z.max 8 (4 * m) + 7) / 8 <= (Z.max 8 (4 * n) + 7) / 8)
      by (apply Z.div_le_mono; lia).
    lia.
  - rewrite Hn2 by lia. lia.
Qed.

(** ** The single-mesh pipeline *)

(** X6: for every settings value, the single-mesh pipeline leaves a
    buffer set of resolution [R = CalculateResolution(factor)] with [R * R]
    vertices and [6 * (R - 1)^2] indices (three per triangle, two triangles
    per cell), computed without 32-bit overflow, all four buffers present
    and sized by these counts. *)
Theorem ExecuteTessellationPipeline_buffers (Graph : FRDGBuilder)
    (Settings : FGPUTessellationSettings) :
  let R := PX (CalculateResolution (F32.of_int (TessellationFactor Settings))) in
  let B := snd (ExecuteTessellationPipeline Graph Settings) in
  BufferResolutionX B = R /\ BufferResolutionY B = R
  /\ VertexCount B = R * R
  /\ IndexCount B = 3 * (2 * ((R - 1) * (R - 1)))
  /\ 81 <= VertexCount B <= 1048576
  /\ 384 <= IndexCount B <= 6279174
  /\ PositionBuffer B = Some (mkRDGBuffer 12 (VertexCount B))
  /\ NormalBuffer B = Some (mkRDGBuffer 12 (VertexCount B))
  /\ UVBuffer B = Some (mkRDGBuffer 8 (VertexCount B))
  /\ IndexBufferRHI B = Some (mkRDGBuffer 4 (IndexCount B)).
Proof.
  cbv zeta. rewrite ExecuteTessellationPipeline_value. cbn [snd].
  pose proof (CalculateResolution_bounds (F32.of_int (TessellationFactor Settings))) as HR.
  set (R := PX (CalculateResolution (F32.of_int (TessellationFactor Settings)))) in *.
  cbn [BufferResolutionX BufferResolutionY VertexCount IndexCount PositionBuffer
       NormalBuffer UVBuffer IndexBufferRHI].
  assert (H1 : 8 <= R - 1 <= 1023) by lia.
  repeat split; try reflexivity; try nia.
Qed.

(** X7: for every resolution from 2 by 2 to 1024 by 1024, each
    dispatch records the smallest number of thread groups that covers its
    work: groups of 8 by 8 over the vertices (vertex generation) or the cells
    (index generation), groups of 64 over the vertices (displacement and
    normals). *)
Theorem Dispatch_groups_cover (Graph : FRDGBuilder)
    (Settings : FGPUTessellationSettings) (Resolution : FIntPoint)
    (Factors : FIntVector4) :
  2 <= PX Resolution <= 1024 -> 2 <= PY Resolution <= 1024 ->
  (exists gx gy,
     fst (DispatchVertexGeneration Graph Settings Resolution)
     = Graph ++ [Pass_VertexGeneration Resolution (UVOffset Settings)
                   (UVScale Settings) gx gy]
     /\ 8 * (gx - 1) < PX Resolution <= 8 * gx
     /\ 8 * (gy - 1) < PY Resolution <= 8 * gy)
  /\ (exists g,
        DispatchDisplacement Graph Resolution = Graph ++ [Pass_Displacement g]
        /\ DispatchNormalCalculation Graph Resolution
           = Graph ++ [Pass_NormalCalculation g]
        /\ 64 * (g - 1) < PX Resolution * PY Resolution <= 64 * g)
  /\ (exists gx gy,
        fst (DispatchIndexGeneration Graph Resolution Factors)
        = Graph ++ [Pass_IndexGeneration Resolution Factors gx gy]
        /\ 8 * (gx - 1) < PX Resolution - 1 <= 8 * gx
        /\ 8 * (gy - 1) < PY Resolution - 1 <= 8 * gy).
Proof.
  intros HX HY.
  unfold DispatchVertexGeneration, DispatchDisplacement, DispatchNormalCalculation,
    DispatchIndexGeneration. cbn [fst].
  unfold Int32.mul, Int32.sub.
  rewrite (Int32_wrap_small (PX Resolution - 1)) by lia.
  rewrite (Int32_wrap_small (PY Resolution - 1)) by lia.
  rewrite (Int32_wrap_small (PX Resolution * PY Resolution)) by nia.
  rewrite !DivideAndRoundUp_small by nia.
  euclid (PX Resolution + 8 - 1) 8. euclid (PY Resolution + 8 - 1) 8.
  euclid (PX Resolution * PY Resolution + 64 - 1) 64.
  euclid (PX Resolution - 1 + 8 - 1) 8. euclid (PY Resolution - 1 + 8 - 1) 8.
  split; [|split].
  - eexists _, _. split; [reflexivity|]. lia.
  - eexists. split; [reflexivity|]. split; [reflexivity|]. lia.
  - eexists _, _. split; [reflexivity|]. lia.
Qed.

Section SinglePatchFacts.
Context `{Geometry : EngineGeometry}.

(** X8: a patch that covers the UV window of the settings, with the
    level of the settings' factor and no edge to collapse, is generated as
    the single mesh is: the same buffer set, and the same compute stages
    appended to the graph (vertex generation, displacement, normals unless
    disabled, index generation), each followed by the pass of its own that
    stores the buffers. *)
Theorem GenerateSinglePatch_full_window (Graph : FRDGBuilder)
    (Settings : FGPUTessellationSettings) (Patch : FGPUTessellationPatchInfo)
    (Out : FGPUTessellationBuffers) :
  0 < TessellationLevel Patch ->
  TessellationFactor Settings = TessellationLevel Patch ->
  PatchOffset Patch = UVOffset Settings ->
  PatchSize Patch = UVScale Settings ->
  InvalidUVParameters Patch = false ->
  EdgeCollapseFactors Patch = mkIntVector4 1 1 1 1 ->
  let Stages :=
    Spec_ComputeStages (NormalCalculationMethod Settings)
      (CalculateResolution (F32.of_int (TessellationFactor Settings)))
      (UVOffset Settings) (UVScale Settings) (mkIntVector4 1 1 1 1) in
  fst (ExecuteTessellationPipeline Graph Settings)
  = Graph ++ Stages ++ [Pass_CreateGPUBufferSRVs]
  /\ GenerateSinglePatch Graph Settings Patch Out
     = (Graph ++ Stages ++ [Pass_CreatePatchBufferSRVs],
        snd (ExecuteTessellationPipeline Graph Settings)).
Proof.
  intros Hlevel Hfactor Hoff Hsize Huv Hedge. cbv zeta.
  pose proof (ExecuteTessellationPipeline_value Graph Settings) as Hmesh.
  pose proof (GenerateSinglePatch_value Graph Settings Patch Out Hlevel Huv) as Hpatch.
  cbv zeta in Hmesh, Hpatch.
  rewrite <- Hfactor, Hoff, Hsize, Hedge in Hpatch.
  rewrite Hmesh, Hpatch. cbn [fst snd]. split; reflexivity.
Qed.

(** X3: for a component that is not in patch mode and whose effective
    factor is from 1 to 512, the constructor of the scene proxy generates
    one mesh, whose resolution is the resolution the component reports
    plus one, capped at 1024; up to the factor 254 the component's
    [GetVertexCount] is therefore smaller than the vertex count of the
    mesh.  In patch mode the constructor generates patches only and the
    buffer set of the single mesh stays empty. *)
Theorem reported_resolution_lags_mesh (DefaultPatchInfo : FGPUTessellationPatchInfo)
    (C : UGPUTessellationComponent) (LocalToWorld : FMatrix)
    (CameraPosition : FVector) :
  1 <= EffectiveTessellationFactor C <= 512 ->
  let Reported := PX (fst (GetTessellationResolution C)) in
  (LODMode (TessellationSettings C) <> LODMode_DistanceBasedPatches ->
   exists Mesh,
     SceneProxy_GenerateMesh DefaultPatchInfo C LocalToWorld CameraPosition
     = Some (Mesh, mkPatchBuffers [] [] 0 0)
     /\ BufferResolutionX Mesh = Z.min 1024 (Reported + 1)
     /\ VertexCount Mesh = Z.min 1024 (Reported + 1) * Z.min 1024 (Reported + 1)
     /\ fst (GetVertexCount C) = Reported * Reported
     /\ (EffectiveTessellationFactor C <= 254 ->
         fst (GetVertexCount C) < VertexCount Mesh))
  /\ (LODMode (TessellationSettings C) = LODMode_DistanceBasedPatches ->
      forall Result,
        SceneProxy_GenerateMesh DefaultPatchInfo C LocalToWorld CameraPosition
        = Some Result ->
        fst Result = Buffers_Empty).
Proof.
  intros He. cbv zeta. unfold SceneProxy_GenerateMesh, SceneProxy_bUsePatchMode.
  split.
  - intros Hmode.
    assert (Hm : LODMode_eqb (LODMode (TessellationSettings C))
                   LODMode_DistanceBasedPatches = false).
    { destruct (LODMode (TessellationSettings C)); try reflexivity. congruence. }
    cbv zeta. rewrite Hm. eexists. split; [reflexivity|].
    rewrite ExecuteTessellationPipeline_value. cbn [snd BufferResolutionX VertexCount].
    unfold GetVertexCount, GetTessellationResolution.
    rewrite CalculateGridResolution_value. cbn [fst PX PY].
    fold (EffectiveTessellationFactor C).
    set (e := EffectiveTessellationFactor C) in *.
    rewrite (Int32_wrap_small (e * 4)) by lia.
    destruct (CalculateResolution_authored e ltac:(lia)) as [H1 H2].
    euclid (Z.max (Z.min (e * 4) 1024) 4 + 7) 8.
    euclid (Z.max 8 (4 * e) + 7) 8.
    set (r := 8 * ((Z.max (Z.min (e * 4) 1024) 4 + 7) / 8)) in *.
    assert (Hr : 8 <= r <= 1024) by (unfold r; lia).
    unfold Int32.mul. rewrite (Int32_wrap_small (r * r)) by nia.
    destruct (Z_le_gt_dec e 254) as [Hs|Hb].
    + rewrite H1 by lia.
      assert (Hq : (Z.max (Z.min (e * 4) 1024) 4 + 7) / 8 = (Z.max 8 (4 * e) + 7) / 8).
      { destruct (Z.eq_dec e 1) as [->|]; [reflexivity|].
        f_equal. lia. }
      unfold r in *. rewrite Hq in *.
      assert ((Z.max 8 (4 * e) + 7) / 8 <= 127) by lia.
      repeat split; lia.
    + rewrite H2 by lia.
      assert ((Z.max (Z.min (e * 4) 1024) 4 + 7) / 8 = 128) by lia.
      unfold r in *. repeat split; lia.
  - intros Hmode Result. rewrite Hmode. cbn [LODMode_eqb]. cbv zeta.
    destruct (SceneProxy_GeneratePatches _ _ _ _ _) as [Run|];
      cbn [mbind option_bind]; [|discriminate].
    intros [= <-]. reflexivity.
Qed.

End SinglePatchFacts.

(** ** The patch grid *)

Lemma CountIf_snoc {A} (f : A -> bool) (arr : list A) (x : A) :
  CountIf f (arr ++ [x]) = CountIf f arr + (if f x then 1 else 0).
Proof.
  unfold CountIf. rewrite List.filter_app, length_app. cbn [List.filter].
  destruct (f x); cbn [length]; lia.
Qed.

Lemma CountIf_nonneg {A} (f : A -> bool) (arr : list A) : 0 <= CountIf f arr.
Proof. unfold CountIf. lia. Qed.

Section AccountingFacts.
Context `{Geometry : EngineGeometry}.

Lemma GeneratePatches_counts (Settings : FGPUTessellationSettings)
    (Info : list FGPUTessellationPatchInfo) (Graph : FRDGBuilder)
    (Bufs : list FGPUTessellationBuffers) :
  TArray.Num Bufs = TArray.Num Info ->
  TArray.Num Info <= Int32.MAX ->
  exists St,
    GeneratePatches Settings Info (TArray.Num Info) (mkLoopState Graph Bufs 0 0 0)
    = Some St
    /\ SkippedCulled St = CountIf (fun P => negb (bVisible P)) Info
    /\ SkippedInvalidLOD St
       = CountIf (fun P => bVisible P && (TessellationLevel P <=? 0)) Info
    /\ GeneratedSuccessfully St
       = CountIf (fun P => bVisible P && (0 <? TessellationLevel P)) Info
    /\ SkippedCulled St + SkippedInvalidLOD St + GeneratedSuccessfully St
       = TArray.Num Info.
Proof.
  intros Hnum Hfit. unfold GeneratePatches.
  set (f1 := fun P : FGPUTessellationPatchInfo => negb (bVisible P)).
  set (f2 := fun P : FGPUTessellationPatchInfo =>
               bVisible P && (TessellationLevel P <=? 0)).
  set (f3 := fun P : FGPUTessellationPatchInfo =>
               bVisible P && (0 <? TessellationLevel P)).
  destruct (for_range_invariant
              (fun i St =>
                 TArray.Num (LoopBuffers St) = TArray.Num Info
                 /\ SkippedCulled St = CountIf f1 (take (Z.to_nat i) Info)
                 /\ SkippedInvalidLOD St = CountIf f2 (take (Z.to_nat i) Info)
                 /\ GeneratedSuccessfully St = CountIf f3 (take (Z.to_nat i) Info)
                 /\ SkippedCulled St + SkippedInvalidLOD St + GeneratedSuccessfully St
                    = i)
              (TArray.Num Info) (GeneratePatch_step Settings Info)
              (mkLoopState Graph Bufs 0 0 0))
    as (St & Hrun & HB & H1 & H2 & H3 & Hsum).
  - cbn. repeat split; try reflexivity. exact Hnum.
  - intros i St Hi (HB & H1 & H2 & H3 & Hsum).
    destruct (TArray_get_in_range Info i Hi) as (P & HP).
    pose proof (proj1 (TArray_get_Some Info i P) HP) as [_ HPl].
    assert (Htake : take (Z.to_nat (i + 1)) Info = take (Z.to_nat i) Info ++ [P]).
    { replace (Z.to_nat (i + 1)) with (S (Z.to_nat i)) by lia.
      apply take_S_r. exact HPl. }
    rewrite Htake, !CountIf_snoc.
    pose proof (CountIf_nonneg f1 (take (Z.to_nat i) Info)).
    pose proof (CountIf_nonneg f2 (take (Z.to_nat i) Info)).
    pose proof (CountIf_nonneg f3 (take (Z.to_nat i) Info)).
    unfold Int32.MAX in Hfit.
    destruct (TArray_get_in_range (LoopBuffers St) i ltac:(lia)) as (B & HBuf).
    unfold GeneratePatch_step. rewrite HP. cbn [mbind option_bind].
    unfold f1, f2, f3 in *. cbv beta.
    destruct (bVisible P); cbn [negb andb].
    + destruct (TessellationLevel P <=? 0) eqn:E.
      * rewrite HBuf. cbn [mbind option_bind].
        rewrite TArray_set_in_range by lia. cbn [mbind option_bind].
        eexists. split; [reflexivity|].
        cbn [LoopBuffers SkippedCulled SkippedInvalidLOD GeneratedSuccessfully].
        rewrite TArray_Num_insert.
        replace (0 <? TessellationLevel P) with false by (symmetry; apply Z.ltb_ge; lia).
        unfold Int32.add. rewrite Int32_wrap_small by lia.
        repeat split; lia.
      * rewrite HBuf. cbn [mbind option_bind].
        destruct (GenerateSinglePatch (LoopGraph St) Settings P B) as [G' B'].
        rewrite TArray_set_in_range by lia. cbn [mbind option_bind].
        eexists. split; [reflexivity|].
        cbn [LoopBuffers SkippedCulled SkippedInvalidLOD GeneratedSuccessfully].
        rewrite TArray_Num_insert.
        replace (0 <? TessellationLevel P) with true by (symmetry; apply Z.ltb_lt; lia).
        unfold Int32.add. rewrite Int32_wrap_small by lia.
        repeat split; lia.
    + rewrite HBuf. cbn [mbind option_bind].
      rewrite TArray_set_in_range by lia. cbn [mbind option_bind].
      eexists. split; [reflexivity|].
      cbn [LoopBuffers SkippedCulled SkippedInvalidLOD GeneratedSuccessfully].
      rewrite TArray_Num_insert.
      unfold Int32.add. rewrite Int32_wrap_small by lia.
      repeat split; lia.
  - exists St. split; [exact Hrun|].
    assert (Hall : take (Z.to_nat (Z.max 0 (TArray.Num Info))) Info = Info).
    { apply take_ge. unfold TArray.Num. lia. }
    rewrite Hall in *.
    repeat split; try assumption. unfold TArray.Num in *. lia.
Qed.

End AccountingFacts.

Lemma PatchUVWindow_check :
  forallb (fun Count =>
    forallb (fun X =>
      negb (F32.ltb (PatchUVOffset Count X) F32.zero)
      && negb (F32.gtb (PatchUVOffset Count X) F32.one)
      && negb (F32.leb (PatchUVSize Count) F32.zero)
      && negb (F32.gtb (PatchUVSize Count) F32.one))
      (ZRange 0 (Count - 1)))
    (ZRange 1 32) = true.
Proof. vm_compute. reflexivity. Qed.

Lemma PatchUVWindow_valid Count X :
  1 <= Count <= 32 -> 0 <= X < Count ->
  F32.ltb (PatchUVOffset Count X) F32.zero = false
  /\ F32.gtb (PatchUVOffset Count X) F32.one = false
  /\ F32.leb (PatchUVSize Count) F32.zero = false
  /\ F32.gtb (PatchUVSize Count) F32.one = false.
Proof.
  intros HC HX.
  pose proof (forallb_ZRange _ 1 32 PatchUVWindow_check Count HC) as H.
  cbv beta in H.
  pose proof (forallb_ZRange _ 0 (Count - 1) H X ltac:(lia)) as H'.
  cbv beta in H'.
  repeat (apply andb_prop in H'; destruct H' as [H' ?]).
  repeat match goal with
         | H : negb _ = true |- _ => apply negb_true_iff in H
         end.
  repeat split; assumption.
Qed.

Lemma CalculateResolution_level L :
  IsPatchTessellation L ->
  CalculateResolution (F32.of_int L) = mkIntPoint (4 * L + 1) (4 * L + 1).
Proof.
  intros [->|[->|[->|[->|[->| ->]]]]]; vm_compute; reflexivity.
Qed.

Section DescriptorFacts.
Context `{Geometry : EngineGeometry}.

Lemma CalculatePatchInfo_patch_fields Settings LocalToWorld CameraPosition
    ViewFrustum CountX CountY X Y Old :
  let P := CalculatePatchInfo_patch Settings LocalToWorld CameraPosition
             ViewFrustum CountX CountY X Y Old in
  PatchIndexX P = X /\ PatchIndexY P = Y
  /\ PatchOffset P = mkVector2f (PatchUVOffset CountX X) (PatchUVOffset CountY Y)
  /\ PatchSize P = mkVector2f (PatchUVSize CountX) (PatchUVSize CountY)
  /\ IsPatchTessellation (TessellationLevel P)
  /\ ResolutionX P = 4 * TessellationLevel P + 1
  /\ ResolutionY P = 4 * TessellationLevel P + 1
  /\ (ViewFrustum = None -> bVisible P = true)
  /\ (bEnablePatchCulling Settings = false -> bVisible P = true)
  /\ EdgeCollapseFactors P = EdgeCollapseFactors Old.
Proof.
  cbv zeta. unfold CalculatePatchInfo_patch.
  cbn [PatchIndexX PatchIndexY PatchOffset PatchSize TessellationLevel
       ResolutionX ResolutionY bVisible EdgeCollapseFactors].
  set (L := CalculatePatchTessellationLevel _ Settings).
  assert (HL : IsPatchTessellation L) by apply CalculatePatchTessellationLevel_set.
  rewrite (CalculateResolution_level L HL). cbn [PX PY].
  repeat split; try reflexivity; try exact HL.
  - intros ->. reflexivity.
  - intros ->. destruct ViewFrustum; reflexivity.
Qed.

Lemma InvalidUVParameters_window (P : FGPUTessellationPatchInfo) CountX CountY X Y :
  1 <= CountX <= 32 -> 1 <= CountY <= 32 ->
  0 <= X < CountX -> 0 <= Y < CountY ->
  PatchOffset P = mkVector2f (PatchUVOffset CountX X) (PatchUVOffset CountY Y) ->
  PatchSize P = mkVector2f (PatchUVSize CountX) (PatchUVSize CountY) ->
  InvalidUVParameters P = false.
Proof.
  intros HCX HCY HX HY Hoff Hsize. unfold InvalidUVParameters.
  rewrite Hoff, Hsize. cbn [V2X V2Y].
  destruct (PatchUVWindow_valid CountX X HCX HX) as (-> & -> & -> & ->).
  destruct (PatchUVWindow_valid CountY Y HCY HY) as (-> & -> & -> & ->).
  reflexivity.
Qed.

(** X10: for patch counts from 1 to 32 on each axis,
    [CalculatePatchInfo] fills one description per grid position, with the
    indices of its position, the UV window [(X / CountX, Y / CountY)] of size
    [(1 / CountX, 1 / CountY)] as computed in single precision, which passes
    the UV validation of [GenerateSinglePatch], a level among 4 .. 128 and
    the resolution [4 * level + 1]. *)
Theorem CalculatePatchInfo_descriptors
    (DefaultPatchInfo : FGPUTessellationPatchInfo)
    (Settings : FGPUTessellationSettings) (LocalToWorld : FMatrix)
    (CameraPosition : FVector) (ViewFrustum : option FConvexVolume)
    (CountX CountY : Z) (Out : list FGPUTessellationPatchInfo) :
  1 <= CountX <= 32 -> 1 <= CountY <= 32 ->
  exists Info,
    CalculatePatchInfo DefaultPatchInfo Settings LocalToWorld CameraPosition
      ViewFrustum CountX CountY Out = Some Info
    /\ TArray.Num Info = CountX * CountY
    /\ forall X Y, 0 <= X < CountX -> 0 <= Y < CountY ->
         exists P,
           Info !! Z.to_nat (GridIndex CountX X Y) = Some P
           /\ PatchIndexX P = X /\ PatchIndexY P = Y
           /\ PatchOffset P
              = mkVector2f (PatchUVOffset CountX X) (PatchUVOffset CountY Y)
           /\ PatchSize P = mkVector2f (PatchUVSize CountX) (PatchUVSize CountY)
           /\ InvalidUVParameters P = false
           /\ IsPatchTessellation (TessellationLevel P)
           /\ ResolutionX P = 4 * TessellationLevel P + 1
           /\ ResolutionY P = 4 * TessellationLevel P + 1.
Proof.
  intros HCX HCY.
  destruct (CalculatePatchInfo_total DefaultPatchInfo Settings LocalToWorld
              CameraPosition ViewFrustum CountX CountY ltac:(lia) ltac:(lia)
              ltac:(unfold Int32.MAX; nia) Out) as (Info & Hrun & Hnum & Hall).
  exists Info. split; [exact Hrun|]. split; [exact Hnum|].
  intros X Y HX HY. destruct (Hall X Y HX HY) as (Old & HP).
  eexists. split; [exact HP|].
  destruct (CalculatePatchInfo_patch_fields Settings LocalToWorld CameraPosition
              ViewFrustum CountX CountY X Y Old)
    as (H1 & H2 & H3 & H4 & H5 & H6 & H7 & _).
  cbv zeta in *.
  repeat split; try assumption.
  apply (InvalidUVParameters_window _ CountX CountY X Y); assumption.
Qed.

End DescriptorFacts.

Section EdgeFactorFacts.
Context `{Geometry : EngineGeometry}.

Lemma GridNeighbor_inside CountX CountY (Info : list FGPUTessellationPatchInfo) X Y :
  0 <= X < CountX -> 0 <= Y < CountY ->
  GridNeighbor CountX CountY Info X Y = Info !! Z.to_nat (GridIndex CountX X Y).
Proof.
  intros HX HY. unfold GridNeighbor.
  rewrite (proj2 (Z.ltb_ge X 0)), (proj2 (Z.leb_gt CountX X)),
    (proj2 (Z.ltb_ge Y 0)), (proj2 (Z.leb_gt CountY Y)) by lia.
  reflexivity.
Qed.

Lemma GridNeighbor_outside CountX CountY (Info : list FGPUTessellationPatchInfo) X Y :
  X < 0 \/ CountX <= X \/ Y < 0 \/ CountY <= Y ->
  GridNeighbor CountX CountY Info X Y = None.
Proof.
  intros H. unfold GridNeighbor.
  destruct (X <? 0) eqn:E1; [reflexivity|].
  destruct (CountX <=? X) eqn:E2; [reflexivity|].
  destruct (Y <? 0) eqn:E3; [reflexivity|].
  destruct (CountY <=? Y) eqn:E4; [reflexivity|]. lia.
Qed.

Lemma ComputeFactor_range (P : FGPUTessellationPatchInfo) N b :
  1 <= ComputeFactor P N b <= 64.
Proof.
  unfold ComputeFactor. destruct N as [N|]; [|lia].
  repeat match goal with
         | |- context [if ?c then _ else _] => destruct c
         end; try lia; rewrite FMath_Clamp_spec; lia.
Qed.

Lemma ComputeFactor_one_sided (P N : FGPUTessellationPatchInfo) b :
  ComputeFactor P (Some N) b = 1 \/ ComputeFactor N (Some P) b = 1.
Proof.
  unfold ComputeFactor.
  destruct (ResolutionX P <=? 0), (ResolutionY P <=? 0),
    (ResolutionX N <=? 0), (ResolutionY N <=? 0); cbn [orb]; auto.
  destruct (TessellationLevel P <=? TessellationLevel N) eqn:E1; [auto|].
  destruct (TessellationLevel N <=? TessellationLevel P) eqn:E2; [auto|]. lia.
Qed.

(** Between two patches leveled by the pipeline, the factor toward a
    coarser neighbour is the ratio of the levels, and it divides the
    segments exactly. *)
Lemma ComputeFactor_leveled (P N : FGPUTessellationPatchInfo) b :
  IsPatchTessellation (TessellationLevel P) ->
  IsPatchTessellation (TessellationLevel N) ->
  ResolutionX P = 4 * TessellationLevel P + 1 ->
  ResolutionY P = 4 * TessellationLevel P + 1 ->
  ResolutionX N = 4 * TessellationLevel N + 1 ->
  ResolutionY N = 4 * TessellationLevel N + 1 ->
  ComputeFactor P (Some N) b
  = (if TessellationLevel N <? TessellationLevel P
     then TessellationLevel P / TessellationLevel N else 1)
  /\ (TessellationLevel N < TessellationLevel P ->
      ComputeFactor P (Some N) b * (4 * TessellationLevel N)
      = 4 * TessellationLevel P).
Proof.
  intros HP HN. unfold ComputeFactor. intros -> -> -> ->.
  destruct HP as [->|[->|[->|[->|[->| ->]]]]];
    destruct HN as [->|[->|[->|[->|[->| ->]]]]];
    destruct b; (split; [vm_compute; reflexivity|]);
    first [ intros H; exfalso; lia | intros _; vm_compute; reflexivity ].
Qed.

End EdgeFactorFacts.

Section PipelineRun.

Context `{Geometry : EngineGeometry}.
Variable DefaultPatchInfo : FGPUTessellationPatchInfo.
Variables (Settings : FGPUTessellationSettings) (LocalToWorld : FMatrix)
          (CameraPosition : FVector) (ViewFrustum : option FConvexVolume).
Variables CountX CountY : Z.
Hypothesis CountX_pos : 0 < CountX.
Hypothesis CountY_pos : 0 < CountY.
Hypothesis Count_fits : CountX * CountY <= Int32.MAX.

(** The run of the pipeline, with the patch at every grid position and
    the counters of the loop. *)
Lemma ExecutePatchTessellationPipeline_run Graph
    (Out : FGPUTessellationPatchBuffers) :
  exists Info0 Info St,
    ExecutePatchTessellationPipeline DefaultPatchInfo Graph Settings
      LocalToWorld CameraPosition ViewFrustum CountX CountY Out
    = Some (mkPatchBuffers (LoopBuffers St) Info CountX CountY, St)
    /\ TArray.Num Info0 = CountX * CountY
    /\ TArray.Num Info = CountX * CountY
    /\ TArray.Num (LoopBuffers St) = CountX * CountY
    /\ (forall X Y, 0 <= X < CountX -> 0 <= Y < CountY ->
          exists Old,
            let P := CalculatePatchInfo_patch Settings LocalToWorld CameraPosition
                       ViewFrustum CountX CountY X Y Old in
            Info0 !! Z.to_nat (GridIndex CountX X Y) = Some P
            /\ Info !! Z.to_nat (GridIndex CountX X Y)
               = Some (SetEdgeCollapseFactors P
                         (EdgeFactorsOf CountX CountY Info0 X Y P)))
    /\ (forall i P, Info !! i = Some P ->
          LoopBuffers St !! i = Some (PatchOutcome Settings P))
    /\ SkippedCulled St = CountIf (fun P => negb (bVisible P)) Info
    /\ SkippedInvalidLOD St
       = CountIf (fun P => bVisible P && (TessellationLevel P <=? 0)) Info
    /\ GeneratedSuccessfully St
       = CountIf (fun P => bVisible P && (0 <? TessellationLevel P)) Info.
Proof using CountX_pos CountY_pos Count_fits.
  destruct (CalculatePatchInfo_total DefaultPatchInfo Settings LocalToWorld
              CameraPosition ViewFrustum CountX CountY CountX_pos CountY_pos
              Count_fits []) as (Info0 & Hcalc & Hnum0 & Hall0).
  destruct (ComputePatchEdgeTransitions_total CountX CountY CountX_pos
              CountY_pos Count_fits Info0 Hnum0) as (Info & Hedge & Hnum & Hall).
  destruct (TArray_SetNum_Some Buffers_Empty (PatchBuffers Out) (CountX * CountY))
    as (Bufs & HBufs); [nia|].
  pose proof (TArray_SetNum_Num _ _ _ _ HBufs) as HnumB.
  destruct (GeneratePatches_total Settings Info (mkLoopState Graph Bufs 0 0 0))
    as (St & Hrun & HnumSt & Hout & _).
  { cbn [LoopBuffers]. congruence. }
  destruct (GeneratePatches_counts Settings Info Graph Bufs)
    as (St' & Hrun' & Hc1 & Hc2 & Hc3 & _);
    [congruence | rewrite Hnum; exact Count_fits |].
  rewrite Hrun in Hrun'. injection Hrun' as <-.
  exists Info0, Info, St. split.
  { unfold ExecutePatchTessellationPipeline.
    destruct (0 <? CountX) eqn:E1; [|lia].
    destruct (0 <? CountY) eqn:E2; [|lia]. cbn [andb negb].
    rewrite Hcalc. cbn [mbind option_bind]. rewrite Hedge. cbn [mbind option_bind].
    rewrite (GridIndex_mul_fits CountX CountY CountX_pos CountY_pos Count_fits).
    rewrite HBufs. cbn [mbind option_bind].
    rewrite <- Hnum, Hrun. reflexivity. }
  split; [exact Hnum0|]. split; [exact Hnum|]. split; [congruence|].
  split; [|split; [exact Hout|]; split; [exact Hc1|]; split; [exact Hc2 | exact Hc3]].
  intros X Y HX HY.
  destruct (Hall0 X Y HX HY) as (Old & HOld).
  destruct (Hall X Y HX HY) as (P & HP & HP').
  exists Old. cbv zeta. split; [exact HOld|].
  rewrite HOld in HP. injection HP as <-. exact HP'.
Qed.

End PipelineRun.

Lemma CountIf_all {A} (f : A -> bool) (arr : list A) :
  (forall x, In x arr -> f x = true) -> CountIf f arr = TArray.Num arr.
Proof.
  intros H. unfold CountIf, TArray.Num. f_equal.
  induction arr as [|x arr IH]; [reflexivity|].
  cbn [List.filter]. rewrite H by (left; reflexivity). cbn [length].
  f_equal. apply IH. intros y Hy. apply H. right. exact Hy.
Qed.

Lemma CountIf_none {A} (f : A -> bool) (arr : list A) :
  (forall x, In x arr -> f x = false) -> CountIf f arr = 0.
Proof.
  intros H. unfold CountIf.
  induction arr as [|x arr IH]; [reflexivity|].
  cbn [List.filter]. rewrite H by (left; reflexivity).
  apply IH. intros y Hy. apply H. right. exact Hy.
Qed.

Section GridProperties.
Context `{Geometry : EngineGeometry}.

(** X9: the generation loop accounts for every patch once: the
    culled count is the number of invisible patches, the invalid-LOD count
    the number of visible patches without a positive level, the generated
    count the number of visible patches with a positive level (whether or
    not [GenerateSinglePatch] then aborts), and the three add up to the
    number of patches. *)
Theorem GeneratePatches_accounting (Settings : FGPUTessellationSettings)
    (Info : list FGPUTessellationPatchInfo) (Graph : FRDGBuilder)
    (Bufs : list FGPUTessellationBuffers) :
  TArray.Num Bufs = TArray.Num Info ->
  TArray.Num Info <= Int32.MAX ->
  exists St,
    GeneratePatches Settings Info (TArray.Num Info) (mkLoopState Graph Bufs 0 0 0)
    = Some St
    /\ SkippedCulled St = CountIf (fun P => negb (bVisible P)) Info
    /\ SkippedInvalidLOD St
       = CountIf (fun P => bVisible P && (TessellationLevel P <=? 0)) Info
    /\ GeneratedSuccessfully St
       = CountIf (fun P => bVisible P && (0 <? TessellationLevel P)) Info
    /\ SkippedCulled St + SkippedInvalidLOD St + GeneratedSuccessfully St
       = TArray.Num Info.
Proof.
  intros Hnum Hfit.
  destruct (GeneratePatches_counts Settings Info Graph Bufs Hnum Hfit)
    as (St & Hrun & Hculled & Hinvalid & Hgenerated & Hsum).
  exists St. split; [exact Hrun|].
  split; [exact Hculled|]. split; [exact Hinvalid|].
  split; [exact Hgenerated | exact Hsum].
Qed.

(** X13: in every grid, whatever the levels and resolutions,
    [ComputePatchEdgeTransitions] leaves every factor between 1 and 64, the
    factor toward an edge of the grid at 1, and on every shared edge at most
    one of the two facing factors different from 1. *)
Theorem ComputePatchEdgeTransitions_factors (CountX CountY : Z)
    (Info : list FGPUTessellationPatchInfo) :
  0 < CountX -> 0 < CountY -> CountX * CountY <= Int32.MAX ->
  TArray.Num Info = CountX * CountY ->
  exists Info',
    ComputePatchEdgeTransitions CountX CountY Info = Some Info'
    /\ forall X Y, 0 <= X < CountX -> 0 <= Y < CountY ->
         exists P',
           Info' !! Z.to_nat (GridIndex CountX X Y) = Some P'
           /\ 1 <= IX (EdgeCollapseFactors P') <= 64
           /\ 1 <= IY (EdgeCollapseFactors P') <= 64
           /\ 1 <= IZ (EdgeCollapseFactors P') <= 64
           /\ 1 <= IW (EdgeCollapseFactors P') <= 64
           /\ (X = 0 -> IX (EdgeCollapseFactors P') = 1)
           /\ (X = CountX - 1 -> IY (EdgeCollapseFactors P') = 1)
           /\ (Y = 0 -> IZ (EdgeCollapseFactors P') = 1)
           /\ (Y = CountY - 1 -> IW (EdgeCollapseFactors P') = 1)
           /\ (forall N', X + 1 < CountX ->
                 Info' !! Z.to_nat (GridIndex CountX (X + 1) Y) = Some N' ->
                 IY (EdgeCollapseFactors P') = 1 \/ IX (EdgeCollapseFactors N') = 1)
           /\ (forall N', Y + 1 < CountY ->
                 Info' !! Z.to_nat (GridIndex CountX X (Y + 1)) = Some N' ->
                 IW (EdgeCollapseFactors P') = 1 \/ IZ (EdgeCollapseFactors N') = 1).
Proof.
  intros HCX HCY Hfit Hnum.
  destruct (ComputePatchEdgeTransitions_total CountX CountY HCX HCY Hfit Info Hnum)
    as (Info' & Hrun & _ & Hall).
  exists Info'. split; [exact Hrun|]. intros X Y HX HY.
  destruct (Hall X Y HX HY) as (P & HP & HP').
  eexists. split; [exact HP'|].
  cbn [SetEdgeCollapseFactors EdgeCollapseFactors EdgeFactorsOf IX IY IZ IW].
  split; [apply ComputeFactor_range|]. split; [apply ComputeFactor_range|].
  split; [apply ComputeFactor_range|]. split; [apply ComputeFactor_range|].
  split; [|split; [|split; [|split; [|split]]]].
  - intros ->. rewrite GridNeighbor_outside by lia. reflexivity.
  - intros ->. rewrite GridNeighbor_outside by lia. reflexivity.
  - intros ->. rewrite GridNeighbor_outside by lia. reflexivity.
  - intros ->. rewrite GridNeighbor_outside by lia. reflexivity.
  - intros N' HX1 HN'.
    destruct (Hall (X + 1) Y ltac:(lia) HY) as (N & HN & HN2).
    rewrite HN2 in HN'. injection HN' as <-.
    cbn [SetEdgeCollapseFactors EdgeCollapseFactors EdgeFactorsOf IX].
    replace (X + 1 - 1) with X by lia.
    rewrite !GridNeighbor_inside by lia. rewrite HP, HN.
    apply ComputeFactor_one_sided.
  - intros N' HY1 HN'.
    destruct (Hall X (Y + 1) HX ltac:(lia)) as (N & HN & HN2).
    rewrite HN2 in HN'. injection HN' as <-.
    cbn [SetEdgeCollapseFactors EdgeCollapseFactors EdgeFactorsOf IZ].
    replace (Y + 1 - 1) with Y by lia.
    rewrite !GridNeighbor_inside by lia. rewrite HP, HN.
    apply ComputeFactor_one_sided.
Qed.

(** X12: in the grid the patch pipeline produces, the factor of a patch
    toward a strictly coarser neighbour times the neighbour's segments along
    the shared edge is exactly the patch's own segments, and the factor
    toward any other neighbour is 1. *)
Theorem pipeline_seams_line_up
    (DefaultPatchInfo : FGPUTessellationPatchInfo) (Graph : FRDGBuilder)
    (Settings : FGPUTessellationSettings) (LocalToWorld : FMatrix)
    (CameraPosition : FVector) (ViewFrustum : option FConvexVolume)
    (CountX CountY : Z) (Out : FGPUTessellationPatchBuffers) :
  0 < CountX -> 0 < CountY -> CountX * CountY <= Int32.MAX ->
  exists Result St,
    ExecutePatchTessellationPipeline DefaultPatchInfo Graph Settings
      LocalToWorld CameraPosition ViewFrustum CountX CountY Out
    = Some (Result, St)
    /\ forall X Y, 0 <= X < CountX -> 0 <= Y < CountY ->
         exists P,
           PatchInfo Result !! Z.to_nat (GridIndex CountX X Y) = Some P
           /\ (forall N,
                 GridNeighbor CountX CountY (PatchInfo Result) (X - 1) Y = Some N ->
                 (TessellationLevel N < TessellationLevel P ->
                  IX (EdgeCollapseFactors P) * (ResolutionY N - 1)
                  = ResolutionY P - 1)
                 /\ (TessellationLevel P <= TessellationLevel N ->
                     IX (EdgeCollapseFactors P) = 1))
           /\ (forall N,
                 GridNeighbor CountX CountY (PatchInfo Result) (X + 1) Y = Some N ->
                 (TessellationLevel N < TessellationLevel P ->
                  IY (EdgeCollapseFactors P) * (ResolutionY N - 1)
                  = ResolutionY P - 1)
                 /\ (TessellationLevel P <= TessellationLevel N ->
                     IY (EdgeCollapseFactors P) = 1))
           /\ (forall N,
                 GridNeighbor CountX CountY (PatchInfo Result) X (Y - 1) = Some N ->
                 (TessellationLevel N < TessellationLevel P ->
                  IZ (EdgeCollapseFactors P) * (ResolutionX N - 1)
                  = ResolutionX P - 1)
                 /\ (TessellationLevel P <= TessellationLevel N ->
                     IZ (EdgeCollapseFactors P) = 1))
           /\ (forall N,
                 GridNeighbor CountX CountY (PatchInfo Result) X (Y + 1) = Some N ->
                 (TessellationLevel N < TessellationLevel P ->
                  IW (EdgeCollapseFactors P) * (ResolutionX N - 1)
                  = ResolutionX P - 1)
                 /\ (TessellationLevel P <= TessellationLevel N ->
                     IW (EdgeCollapseFactors P) = 1)).
Proof.
  intros HCX HCY Hfit.
  destruct (ExecutePatchTessellationPipeline_run DefaultPatchInfo Settings
              LocalToWorld CameraPosition ViewFrustum CountX CountY HCX HCY Hfit
              Graph Out)
    as (Info0 & Info & St & Hrun & Hnum0 & Hnum & _ & Hall & _).
  eexists _, St. split; [exact Hrun|]. cbn [PatchInfo].
  intros X Y HX HY. destruct (Hall X Y HX HY) as (Old & HP0 & HP).
  cbv zeta in HP0, HP. eexists. split; [exact HP|].
  set (P := CalculatePatchInfo_patch Settings LocalToWorld CameraPosition
              ViewFrustum CountX CountY X Y Old) in *.
  destruct (CalculatePatchInfo_patch_fields Settings LocalToWorld CameraPosition
              ViewFrustum CountX CountY X Y Old)
    as (_ & _ & _ & _ & HL & HRX & HRY & _).
  cbv zeta in HL, HRX, HRY. fold P in HL, HRX, HRY.
  cbn [SetEdgeCollapseFactors EdgeCollapseFactors EdgeFactorsOf IX IY IZ IW
       ResolutionX ResolutionY TessellationLevel].
  assert (Hneighbor : forall NX NY N b,
            GridNeighbor CountX CountY Info NX NY = Some N ->
            ResolutionX N = 4 * TessellationLevel N + 1
            /\ ResolutionY N = 4 * TessellationLevel N + 1
            /\ (TessellationLevel N < TessellationLevel P ->
                ComputeFactor P (GridNeighbor CountX CountY Info0 NX NY) b
                  * (4 * TessellationLevel N) = 4 * TessellationLevel P)
            /\ (TessellationLevel P <= TessellationLevel N ->
                ComputeFactor P (GridNeighbor CountX CountY Info0 NX NY) b = 1)).
  { intros NX NY N b HN.
    assert (HNX : 0 <= NX < CountX /\ 0 <= NY < CountY).
    { destruct (Z_lt_dec NX 0); [rewrite GridNeighbor_outside in HN by lia; discriminate|].
      destruct (Z_le_dec CountX NX); [rewrite GridNeighbor_outside in HN by lia; discriminate|].
      destruct (Z_lt_dec NY 0); [rewrite GridNeighbor_outside in HN by lia; discriminate|].
      destruct (Z_le_dec CountY NY); [rewrite GridNeighbor_outside in HN by lia; discriminate|].
      lia. }
    destruct HNX as [HNX HNY].
    rewrite GridNeighbor_inside in HN by assumption.
    rewrite GridNeighbor_inside by assumption.
    destruct (Hall NX NY HNX HNY) as (Old' & HN0 & HN').
    cbv zeta in HN0, HN'. rewrite HN' in HN. injection HN as <-. rewrite HN0.
    set (N0 := CalculatePatchInfo_patch Settings LocalToWorld CameraPosition
                 ViewFrustum CountX CountY NX NY Old') in *.
    destruct (CalculatePatchInfo_patch_fields Settings LocalToWorld CameraPosition
                ViewFrustum CountX CountY NX NY Old')
      as (_ & _ & _ & _ & HLN & HRXN & HRYN & _).
    cbv zeta in HLN, HRXN, HRYN. fold N0 in HLN, HRXN, HRYN.
    cbn [SetEdgeCollapseFactors TessellationLevel ResolutionX ResolutionY].
    destruct (ComputeFactor_leveled P N0 b HL HLN HRX HRY HRXN HRYN) as [Hv Hm].
    split; [exact HRXN|]. split; [exact HRYN|]. split; [exact Hm|].
    intros Hle. rewrite Hv. rewrite (proj2 (Z.ltb_ge _ _)) by lia. reflexivity. }
  rewrite HRX, HRY.
  repeat split; intros;
    match goal with
    | HN : GridNeighbor _ _ Info ?NX ?NY = Some ?N
      |- context [ComputeFactor _ (GridNeighbor _ _ _ ?NX ?NY) ?b] =>
        destruct (Hneighbor NX NY N b HN) as (HNRX & HNRY & Hfiner & Hcoarser);
        rewrite ?HNRX, ?HNRY; first [ apply Hcoarser; assumption
                                    | specialize (Hfiner ltac:(assumption)); lia ]
    end.
Qed.

End GridProperties.

Lemma ZRange_snoc n : 0 <= n -> ZRange 0 n = ZRange 0 (n - 1) ++ [n].
Proof.
  intros Hn. unfold ZRange.
  replace (Z.to_nat (n - 0 + 1)) with (S (Z.to_nat n)) by lia.
  replace (Z.to_nat (n - 1 - 0 + 1)) with (Z.to_nat n) by lia.
  rewrite seq_S, map_app. cbn [map]. f_equal. f_equal. lia.
Qed.

Lemma ZRange_all n (f : Z -> bool) :
  (forall i, 0 <= i <= n -> f i = true) -> List.filter f (ZRange 0 n) = ZRange 0 n.
Proof.
  intros H. apply forallb_filter_id. apply forallb_forall.
  intros i Hi. apply H. unfold ZRange in Hi.
  apply in_map_iff in Hi. destruct Hi as (k & <- & Hk).
  apply in_seq in Hk. lia.
Qed.

(** ** Generation and rendering of the patches by the scene proxy *)

Section ProxyGenerationFacts.
Context `{Geometry : EngineGeometry}.

(** The buffer set of a patch that passes every test. *)
Lemma PatchOutcome_generated Settings (P : FGPUTessellationPatchInfo) :
  bVisible P = true -> 0 < TessellationLevel P ->
  InvalidUVParameters P = false ->
  let R := PX (CalculateResolution (F32.of_int (TessellationLevel P))) in
  PatchOutcome Settings P
  = mkBuffers (Some (mkRDGBuffer 12 (R * R))) (Some (mkRDGBuffer 12 (R * R)))
      (Some (mkRDGBuffer 8 (R * R)))
      (Some (mkRDGBuffer 4 ((R - 1) * (R - 1) * 6)))
      (R * R) ((R - 1) * (R - 1) * 6) R R.
Proof.
  intros Hvis Hlevel Huv. cbv zeta. unfold PatchOutcome, GenerateSinglePatch.
  rewrite Hvis, Huv. cbn [negb].
  rewrite (proj2 (Z.leb_gt _ _)) by lia.
  pose proof (CalculateResolution_bounds (F32.of_int (TessellationLevel P))) as HR.
  pose proof (CalculateResolution_square (F32.of_int (TessellationLevel P))) as Hsq.
  set (Res := CalculateResolution (F32.of_int (TessellationLevel P))) in *.
  cbv zeta. rewrite <- Hsq. set (R := PX Res) in *.
  rewrite (proj2 (Z.ltb_ge R 2)) by lia. cbn [orb].
  unfold Int32.mul, Int32.sub.
  rewrite (Int32_wrap_small (R - 1)) by lia.
  rewrite (Int32_wrap_small (R * R)) by nia.
  rewrite (Int32_wrap_small ((R - 1) * (R - 1))) by nia.
  rewrite (Int32_wrap_small ((R - 1) * (R - 1) * 6)) by nia.
  rewrite (proj2 (Z.leb_gt (R * R) 0)) by nia.
  rewrite (proj2 (Z.leb_gt ((R - 1) * (R - 1) * 6) 0)) by nia.
  cbn [orb].
  unfold DispatchVertexGeneration, DispatchIndexGeneration.
  unfold Int32.mul, Int32.sub.
  rewrite <- Hsq. fold R.
  rewrite (Int32_wrap_small (R - 1)) by lia.
  rewrite (Int32_wrap_small (R * R)) by nia.
  rewrite (Int32_wrap_small ((R - 1) * (R - 1))) by nia.
  rewrite (Int32_wrap_small ((R - 1) * (R - 1) * 6)) by nia.
  reflexivity.
Qed.

Lemma SceneProxy_GeneratePatches_run
    (DefaultPatchInfo : FGPUTessellationPatchInfo)
    (Settings : FGPUTessellationSettings) (LocalToWorld : FMatrix)
    (CameraPosition : FVector) (Old : FGPUTessellationPatchBuffers) :
  1 <= PatchCountX Settings <= 32 -> 1 <= PatchCountY Settings <= 32 ->
  let Total := PatchCountX Settings * PatchCountY Settings in
  exists Result Factories St,
    SceneProxy_GeneratePatches DefaultPatchInfo Settings LocalToWorld
      CameraPosition Old = Some (Result, Factories, St)
    /\ GeneratedSuccessfully St = Total
    /\ SkippedCulled St = 0 /\ SkippedInvalidLOD St = 0
    /\ TArray.Num (PatchInfo Result) = Total
    /\ TArray.Num (PatchBuffers Result) = Total
    /\ forall i, 0 <= i < Total ->
         exists P B,
           PatchInfo Result !! Z.to_nat i = Some P
           /\ PatchBuffers Result !! Z.to_nat i = Some B
           /\ bVisible P = true
           /\ IsPatchTessellation (TessellationLevel P)
           /\ ResolutionX P = 4 * TessellationLevel P + 1
           /\ ResolutionY P = 4 * TessellationLevel P + 1
           /\ BufferResolutionX B = ResolutionX P
           /\ BufferResolutionY B = ResolutionY P
           /\ VertexCount B = ResolutionX P * ResolutionY P
           /\ IndexCount B = 6 * ((ResolutionX P - 1) * (ResolutionY P - 1))
           /\ PositionBuffer B = Some (mkRDGBuffer 12 (VertexCount B))
           /\ NormalBuffer B = Some (mkRDGBuffer 12 (VertexCount B))
           /\ UVBuffer B = Some (mkRDGBuffer 8 (VertexCount B))
           /\ IndexBufferRHI B = Some (mkRDGBuffer 4 (IndexCount B)).
Proof.
  intros HCX HCY. cbv zeta.
  set (CountX := PatchCountX Settings) in *.
  set (CountY := PatchCountY Settings) in *.
  assert (Hfit : CountX * CountY <= Int32.MAX) by (unfold Int32.MAX; nia).
  destruct (ExecutePatchTessellationPipeline_run DefaultPatchInfo Settings
              LocalToWorld CameraPosition None CountX CountY ltac:(lia) ltac:(lia)
              Hfit [] Old)
    as (Info0 & Info & St & Hrun & Hnum0 & Hnum & HnumB & Hall & Hout & Hc1 & Hc2 & Hc3).
  assert (Hpatch : forall i P, Info !! i = Some P ->
            bVisible P = true /\ IsPatchTessellation (TessellationLevel P)
            /\ ResolutionX P = 4 * TessellationLevel P + 1
            /\ ResolutionY P = 4 * TessellationLevel P + 1
            /\ InvalidUVParameters P = false).
  { intros i P HP.
    destruct (GridIndex_surj CountX CountY (Z.of_nat i)) as (X & Y & HX & HY & Hidx);
      [lia | |].
    { pose proof (lookup_lt_Some _ _ _ HP). unfold TArray.Num in Hnum. lia. }
    destruct (Hall X Y HX HY) as (Old' & _ & HP').
    cbv zeta in HP'. rewrite Hidx, Nat2Z.id, HP in HP'. injection HP' as ->.
    destruct (CalculatePatchInfo_patch_fields Settings LocalToWorld CameraPosition
                None CountX CountY X Y Old')
      as (_ & _ & Hoff & Hsize & HL & HRX & HRY & Hvis & _).
    cbv zeta in Hoff, Hsize, HL, HRX, HRY, Hvis.
    cbn [SetEdgeCollapseFactors bVisible TessellationLevel ResolutionX ResolutionY].
    split; [apply Hvis; reflexivity|]. split; [exact HL|].
    split; [exact HRX|]. split; [exact HRY|].
    apply (InvalidUVParameters_window _ CountX CountY X Y); try assumption. }
  assert (Hin : forall P, In P Info ->
            bVisible P = true /\ 4 <= TessellationLevel P).
  { intros P HP. apply list_elem_of_In in HP.
    apply list_elem_of_lookup_1 in HP. destruct HP as (i & HP).
    destruct (Hpatch i P HP) as (Hv & HL & _).
    pose proof (IsPatchTessellation_pos _ HL). split; [exact Hv | lia]. }
  eexists _, _, St. split.
  { unfold SceneProxy_GeneratePatches. fold CountX CountY. rewrite Hrun.
    cbn [mbind option_bind fst snd]. reflexivity. }
  cbn [PatchInfo PatchBuffers].
  split.
  { rewrite Hc3, <- Hnum. apply CountIf_all. intros P HP.
    destruct (Hin P HP) as [-> HL]. cbn [andb]. apply Z.ltb_lt. lia. }
  split.
  { rewrite Hc1. apply CountIf_none. intros P HP.
    destruct (Hin P HP) as [-> _]. reflexivity. }
  split.
  { rewrite Hc2. apply CountIf_none. intros P HP.
    destruct (Hin P HP) as [-> HL]. cbn [andb]. apply Z.leb_gt. lia. }
  split; [exact Hnum|]. split; [exact HnumB|].
  intros i Hi.
  destruct (Info !! Z.to_nat i) as [P|] eqn:HP.
  2: { apply lookup_ge_None in HP. unfold TArray.Num in Hnum. lia. }
  destruct (Hpatch _ P HP) as (Hv & HL & HRX & HRY & Huv).
  pose proof (IsPatchTessellation_pos _ HL) as HLpos.
  exists P. eexists. split; [reflexivity|]. split; [apply Hout; exact HP|].
  rewrite (PatchOutcome_generated Settings P Hv ltac:(lia) Huv).
  rewrite (CalculateResolution_level _ HL). rewrite HRX, HRY.
  cbn [PX BufferResolutionX BufferResolutionY VertexCount IndexCount
       PositionBuffer NormalBuffer UVBuffer IndexBufferRHI].
  split; [exact Hv|]. split; [exact HL|].
  repeat split; try reflexivity; try lia.
  all: f_equal; f_equal; lia.
Qed.

End ProxyGenerationFacts.

Section RenderingProperties.
Context `{Geometry : EngineGeometry}.

(** After [InitializePatchVertexFactories] the patch loop of
    [RenderPatches] draws exactly the drawable patches, in order. *)
Lemma RenderPatches_run (Total : Z) (Group : FGPUTessellationPatchBuffers) :
  0 <= Total ->
  TArray.Num (PatchInfo Group) = Total ->
  TArray.Num (PatchBuffers Group) = Total ->
  RenderPatches true Total Group
    (InitializePatchVertexFactories (PatchBuffers Group))
  = Some (List.filter (PatchIsDrawable Group) (ZRange 0 (Total - 1))).
Proof.
  intros HT HnI HnB. unfold RenderPatches. cbn [negb].
  match goal with
  | |- for_range _ ?body _ = _ =>
      destruct (for_range_invariant
                  (fun i Drawn =>
                     Drawn = List.filter (PatchIsDrawable Group) (ZRange 0 (i - 1)))
                  Total body []) as (Drawn & Hrun & HD)
  end.
  - reflexivity.
  - intros i Drawn Hi ->.
    replace (i + 1 - 1) with i by lia.
    rewrite (ZRange_snoc i) by lia. rewrite List.filter_app. cbn [List.filter].
    destruct (TArray_get_in_range (PatchInfo Group) i ltac:(lia)) as (P & HP).
    pose proof (proj1 (TArray_get_Some _ _ _) HP) as [_ HPl].
    destruct (TArray_get_in_range (PatchBuffers Group) i ltac:(lia)) as (B & HB).
    pose proof (proj1 (TArray_get_Some _ _ _) HB) as [_ HBl].
    rewrite HP. cbn [mbind option_bind].
    assert (Hd : PatchIsDrawable Group i = bVisible P && Buffers_IsValid B)
      by (unfold PatchIsDrawable; rewrite HPl, HBl; reflexivity).
    rewrite Hd.
    destruct (bVisible P); cbn [negb andb].
    2: { eexists. split; [reflexivity|]. rewrite app_nil_r. reflexivity. }
    rewrite HB. cbn [mbind option_bind].
    destruct (Buffers_IsValid B) eqn:EB; cbn [negb].
    2: { eexists. split; [reflexivity|]. rewrite app_nil_r. reflexivity. }
    assert (HV : TArray.IsValidIndex
                   (InitializePatchVertexFactories (PatchBuffers Group)) i = true).
    { unfold TArray.IsValidIndex, TArray.Num, InitializePatchVertexFactories.
      rewrite length_map. unfold TArray.Num in HnB.
      apply andb_true_intro. split; [apply Z.leb_le | apply Z.ltb_lt]; lia. }
    rewrite HV. unfold InitializePatchVertexFactories.
    rewrite list_lookup_fmap, HBl. cbn [fmap option_fmap option_map default].
    rewrite EB. cbn [negb].
    eexists. split; reflexivity.
  - rewrite Hrun, HD. rewrite Z.max_r by lia. reflexivity.
Qed.

(** X14: after [InitializePatchVertexFactories], the patch loop of
    [RenderPatches] submits exactly the patches that are visible and have a
    valid buffer set, each once and in index order; the tests on the vertex
    factory never reject a patch. *)
Theorem RenderPatches_draws_drawable (Total : Z)
    (Group : FGPUTessellationPatchBuffers) :
  0 <= Total ->
  TArray.Num (PatchInfo Group) = Total ->
  TArray.Num (PatchBuffers Group) = Total ->
  RenderPatches true Total Group
    (InitializePatchVertexFactories (PatchBuffers Group))
  = Some (List.filter (PatchIsDrawable Group) (ZRange 0 (Total - 1))).
Proof.
  intros HT HnI HnB.
  rewrite (RenderPatches_run Total Group HT HnI HnB). reflexivity.
Qed.

(** X11: the patch generation the scene proxy enqueues (no view
    frustum, the patch counts of the settings) generates every patch when
    the counts are between 1 and 32: nothing is culled or skipped, and every
    patch has a buffer set of its resolution [4 * level + 1] with all four
    buffers present. *)
Theorem SceneProxy_GeneratePatches_complete
    (DefaultPatchInfo : FGPUTessellationPatchInfo)
    (Settings : FGPUTessellationSettings) (LocalToWorld : FMatrix)
    (CameraPosition : FVector) (Old : FGPUTessellationPatchBuffers) :
  1 <= PatchCountX Settings <= 32 -> 1 <= PatchCountY Settings <= 32 ->
  let Total := PatchCountX Settings * PatchCountY Settings in
  exists Result Factories St,
    SceneProxy_GeneratePatches DefaultPatchInfo Settings LocalToWorld
      CameraPosition Old = Some (Result, Factories, St)
    /\ GeneratedSuccessfully St = Total
    /\ SkippedCulled St = 0 /\ SkippedInvalidLOD St = 0
    /\ TArray.Num (PatchInfo Result) = Total
    /\ TArray.Num (PatchBuffers Result) = Total
    /\ forall i, 0 <= i < Total ->
         exists P B,
           PatchInfo Result !! Z.to_nat i = Some P
           /\ PatchBuffers Result !! Z.to_nat i = Some B
           /\ bVisible P = true
           /\ IsPatchTessellation (TessellationLevel P)
           /\ ResolutionX P = 4 * TessellationLevel P + 1
           /\ ResolutionY P = 4 * TessellationLevel P + 1
           /\ BufferResolutionX B = ResolutionX P
           /\ BufferResolutionY B = ResolutionY P
           /\ VertexCount B = ResolutionX P * ResolutionY P
           /\ IndexCount B = 6 * ((ResolutionX P - 1) * (ResolutionY P - 1))
           /\ PositionBuffer B = Some (mkRDGBuffer 12 (VertexCount B))
           /\ NormalBuffer B = Some (mkRDGBuffer 12 (VertexCount B))
           /\ UVBuffer B = Some (mkRDGBuffer 8 (VertexCount B))
           /\ IndexBufferRHI B = Some (mkRDGBuffer 4 (IndexCount B)).
Proof.
  intros HCX HCY.
  destruct (SceneProxy_GeneratePatches_run DefaultPatchInfo Settings LocalToWorld
              CameraPosition Old HCX HCY)
    as (Result & Factories & St & Hrun & Hrest).
  exists Result, Factories, St. split; [exact Hrun | exact Hrest].
Qed.

(** X15: after the patch generation the scene proxy enqueues, with
    patch counts between 1 and 32, [RenderPatches] submits every patch of
    the grid, in index order. *)
Theorem SceneProxy_draws_every_patch
    (DefaultPatchInfo : FGPUTessellationPatchInfo)
    (Settings : FGPUTessellationSettings) (LocalToWorld : FMatrix)
    (CameraPosition : FVector) (Old : FGPUTessellationPatchBuffers) :
  1 <= PatchCountX Settings <= 32 -> 1 <= PatchCountY Settings <= 32 ->
  exists Result Factories St,
    SceneProxy_GeneratePatches DefaultPatchInfo Settings LocalToWorld
      CameraPosition Old = Some (Result, Factories, St)
    /\ RenderPatches true (PatchCountX Settings * PatchCountY Settings)
         Result Factories
       = Some (ZRange 0 (PatchCountX Settings * PatchCountY Settings - 1)).
Proof.
  intros HCX HCY.
  destruct (SceneProxy_GeneratePatches_run DefaultPatchInfo Settings LocalToWorld
              CameraPosition Old HCX HCY)
    as (Result & Factories & St & Hrun & _ & _ & _ & HnI & HnB & Hall).
  cbv zeta in *.
  exists Result, Factories, St. split; [exact Hrun|].
  assert (HF : Factories = InitializePatchVertexFactories (PatchBuffers Result)).
  { unfold SceneProxy_GeneratePatches in Hrun.
    destruct (ExecutePatchTessellationPipeline _ _ _ _ _ _ _ _ _) as [Run|];
      [|discriminate].
    cbn [mbind option_bind] in Hrun. injection Hrun as <- <- _. reflexivity. }
  rewrite HF, RenderPatches_run by (assumption || nia).
  f_equal. apply ZRange_all. intros i Hi.
  destruct (Hall i ltac:(lia))
    as (P & B & HP & HB & Hv & HL & HRX & HRY & _ & _ & HVc & HIc
        & HPb & HNb & HUb & HIb).
  unfold PatchIsDrawable. rewrite HP, HB, Hv. cbn [andb].
  unfold Buffers_IsValid. rewrite HPb, HNb, HUb, HIb.
  rewrite !bool_decide_eq_true_2 by eauto. cbn [andb].
  pose proof (IsPatchTessellation_pos _ HL) as HLpos.
  rewrite HVc, HIc, HRX, HRY.
  apply andb_true_intro. split; apply Z.ltb_lt; nia.
Qed.

End RenderingProperties.

(** ** The patch evaluator and the tick *)

Section PatchEvaluatorProperties.
Context `{Geometry : EngineGeometry}.

(** One step of the patch evaluator, by the camera it finds. *)
Lemma UpdatePatchBasedLOD_value DeltaTime Env (C : UGPUTessellationComponent) :
  UpdatePatchBasedLOD DeltaTime Env C
  = match FindPatchCamera Env with
    | None => C
    | Some CameraPos =>
        if negb (LastPatchCountX C =? PatchCountX (TessellationSettings C))
           || negb (LastPatchCountY C =? PatchCountY (TessellationSettings C))
           || F32.gtb (Dist CameraPos (LastCameraPosition C))
                      (PatchUpdateThreshold Env)
        then SendRenderDynamicData_Concurrent Env
               (SetLastCameraPosition
                  (SetLastPatchCount C (PatchCountX (TessellationSettings C))
                     (PatchCountY (TessellationSettings C)))
                  CameraPos)
        else C
    end.
Proof. reflexivity. Qed.

Lemma UpdatePatchBasedLOD_twice d1 d2 Env (C : UGPUTessellationComponent) :
  (forall CameraPos, FindPatchCamera Env = Some CameraPos ->
     F32.gtb (Dist CameraPos CameraPos) (PatchUpdateThreshold Env) = false) ->
  UpdatePatchBasedLOD d2 Env (UpdatePatchBasedLOD d1 Env C)
  = UpdatePatchBasedLOD d1 Env C.
Proof.
  intros Hself. rewrite !UpdatePatchBasedLOD_value.
  destruct (FindPatchCamera Env) as [CameraPos|] eqn:Hcam; [|reflexivity].
  specialize (Hself CameraPos eq_refl).
  destruct (negb (LastPatchCountX C =? PatchCountX (TessellationSettings C))
            || negb (LastPatchCountY C =? PatchCountY (TessellationSettings C))
            || F32.gtb (Dist CameraPos (LastCameraPosition C))
                       (PatchUpdateThreshold Env)) eqn:E.
  - unfold SendRenderDynamicData_Concurrent.
    destruct (HasSceneProxy Env);
      cbn [SetLastCameraPosition SetLastPatchCount LastPatchCountX LastPatchCountY
           TessellationSettings LastCameraPosition];
      rewrite !Z.eqb_refl, Hself; reflexivity.
  - rewrite E. reflexivity.
Qed.

(** X16: when the camera is not farther from itself than the update
    threshold, repeating [UpdatePatchBasedLOD] in an unchanged environment
    changes nothing after the first call: at most one update is sent for a
    camera that stands still. *)
Theorem UpdatePatchBasedLOD_settles (Env : FrameEnvironment)
    (C : UGPUTessellationComponent) (Delta0 : float) (Deltas : list float) :
  (forall CameraPos, FindPatchCamera Env = Some CameraPos ->
     F32.gtb (Dist CameraPos CameraPos) (PatchUpdateThreshold Env) = false) ->
  foldl (fun C d => UpdatePatchBasedLOD d Env C)
    (UpdatePatchBasedLOD Delta0 Env C) Deltas
  = UpdatePatchBasedLOD Delta0 Env C.
Proof.
  intros Hself.
  apply (foldl_invariant (fun C d => UpdatePatchBasedLOD d Env C)
           (fun C1 => C1 = UpdatePatchBasedLOD Delta0 Env C));
    [|reflexivity].
  intros C1 d ->. apply UpdatePatchBasedLOD_twice. exact Hself.
Qed.

(** X17: [UpdatePatchBasedLOD] never touches the settings, the LOD
    level, the applied factor, the resolution or the dirty flag; it sends at
    most one update, only with a scene proxy, and then the update carries
    the camera found, which is also recorded with the patch counts. *)
Theorem UpdatePatchBasedLOD_frame (DeltaTime : float) (Env : FrameEnvironment)
    (C : UGPUTessellationComponent) :
  let C' := UpdatePatchBasedLOD DeltaTime Env C in
  TessellationSettings C' = TessellationSettings C
  /\ bAutoUpdate C' = bAutoUpdate C
  /\ CurrentLODLevel C' = CurrentLODLevel C
  /\ LastAppliedTessFactor C' = LastAppliedTessFactor C
  /\ CurrentResolution C' = CurrentResolution C
  /\ bRenderStateDirty C' = bRenderStateDirty C
  /\ (DynamicDataSent C' = DynamicDataSent C
      \/ (HasSceneProxy Env = true
          /\ FindPatchCamera Env = Some (LastCameraPosition C')
          /\ LastPatchCountX C' = PatchCountX (TessellationSettings C)
          /\ LastPatchCountY C' = PatchCountY (TessellationSettings C)
          /\ DynamicDataSent C' = LastCameraPosition C' :: DynamicDataSent C)).
Proof.
  cbv zeta. rewrite UpdatePatchBasedLOD_value.
  destruct (FindPatchCamera Env) as [CameraPos|]; [|repeat split; auto].
  destruct (_ || _); [|repeat split; auto].
  unfold SendRenderDynamicData_Concurrent.
  destruct (HasSceneProxy Env); cbn; repeat split; auto.
  right. repeat split; reflexivity.
Qed.

Lemma TickComponent_off DeltaTime Env (b : bool) (C : UGPUTessellationComponent) :
  bAutoUpdate C = false \/ LODMode (TessellationSettings C) = LODMode_Disabled ->
  TickComponent DeltaTime Env (b, C) = (b, C).
Proof.
  intros [H|H]; unfold TickComponent; [rewrite H; reflexivity|].
  rewrite H. destruct (negb (bAutoUpdate C)); reflexivity.
Qed.

(** X18: with auto-update off or the LOD mode Disabled, no sequence of
    ticks changes the component or the initialisation flag. *)
Theorem TickFrames_without_LOD (Frames : list (float * FrameEnvironment))
    (b : bool) (C : UGPUTessellationComponent) :
  bAutoUpdate C = false \/ LODMode (TessellationSettings C) = LODMode_Disabled ->
  TickFrames Frames (b, C) = (b, C).
Proof.
  intros H. unfold TickFrames.
  apply (foldl_invariant (fun St F => TickComponent (fst F) (snd F) St)
           (fun St => St = (b, C))); [|reflexivity].
  intros St F ->. apply TickComponent_off. exact H.
Qed.

(** X19: once the LOD state is initialised, no sequence of ticks without
    a camera changes the component, in any LOD mode; the first
    distance-based tick, however, initialises the level and the applied
    factor from [MaxTessellationFactor] even without a camera. *)
Theorem TickFrames_without_camera (Frames : list (float * FrameEnvironment))
    (C : UGPUTessellationComponent) :
  (forall F, In F Frames ->
     PlayerViewPoint (snd F) = None /\ EditorViewLocation (snd F) = None) ->
  TickFrames Frames (true, C) = (true, C)
  /\ (forall DeltaTime Env,
        PlayerViewPoint Env = None -> EditorViewLocation Env = None ->
        bAutoUpdate C = true ->
        LODMode (TessellationSettings C) = LODMode_DistanceBased ->
        TickComponent DeltaTime Env (false, C)
        = (true,
           SetLastAppliedTessFactor
             (SetCurrentLODLevel C
                (F32.of_int (MaxTessellationFactor (TessellationSettings C))))
             (MaxTessellationFactor (TessellationSettings C)))).
Proof.
  intros Hnone. split.
  - unfold TickFrames. induction Frames as [|F Frames IH]; [reflexivity|].
    cbn [foldl].
    destruct (Hnone F (or_introl eq_refl)) as [HP HE].
    assert (Hstep : TickComponent (fst F) (snd F) (true, C) = (true, C)).
    { unfold TickComponent, UpdateDensityBasedLOD, UpdateDistanceBasedLOD,
        UpdateDiscreteLOD, FindCamera.
      rewrite UpdatePatchBasedLOD_value. unfold FindPatchCamera.
      rewrite HP, HE.
      destruct (negb (bAutoUpdate C)); [reflexivity|].
      destruct (LODMode (TessellationSettings C)), (HasWorld (snd F)); reflexivity. }
    rewrite Hstep. apply IH. intros F' HF'. apply Hnone. right. exact HF'.
  - intros DeltaTime Env HP HE Hauto Hmode.
    unfold TickComponent. rewrite Hauto, Hmode. cbn [negb].
    unfold UpdateDistanceBasedLOD, FindCamera. rewrite HP, HE.
    destruct (HasWorld Env); reflexivity.
Qed.

End PatchEvaluatorProperties.

(** ** The discrete mode *)

Lemma F32_gtb_nan D d : F32.is_nan D = true -> F32.gtb D d = false.
Proof. destruct D; try discriminate. intros _. destruct d; reflexivity. Qed.

Lemma Spec_ThresholdWalk_last D Pairs Last Last' :
  Pairs <> [] -> Spec_ThresholdWalk D Pairs Last = Spec_ThresholdWalk D Pairs Last'.
Proof. destruct Pairs as [|[t l] rest]; [congruence | reflexivity]. Qed.

Lemma Ascending_not_nan t t' rest x :
  Ascending (t :: t' :: rest) = true -> In x (t :: t' :: rest) ->
  F32.is_nan x = false.
Proof.
  intros Hasc Hx. cbn [Ascending] in Hasc.
  apply andb_true_iff in Hasc as [Hall _].
  rewrite forallb_forall in Hall.
  destruct Hx as [Hx|Hx].
  - subst x. apply (F32_leb_not_nan t t'), Hall. left. reflexivity.
  - apply (F32_leb_not_nan t x), Hall. exact Hx.
Qed.

Section DiscreteLookup.
Context `{Geometry : EngineGeometry}.

(** The threshold loop of the discrete mode walks the pairs as the
    ordered-threshold lookup does. *)
Lemma FindDiscreteLevel_walk D (Levels : list EGPUTessellationPatchLevel) :
  F32.is_nan D = false ->
  forall Distances i Target,
    length Distances = length (drop i Levels) ->
    (Distances <> [] -> Levels !! i = Some Target) ->
    (forall t, In t Distances -> F32.is_nan t = false) ->
    FindDiscreteLevel D Distances Levels i Target
    = Spec_ThresholdWalk D (zip Distances (drop i Levels)) Target.
Proof.
  intros HD Distances. induction Distances as [|d rest IH];
    intros i Target Hlen Hi Hnan; [reflexivity|].
  specialize (Hi ltac:(discriminate)).
  cbn [FindDiscreteLevel]. unfold EGPUTessellationPatchLevel in *. rewrite Hi.
  rewrite (drop_S _ _ _ Hi) in *. cbn [zip zip_with Spec_ThresholdWalk].
  cbn [length] in Hlen. injection Hlen as Hlen.
  destruct (F32.leb D d) eqn:E.
  - rewrite (F32_leb_not_gtb _ _ E). reflexivity.
  - rewrite (F32_not_leb_gtb D d HD (Hnan d (or_introl eq_refl)) E).
    rewrite (IH (S i) (default Target (Levels !! S i))).
    + destruct rest as [|d' rest'].
      { cbn [zip zip_with Spec_ThresholdWalk].
        destruct (Levels !! S i) eqn:E'; [|reflexivity].
        apply lookup_lt_Some in E'. rewrite length_drop in Hlen.
        cbn [length] in Hlen. lia. }
      apply Spec_ThresholdWalk_last.
      destruct (drop (S i) Levels); [discriminate|]. discriminate.
    + exact Hlen.
    + intros Hne. destruct (Levels !! S i) eqn:E'; [reflexivity|].
      apply lookup_ge_None in E'. rewrite drop_ge in Hlen by lia.
      destruct rest; [congruence | discriminate].
    + intros t Ht. apply Hnan. right. exact Ht.
Qed.

Lemma DiscreteTargetTessFactor_set (Settings : FGPUTessellationSettings)
    (ScaledDistance : float) :
  IsPatchTessellation (DiscreteTargetTessFactor Settings ScaledDistance).
Proof.
  unfold DiscreteTargetTessFactor. cbv zeta.
  match goal with
  | |- IsPatchTessellation (match ?x with _ => _ end) =>
      change (IsPatchTessellation (ConvertPatchLevelToTessellation x))
  end.
  apply ConvertPatchLevelToTessellation_set.
Qed.

(** X20: the target of the discrete mode is always one of 4, 8, 16,
    32, 64 and 128; it is 64 for an empty level table (the fallback 4 is read
    as the enumerator [Patch_64]), and the first level when there is no
    distance threshold or the distance is not a number. *)
Theorem DiscreteTargetTessFactor_levels (Settings : FGPUTessellationSettings)
    (ScaledDistance : float) :
  IsPatchTessellation (DiscreteTargetTessFactor Settings ScaledDistance)
  /\ (DiscreteLODLevels Settings = [] ->
      DiscreteTargetTessFactor Settings ScaledDistance = 64)
  /\ (forall Level0 Levels,
        DiscreteLODLevels Settings = Level0 :: Levels ->
        DiscreteLODDistances Settings = [] \/ F32.is_nan ScaledDistance = true ->
        DiscreteTargetTessFactor Settings ScaledDistance
        = ConvertPatchLevelToTessellation Level0).
Proof.
  split; [|split].
  - apply DiscreteTargetTessFactor_set.
  - intros H. unfold DiscreteTargetTessFactor. rewrite H. reflexivity.
  - intros Level0 Levels HL Hcase. unfold DiscreteTargetTessFactor. rewrite HL.
    cbv zeta.
    assert (Hfind : FindDiscreteLevel ScaledDistance (DiscreteLODDistances Settings)
                      (Level0 :: Levels) 0 Level0 = Level0).
    { destruct Hcase as [->|Hnan]; [reflexivity|].
      destruct (DiscreteLODDistances Settings) as [|d rest]; [reflexivity|].
      cbn [FindDiscreteLevel lookup list_lookup].
      rewrite (F32_gtb_nan _ _ Hnan). reflexivity. }
    rewrite Hfind. reflexivity.
Qed.

(** X21: on the same tables (as many thresholds as levels, ascending
    thresholds) and a distance that is a number, the discrete mode and the
    patch mode select the same tessellation level. *)
Theorem discrete_and_patch_lookup_agree (Discrete Patches : FGPUTessellationSettings)
    (D : float) :
  DiscreteLODLevels Discrete = PatchLevels Patches ->
  DiscreteLODDistances Discrete = PatchDistances Patches ->
  length (PatchDistances Patches) = length (PatchLevels Patches) ->
  PatchLevels Patches <> [] ->
  Ascending (PatchDistances Patches) = true ->
  F32.is_nan D = false ->
  DiscreteTargetTessFactor Discrete D = CalculatePatchTessellationLevel D Patches.
Proof.
  intros HL HD Hlen Hne Hasc Hnan.
  pose proof (CalculatePatchTessellationLevel_lookup D Patches Hlen Hne Hasc Hnan)
    as Hpatch.
  unfold DiscreteTargetTessFactor. rewrite HL, HD.
  unfold Spec_ThresholdLookup in Hpatch.
  destruct (PatchLevels Patches) as [|l0 ls]; [congruence|].
  destruct (PatchDistances Patches) as [|t0 ts]; [discriminate|].
  cbn [zip zip_with fmap option_fmap option_map] in Hpatch.
  injection Hpatch as ->. cbv zeta.
  match goal with
  | |- match ?x with _ => _ end = _ =>
      change (ConvertPatchLevelToTessellation x
              = ConvertPatchLevelToTessellation
                  (Spec_ThresholdWalk D ((t0, l0) :: zip ts ls) l0))
  end.
  f_equal.
  destruct ts as [|t1 ts].
  - destruct ls; [|discriminate].
    cbn [FindDiscreteLevel lookup list_lookup zip zip_with Spec_ThresholdWalk default].
    destruct (F32.gtb D t0), (F32.leb D t0); reflexivity.
  - rewrite (FindDiscreteLevel_walk D (l0 :: ls) Hnan (t0 :: t1 :: ts) 0 l0).
    + reflexivity.
    + rewrite drop_0. exact Hlen.
    + intros _. reflexivity.
    + intros t Ht. eapply Ascending_not_nan; eassumption.
Qed.

Lemma UpdateDiscreteLOD_level DeltaTime Env (C : UGPUTessellationComponent) :
  IsPatchTessellation (LastAppliedTessFactor C) ->
  IsPatchTessellation (LastAppliedTessFactor (UpdateDiscreteLOD DeltaTime Env C)).
Proof.
  intros H. destruct (UpdateDiscreteLOD_fields DeltaTime Env C) as [_ HL].
  cbv zeta in HL. rewrite HL.
  destruct (FindCamera Env); [|exact H].
  destruct (_ <=? _); [|exact H].
  apply DiscreteTargetTessFactor_set.
Qed.

End DiscreteLookup.

Section DiscreteGrid.
Context `{Geometry : EngineGeometry}.

(** X22: in the discrete mode, starting from an applied factor among
    4 .. 128 (the constructor's 16), every run of [UpdateDiscreteLOD] keeps
    the applied factor among 4 .. 128, and the grid resolution is exactly
    four times the applied factor. *)
Theorem discrete_mode_grid_resolution
    (Frames : list (float * FrameEnvironment)) (C : UGPUTessellationComponent) :
  LODMode (TessellationSettings C) = LODMode_DistanceBasedDiscrete ->
  IsPatchTessellation (LastAppliedTessFactor C) ->
  let C' := foldl (fun C F => UpdateDiscreteLOD (fst F) (snd F) C) C Frames in
  IsPatchTessellation (LastAppliedTessFactor C')
  /\ fst (CalculateGridResolution C')
     = mkIntPoint (4 * LastAppliedTessFactor C') (4 * LastAppliedTessFactor C').
Proof.
  intros Hmode Hlevel. cbv zeta.
  assert (Hinv : TessellationSettings
                   (foldl (fun C F => UpdateDiscreteLOD (fst F) (snd F) C) C Frames)
                 = TessellationSettings C
                 /\ IsPatchTessellation
                      (LastAppliedTessFactor
                         (foldl (fun C F => UpdateDiscreteLOD (fst F) (snd F) C)
                            C Frames))).
  { apply (foldl_invariant (fun C F => UpdateDiscreteLOD (fst F) (snd F) C)
             (fun C1 => TessellationSettings C1 = TessellationSettings C
                        /\ IsPatchTessellation (LastAppliedTessFactor C1)));
      [|split; [reflexivity | exact Hlevel]].
    intros C1 F [HS HL]. split.
    - rewrite (proj1 (UpdateDiscreteLOD_fields (fst F) (snd F) C1)). exact HS.
    - apply UpdateDiscreteLOD_level. exact HL. }
  destruct Hinv as [HS HL]. split; [exact HL|].
  rewrite CalculateGridResolution_value. cbn [fst].
  unfold EffectiveTessellationFactor, SceneProxy_EffectiveSettings.
  rewrite HS, Hmode. cbn [LODMode_eqb negb WithTessellationFactor TessellationFactor].
  set (L := LastAppliedTessFactor _) in *.
  destruct HL as [->|[->|[->|[->|[->| ->]]]]]; vm_compute; reflexivity.
Qed.


End DiscreteGrid.

(** ** The first camera position of the scene proxy *)

Section ProxyCamera.

Context `{Geometry : EngineGeometry}.
Variables (IsZero ContainsNaN : FVector -> bool).

(** X23: the constructor of the scene proxy replaces every camera
    position that contains no NaN by the point 2000 units above the
    component; it keeps only a non-zero position that contains a NaN. *)
Theorem SceneProxy_discards_camera (CameraPos ComponentLocation : FVector) :
  ContainsNaN CameraPos = false ->
  SceneProxy_InitialCameraPosition IsZero ContainsNaN (Some CameraPos)
    ComponentLocation
  = VAdd ComponentLocation (MakeVector F32.zero F32.zero (F32.of_int 2000))
  /\ (forall Other,
        IsZero Other = false -> ContainsNaN Other = true ->
        SceneProxy_InitialCameraPosition IsZero ContainsNaN (Some Other)
          ComponentLocation = Other).
Proof.
  intros HN. unfold SceneProxy_InitialCameraPosition. cbv zeta. cbn [from_option id].
  rewrite HN, orb_true_r. split; [reflexivity|].
  intros Other HZ HO. rewrite HZ, HO. reflexivity.
Qed.

End ProxyCamera.

(** ** Levels and distance *)

(** The level a walk selects is the fallback or one of the levels walked. *)
Lemma Spec_ThresholdWalk_in D Thresholds :
  forall Levels Last,
    Spec_ThresholdWalk D (zip Thresholds Levels) Last = Last
    \/ In (Spec_ThresholdWalk D (zip Thresholds Levels) Last) Levels.
Proof.
  induction Thresholds as [|t ts IH]; intros [|l ls] Last; try (left; reflexivity).
  cbn [zip zip_with Spec_ThresholdWalk].
  destruct (F32.leb D t); [right; left; reflexivity|].
  destruct (IH ls l) as [->|H]; right; [left; reflexivity | right; exact H].
Qed.

(** A farther distance never selects a finer level. *)
Lemma Spec_ThresholdWalk_monotone D1 D2 Thresholds :
  F32.leb D1 D2 = true ->
  forall Levels Last,
    Coarsening Levels = true ->
    ConvertPatchLevelToTessellation
      (Spec_ThresholdWalk D2 (zip Thresholds Levels) Last)
    <= ConvertPatchLevelToTessellation
         (Spec_ThresholdWalk D1 (zip Thresholds Levels) Last).
Proof.
  intros HD. induction Thresholds as [|t ts IH]; intros [|l ls] Last Hc;
    try (cbn; lia).
  cbn [zip zip_with Spec_ThresholdWalk].
  cbn [Coarsening] in Hc. apply andb_true_iff in Hc as [Hall Hc].
  destruct (F32.leb D1 t) eqn:E1.
  - destruct (F32.leb D2 t); [lia|].
    destruct (Spec_ThresholdWalk_in D2 ts ls l) as [->|Hin]; [lia|].
    rewrite forallb_forall in Hall. apply Z.leb_le, Hall, Hin.
  - destruct (F32.leb D2 t) eqn:E2.
    + rewrite (F32_leb_trans _ _ _ HD E2) in E1. discriminate.
    + apply IH. exact Hc.
Qed.

(** X24: with ascending thresholds, as many levels as thresholds and
    levels ordered from finest to coarsest, a patch that is farther from the
    camera never gets a finer level. *)
Theorem patch_level_coarsens_with_distance (Settings : FGPUTessellationSettings)
    (D1 D2 : float) :
  length (PatchDistances Settings) = length (PatchLevels Settings) ->
  PatchLevels Settings <> [] ->
  Ascending (PatchDistances Settings) = true ->
  Coarsening (PatchLevels Settings) = true ->
  F32.leb D1 D2 = true ->
  CalculatePatchTessellationLevel D2 Settings
  <= CalculatePatchTessellationLevel D1 Settings.
Proof.
  intros Hlen Hne Hasc Hco HD.
  destruct (F32_leb_not_nan _ _ HD) as [Hn1 Hn2].
  pose proof (CalculatePatchTessellationLevel_lookup D1 Settings Hlen Hne Hasc Hn1) as H1.
  pose proof (CalculatePatchTessellationLevel_lookup D2 Settings Hlen Hne Hasc Hn2) as H2.
  unfold Spec_ThresholdLookup in H1, H2.
  destruct (PatchLevels Settings) as [|l0 ls]; [congruence|].
  destruct (PatchDistances Settings) as [|t0 ts]; [discriminate|].
  cbn [zip zip_with fmap option_fmap option_map] in H1, H2.
  injection H1 as ->. injection H2 as ->.
  apply (Spec_ThresholdWalk_monotone D1 D2 (t0 :: ts) HD (l0 :: ls) l0 Hco).
Qed.

Section DiscreteHysteresis.
Context `{Geometry : EngineGeometry}.

(** X25: a discrete step with a camera changes nothing when the target
    differs from the applied factor by less than the hysteresis; otherwise
    it commits the target, sets the level to it and marks the render state
    dirty, so with a hysteresis of 0 or less every such step marks the
    render state dirty. *)
Theorem UpdateDiscreteLOD_hysteresis (DeltaTime : float) (Env : FrameEnvironment)
    (C : UGPUTessellationComponent) (CameraPos : FVector) :
  FindCamera Env = Some CameraPos ->
  0 <= LastAppliedTessFactor C <= Int32.MAX ->
  let Target :=
    DiscreteTargetTessFactor (TessellationSettings C)
      (F32.div (CalculateDistanceToCamera Env C CameraPos) (MaxScaleOf Env)) in
  (Z.abs (Target - LastAppliedTessFactor C) < LODHysteresis (TessellationSettings C) ->
   UpdateDiscreteLOD DeltaTime Env C = C)
  /\ (LODHysteresis (TessellationSettings C)
      <= Z.abs (Target - LastAppliedTessFactor C) ->
      LastAppliedTessFactor (UpdateDiscreteLOD DeltaTime Env C) = Target
      /\ CurrentLODLevel (UpdateDiscreteLOD DeltaTime Env C) = F32.of_int Target
      /\ bRenderStateDirty (UpdateDiscreteLOD DeltaTime Env C) = true)
  /\ (LODHysteresis (TessellationSettings C) <= 0 ->
      bRenderStateDirty (UpdateDiscreteLOD DeltaTime Env C) = true).
Proof.
  intros Hcam HLast. cbv zeta. unfold UpdateDiscreteLOD. rewrite Hcam. cbv zeta.
  pose proof (DiscreteTargetTessFactor_set (TessellationSettings C)
                (F32.div (CalculateDistanceToCamera Env C CameraPos)
                         (MaxScaleOf Env))) as HT.
  apply IsPatchTessellation_pos in HT.
  set (Target := DiscreteTargetTessFactor _ _) in *.
  set (H := LODHysteresis (TessellationSettings C)).
  unfold Int32.MAX in HLast.
  assert (HA : FMath.Abs (Int32.sub Target (LastAppliedTessFactor C))
               = Z.abs (Target - LastAppliedTessFactor C)).
  { unfold Int32.sub. rewrite Int32_wrap_small by lia.
    apply FMath_Abs_small. lia. }
  rewrite HA.
  split; [|split].
  - intros Hlt. rewrite (proj2 (Z.leb_gt _ _)) by lia. reflexivity.
  - intros Hge. rewrite (proj2 (Z.leb_le _ _)) by lia. repeat split.
  - intros H0. rewrite (proj2 (Z.leb_le _ _)) by lia. reflexivity.
Qed.

End DiscreteHysteresis.

(** ** The further properties on concrete inputs *)

Lemma CalculateGridResolution_aligned_witness :
  4 * EffectiveTessellationFactor ExampleComponent
  <= PX (fst (CalculateGridResolution ExampleComponent))
  < 4 * EffectiveTessellationFactor ExampleComponent + 8.
Proof.
  refine (proj2 (proj2 (proj2 (proj2
            (CalculateGridResolution_aligned (Geometry := TranslationGeometry)
               ExampleComponent)))) _).
  vm_compute. split; discriminate.
Defined.

Lemma reported_resolution_lags_mesh_witness :
  exists Mesh,
    SceneProxy_GenerateMesh (Geometry := TranslationGeometry) ExampleDefaultPatch
      ExampleComponent Vec3_zero Vec3_zero
    = Some (Mesh, mkPatchBuffers [] [] 0 0)
    /\ BufferResolutionX Mesh = 65
    /\ fst (GetVertexCount ExampleComponent) = 4096
    /\ VertexCount Mesh = 4225.
Proof.
  destruct (reported_resolution_lags_mesh (Geometry := TranslationGeometry)
              ExampleDefaultPatch ExampleComponent Vec3_zero Vec3_zero)
    as [Hsingle _].
  - vm_compute. split; discriminate.
  - destruct Hsingle as (Mesh & Hrun & HR & HV & HG & _); [discriminate|].
    exists Mesh. split; [exact Hrun|]. split; [exact HR|]. split; [exact HG|exact HV].
Defined.

Lemma CalculateResolution_odd_factor_witness :
  CalculateResolution (F32.of_int 15) = CalculateResolution (F32.of_int (15 + 1)).
Proof.
  refine (proj2 (CalculateResolution_odd_factor_rounds_up 15 _) _).
  - lia.
  - reflexivity.
Defined.

Lemma CalculateResolution_monotone_witness :
  PX (CalculateResolution (F32.of_int 16)) <= PX (CalculateResolution (F32.of_int 64)).
Proof. apply CalculateResolution_monotone; lia. Defined.

Lemma Dispatch_groups_cover_witness :
  exists g,
    DispatchDisplacement [] (mkIntPoint 65 65) = [Pass_Displacement g]
    /\ DispatchNormalCalculation [] (mkIntPoint 65 65) = [Pass_NormalCalculation g]
    /\ 64 * (g - 1) < 65 * 65 <= 64 * g.
Proof.
  refine (proj1 (proj2 (Dispatch_groups_cover [] DefaultSettings (mkIntPoint 65 65)
                          (mkIntVector4 1 1 1 1) _ _))).
  - simpl. lia.
  - simpl. lia.
Defined.

Lemma GenerateSinglePatch_full_window_witness :
  fst (GenerateSinglePatch [] DefaultSettings FullWindowPatch Buffers_Empty)
  = removelast (fst (ExecuteTessellationPipeline [] DefaultSettings))
    ++ [Pass_CreatePatchBufferSRVs]
  /\ last (fst (ExecuteTessellationPipeline [] DefaultSettings))
     = Some Pass_CreateGPUBufferSRVs.
Proof.
  destruct (GenerateSinglePatch_full_window (Geometry := TranslationGeometry)
              [] DefaultSettings FullWindowPatch Buffers_Empty)
    as [Hmesh Hpatch].
  - simpl. lia.
  - reflexivity.
  - reflexivity.
  - reflexivity.
  - vm_compute. reflexivity.
  - reflexivity.
  - rewrite Hmesh, Hpatch. split; vm_compute; reflexivity.
Defined.

Lemma GeneratePatches_accounting_witness :
  exists St,
    GeneratePatches StripSettings BrokenStripPatchInfo
      (TArray.Num BrokenStripPatchInfo)
      (mkLoopState [] [Buffers_Empty; Buffers_Empty] 0 0 0) = Some St
    /\ SkippedCulled St + SkippedInvalidLOD St + GeneratedSuccessfully St
       = TArray.Num BrokenStripPatchInfo.
Proof.
  destruct (GeneratePatches_accounting (Geometry := TranslationGeometry)
              StripSettings BrokenStripPatchInfo []
              [Buffers_Empty; Buffers_Empty])
    as (St & Hrun & _ & _ & _ & Hsum).
  - reflexivity.
  - vm_compute. discriminate.
  - exists St. split; [exact Hrun | exact Hsum].
Defined.

Lemma CalculatePatchInfo_descriptors_witness :
  exists Info,
    CalculatePatchInfo (Geometry := TranslationGeometry) ExampleDefaultPatch
      StripSettings Vec3_zero StripCamera None 2 1 [] = Some Info
    /\ TArray.Num Info = 2 * 1.
Proof.
  destruct (CalculatePatchInfo_descriptors (Geometry := TranslationGeometry)
              ExampleDefaultPatch StripSettings Vec3_zero StripCamera None 2 1 [])
    as (Info & Hrun & Hnum & _).
  - lia.
  - lia.
  - exists Info. split; [exact Hrun | exact Hnum].
Defined.

Lemma SceneProxy_GeneratePatches_complete_witness :
  exists Result Factories St,
    SceneProxy_GeneratePatches (Geometry := TranslationGeometry)
      ExampleDefaultPatch StripSettings Vec3_zero StripCamera
      (mkPatchBuffers [] [] 0 0) = Some (Result, Factories, St)
    /\ GeneratedSuccessfully St = 2.
Proof.
  destruct (SceneProxy_GeneratePatches_complete (Geometry := TranslationGeometry)
              ExampleDefaultPatch StripSettings Vec3_zero StripCamera
              (mkPatchBuffers [] [] 0 0))
    as (Result & Factories & St & Hrun & Hgen & _).
  - simpl. lia.
  - simpl. lia.
  - exists Result, Factories, St. split; [exact Hrun | exact Hgen].
Defined.

Lemma pipeline_seams_line_up_witness :
  exists Result St,
    ExecutePatchTessellationPipeline (Geometry := TranslationGeometry)
      ExampleDefaultPatch [] StripSettings Vec3_zero StripCamera None 2 1
      (mkPatchBuffers [] [] 0 0) = Some (Result, St).
Proof.
  destruct (pipeline_seams_line_up (Geometry := TranslationGeometry)
              ExampleDefaultPatch [] StripSettings Vec3_zero StripCamera None 2 1
              (mkPatchBuffers [] [] 0 0))
    as (Result & St & Hrun & _).
  - lia.
  - lia.
  - vm_compute. discriminate.
  - exists Result, St. exact Hrun.
Defined.

Lemma ComputePatchEdgeTransitions_factors_witness :
  exists Info',
    ComputePatchEdgeTransitions 2 1 BrokenStripPatchInfo = Some Info'.
Proof.
  destruct (ComputePatchEdgeTransitions_factors (Geometry := TranslationGeometry)
              2 1 BrokenStripPatchInfo)
    as (Info' & Hrun & _).
  - lia.
  - lia.
  - vm_compute. discriminate.
  - reflexivity.
  - exists Info'. exact Hrun.
Defined.

Lemma RenderPatches_draws_drawable_witness :
  RenderPatches true 2 BrokenStripBuffers
    (InitializePatchVertexFactories (PatchBuffers BrokenStripBuffers))
  = Some (List.filter (PatchIsDrawable BrokenStripBuffers) (ZRange 0 (2 - 1))).
Proof.
  apply (RenderPatches_draws_drawable (Geometry := TranslationGeometry)).
  - lia.
  - reflexivity.
  - reflexivity.
Defined.

Lemma SceneProxy_draws_every_patch_witness :
  exists Result Factories St,
    SceneProxy_GeneratePatches (Geometry := TranslationGeometry)
      ExampleDefaultPatch StripSettings Vec3_zero StripCamera
      (mkPatchBuffers [] [] 0 0) = Some (Result, Factories, St)
    /\ RenderPatches true (PatchCountX StripSettings * PatchCountY StripSettings)
         Result Factories
       = Some (ZRange 0 (PatchCountX StripSettings * PatchCountY StripSettings - 1)).
Proof.
  apply (SceneProxy_draws_every_patch (Geometry := TranslationGeometry)).
  - simpl. lia.
  - simpl. lia.
Defined.

Lemma UpdatePatchBasedLOD_settles_witness :
  foldl (fun C d => UpdatePatchBasedLOD d ExampleEnvironment C)
    (UpdatePatchBasedLOD QuarterSecond ExampleEnvironment ExampleComponent)
    [QuarterSecond; QuarterSecond]
  = UpdatePatchBasedLOD QuarterSecond ExampleEnvironment ExampleComponent.
Proof.
  apply (UpdatePatchBasedLOD_settles (Geometry := TranslationGeometry)).
  intros CameraPos H. injection H as <-. vm_compute. reflexivity.
Defined.

Lemma TickFrames_without_LOD_witness :
  TickFrames [(QuarterSecond, ExampleEnvironment); (QuarterSecond, ExampleEnvironment)]
    (false, ExampleComponent)
  = (false, ExampleComponent).
Proof.
  apply (TickFrames_without_LOD (Geometry := TranslationGeometry)).
  right. reflexivity.
Defined.

Lemma TickFrames_without_camera_witness :
  TickFrames [(QuarterSecond, CameralessEnvironment)] (true, SnapComponent)
  = (true, SnapComponent).
Proof.
  refine (proj1 (TickFrames_without_camera (Geometry := TranslationGeometry)
                   [(QuarterSecond, CameralessEnvironment)] SnapComponent _)).
  intros F [<-|[]]. split; reflexivity.
Defined.

Lemma DiscreteTargetTessFactor_levels_witness :
  DiscreteTargetTessFactor DefaultSettings S754_nan
  = ConvertPatchLevelToTessellation Patch_64.
Proof.
  refine (proj2 (proj2 (DiscreteTargetTessFactor_levels DefaultSettings S754_nan))
            Patch_64 [Patch_32; Patch_16; Patch_8] _ _).
  - reflexivity.
  - right. reflexivity.
Defined.

Lemma discrete_and_patch_lookup_agree_witness :
  DiscreteTargetTessFactor DiscreteScenarioSettings (F32.of_int 3000)
  = CalculatePatchTessellationLevel (F32.of_int 3000) PatchScenarioSettings.
Proof.
  apply discrete_and_patch_lookup_agree.
  - reflexivity.
  - reflexivity.
  - reflexivity.
  - discriminate.
  - vm_compute. reflexivity.
  - reflexivity.
Defined.

Lemma discrete_mode_grid_resolution_witness :
  fst (CalculateGridResolution
         (foldl (fun C F => UpdateDiscreteLOD (fst F) (snd F) C) DiscreteComponent
            [(QuarterSecond, ExampleEnvironment)]))
  = mkIntPoint
      (4 * LastAppliedTessFactor
             (foldl (fun C F => UpdateDiscreteLOD (fst F) (snd F) C)
                DiscreteComponent [(QuarterSecond, ExampleEnvironment)]))
      (4 * LastAppliedTessFactor
             (foldl (fun C F => UpdateDiscreteLOD (fst F) (snd F) C)
                DiscreteComponent [(QuarterSecond, ExampleEnvironment)])).
Proof.
  pose proof (discrete_mode_grid_resolution (Geometry := TranslationGeometry)
                [(QuarterSecond, ExampleEnvironment)] DiscreteComponent) as T.
  cbv zeta in T. refine (proj2 (T _ _)).
  - reflexivity.
  - unfold IsPatchTessellation. cbn [LastAppliedTessFactor DiscreteComponent].
    right. right. left. reflexivity.
Defined.

Lemma SceneProxy_discards_camera_witness :
  SceneProxy_InitialCameraPosition (Geometry := TranslationGeometry)
    Vec3_IsZero Vec3_ContainsNaN (Some StripCamera) Vec3_zero
  = Vec3_add Vec3_zero (F32.zero, F32.zero, F32.of_int 2000).
Proof.
  refine (proj1 (SceneProxy_discards_camera (Geometry := TranslationGeometry)
                   Vec3_IsZero Vec3_ContainsNaN StripCamera Vec3_zero _)).
  vm_compute. reflexivity.
Defined.

Lemma patch_level_coarsens_witness :
  CalculatePatchTessellationLevel (F32.of_int 3000) PatchScenarioSettings
  <= CalculatePatchTessellationLevel (F32.of_int 1000) PatchScenarioSettings.
Proof.
  apply patch_level_coarsens_with_distance.
  - reflexivity.
  - discriminate.
  - vm_compute. reflexivity.
  - vm_compute. reflexivity.
  - vm_compute. reflexivity.
Defined.

Lemma UpdateDiscreteLOD_hysteresis_witness :
  bRenderStateDirty
    (UpdateDiscreteLOD QuarterSecond ExampleEnvironment DiscreteComponent) = true.
Proof.
  pose proof (UpdateDiscreteLOD_hysteresis (Geometry := TranslationGeometry)
                QuarterSecond ExampleEnvironment DiscreteComponent Vec3_zero) as T.
  cbv zeta in T.
  refine (proj2 (proj2 (proj1 (proj2 (T _ _)) _))).
  - reflexivity.
  - vm_compute. split; discriminate.
  - vm_compute. discriminate.
Defined.
